(** * Notion reading-tracker helpers: a shallow embedding

    The three scripts of the repository (import.js, update-icons.js and
    update-total-pages.js) are embedded as functions over an explicit
    program state.  Calls to the Notion client, to OpenLibrary, to the
    file system, to the console and to [setTimeout] are recorded, in
    order, in a trace of events; what the outside world answers is left
    to an abstract environment. *)

From Stdlib Require Import String Ascii.
From stdpp Require Import base option list numbers.

Local Open Scope N_scope.

(** ** JavaScript strings

    A JavaScript string is a sequence of UTF-16 code units; [line[i]],
    [trim] and the regular expressions used by the scripts all work on
    code units. *)

Abbreviation jstr := (list N).

(** An ASCII literal as a JavaScript string. *)
Definition lit (s : string) : jstr :=
  map N_of_ascii (list_ascii_of_string s).

Definition ch_quote : N := 34.   (* the double quote *)
Definition ch_comma : N := 44.
Definition ch_hyphen : N := 45.
Definition ch_period : N := 46.
Definition ch_colon : N := 58.
Definition ch_equals : N := 61.
Definition ch_newline : N := 10.

Definition jstr_eqb (a b : jstr) : bool := bool_decide (a = b).

(** WhiteSpace and LineTerminator code points of ECMAScript, the ones
    [String.prototype.trim] removes. *)
Definition is_whitespace (c : N) : bool :=
  (9 <=? c) && (c <=? 13)
  || (c =? 32) || (c =? 160) || (c =? 5760)
  || (8192 <=? c) && (c <=? 8202)
  || (c =? 8232) || (c =? 8233) || (c =? 8239) || (c =? 8287)
  || (c =? 12288) || (c =? 65279).

Fixpoint drop_whitespace (s : jstr) : jstr :=
  match s with
  | [] => []
  | c :: s' => if is_whitespace c then drop_whitespace s' else s
  end.

(** [s.trim()] *)
Definition js_trim (s : jstr) : jstr :=
  rev (drop_whitespace (rev (drop_whitespace s))).

(** [s.replace(/[...]/g, '')] for a character class: every code unit of
    the class is removed. *)
Definition remove_chars (class : list N) (s : jstr) : jstr :=
  List.filter (fun c => negb (bool_decide (c ∈ class))) s.

(** [s.replace(/[...]/g, '-')] *)
Definition replace_chars (class : list N) (by_ : N) (s : jstr) : jstr :=
  map (fun c => if bool_decide (c ∈ class) then by_ else c) s.

(** [s.replace] with the pattern "a double quote at the very start, or
    a double quote at the very end", globally: both are removed (the two
    matches cannot overlap). *)
Definition strip_outer_quotes (s : jstr) : jstr :=
  let s1 := match s with c :: s' => if c =? ch_quote then s' else s | [] => [] end in
  match rev s1 with
  | c :: r => if c =? ch_quote then rev r else s1
  | [] => []
  end.

(** [s.split(sep)] for a one-character separator: never empty. *)
Fixpoint split_on (sep : N) (s : jstr) : list jstr :=
  match s with
  | [] => [[]]
  | c :: s' =>
      if c =? sep then [] :: split_on sep s'
      else match split_on sep s' with
           | [] => [[c]]
           | f :: fs => (c :: f) :: fs
           end
  end.

(** [a.join(sep)] *)
Fixpoint join (sep : jstr) (a : list jstr) : jstr :=
  match a with
  | [] => []
  | [s] => s
  | s :: a' => s ++ sep ++ join sep a'
  end.

(** [a.indexOf(x)]: [None] stands for [-1]. *)
Fixpoint indexOf (a : list jstr) (x : jstr) : option nat :=
  match a with
  | [] => None
  | y :: a' => if jstr_eqb y x then Some O else S <$> indexOf a' x
  end.

(** [!x] for an object that may be [null], or an index that may be
    [-1] compared with [-1]. *)
Definition is_none {A} (x : option A) : bool :=
  match x with
  | None => true
  | Some _ => false
  end.

(** Truthiness of a string that may be [undefined]: [undefined] and the
    empty string are falsy. *)
Definition truthy_str (s : option jstr) : bool :=
  match s with
  | Some (_ :: _) => true
  | _ => false
  end.

(** ** The CSV row parser (import.js, [parseCSVLine]) *)

(** The [for] loop over the characters of [line], with the three
    variables [result], [current] and [inQuotes] it updates; past the
    last character the final [result.push(current)] runs. *)
Fixpoint parseCSVLine_loop (line : jstr) (result : list jstr)
    (current : jstr) (inQuotes : bool) : list jstr :=
  match line with
  | [] => result ++ [current]
  | char :: rest =>
      if char =? ch_quote then
        parseCSVLine_loop rest result current (negb inQuotes)
      else if (char =? ch_comma) && negb inQuotes then
        parseCSVLine_loop rest (result ++ [current]) [] inQuotes
      else
        parseCSVLine_loop rest result (current ++ [char]) inQuotes
  end.

Definition parseCSVLine (line : jstr) : list jstr :=
  parseCSVLine_loop line [] [] false.

(** The parser as section 4.2 of the specification words it, without
    accumulators: scanning left to right with an inside-quotes flag, a
    quote toggles the flag and is dropped, a comma outside quotes closes
    the current field, any other character joins the current field, and
    the field being read when the line ends is always emitted. *)
Fixpoint fields_spec (inQuotes : bool) (line : jstr) : jstr * list jstr :=
  match line with
  | [] => ([], [])
  | char :: rest =>
      if char =? ch_quote then fields_spec (negb inQuotes) rest
      else if (char =? ch_comma) && negb inQuotes then
        ([], let (f, fs) := fields_spec inQuotes rest in f :: fs)
      else let (f, fs) := fields_spec inQuotes rest in (char :: f, fs)
  end.

Definition parseLine_spec (line : jstr) : list jstr :=
  let (f, fs) := fields_spec false line in f :: fs.

(** Number of commas of [line] that lie outside quotes. *)
Fixpoint unquoted_commas (inQuotes : bool) (line : jstr) : nat :=
  match line with
  | [] => O
  | char :: rest =>
      if char =? ch_quote then unquoted_commas (negb inQuotes) rest
      else if (char =? ch_comma) && negb inQuotes then
        S (unquoted_commas inQuotes rest)
      else unquoted_commas inQuotes rest
  end.


(** ** JavaScript values

    What [JSON.parse] and property reads produce.  [VBuiltin name] is the
    member called [name] that every ordinary object inherits from
    [Object.prototype] (a function, or the prototype object itself for
    [__proto__]); the scripts can only obtain it by reading a property
    with a computed key. *)
#[warnings="-register-all"]
Inductive value :=
  | VUndefined
  | VNull
  | VBool (b : bool)
  | VNumber (n : Z)
  | VString (s : jstr)
  | VArray (items : list value)
  | VObject (props : list (jstr * value))
  | VBuiltin (name : jstr).

(** The own property names of [Object.prototype]. *)
Definition Object_prototype_keys : list jstr :=
  [ lit "constructor"; lit "__defineGetter__"; lit "__defineSetter__";
    lit "hasOwnProperty"; lit "__lookupGetter__"; lit "__lookupSetter__";
    lit "isPrototypeOf"; lit "propertyIsEnumerable"; lit "toString";
    lit "valueOf"; lit "__proto__"; lit "toLocaleString" ].

Inductive error :=
  | TypeError (reading : jstr)       (* a property read on undefined or null,
                                        or a call of something not callable *)
  | JsonError                        (* the body is not JSON *)
  | ExternalError (message : jstr)   (* raised by the Notion client, by the
                                        network or by the file system *)
  | WrappedError (prefix : jstr) (cause : error).

Inductive completion (A : Type) :=
  | Normal (a : A)
  | Throw (e : error).
Arguments Normal {A} a.
Arguments Throw {A} e.

Fixpoint own_property (props : list (jstr * value)) (key : jstr) : option value :=
  match props with
  | [] => None
  | (k, v) :: props' => if jstr_eqb k key then Some v else own_property props' key
  end.

(** [o[key]] on an ordinary object: own properties first, then the
    prototype chain, which ends at [Object.prototype]. *)
Definition object_get (props : list (jstr * value)) (key : jstr) : value :=
  match own_property props key with
  | Some v => v
  | None =>
      if bool_decide (key ∈ Object_prototype_keys) then VBuiltin key
      else VUndefined
  end.

(** [v[key]] for the keys the scripts read from parsed JSON ([title],
    [authors], [number_of_pages], [name] and [ISBN:...]): reading from
    [undefined] or [null] throws; none of these keys is a member of an
    array, a string, a number or a boolean, so there the read gives
    [undefined]. *)
Definition js_get (v : value) (key : jstr) : completion value :=
  match v with
  | VUndefined | VNull => Throw (TypeError key)
  | VObject props => Normal (object_get props key)
  | _ => Normal VUndefined
  end.

Definition truthy (v : value) : bool :=
  match v with
  | VUndefined | VNull => false
  | VBool b => b
  | VNumber n => negb (n =? 0)%Z
  | VString s => truthy_str (Some s)
  | VArray _ | VObject _ | VBuiltin _ => true
  end.


(** [a || b] *)
Definition js_or (a b : value) : value := if truthy a then a else b.

(** [a === b] where [a] is a string or [null]: strings are compared by
    their code units, and a string or [null] never equals a value of
    another type. *)
Definition strict_equals (a b : value) : bool :=
  match a, b with
  | VString s, VString s' => jstr_eqb s s'
  | VNull, VNull => true
  | _, _ => false
  end.

(** ** The icon table of update-icons.js *)

Definition glyph (low : N) : jstr := [55357; low].   (* U+1F4xx *)
Definition open_book : jstr := glyph 56534.          (* U+1F4D6 *)
Definition blue_book : jstr := glyph 56536.          (* U+1F4D8 *)
Definition green_book : jstr := glyph 56535.         (* U+1F4D7 *)
Definition closed_book : jstr := glyph 56533.        (* U+1F4D5 *)
Definition books : jstr := glyph 56538.              (* U+1F4DA, the fallback *)

Definition EMOJIS : list (jstr * value) :=
  [ (lit "Currently Reading", VString open_book);
    (lit "To Read", VString blue_book);
    (lit "Completed", VString green_book);
    (lit "DNF", VString closed_book) ].

(** ** Records of the Notion database, as the client returns them

    Optional members are the ones the scripts read with [?.]. *)

Record rich_text := { plain_text : jstr }.

Inductive page_icon :=
  | IconEmoji (emoji : jstr)
  | IconExternal (url : jstr)
  | IconFile (url : jstr).

Record page_properties := {
  prop_Status : option (option jstr);        (* Status?.status?.name *)
  prop_Title : option (option (list rich_text)); (* Title?.title; the read of
                                                [title[0]] is not guarded *)
  prop_ISBN : option (option (list rich_text)); (* ISBN?.rich_text *)
  prop_Total_Pages : option (option Z);      (* ['Total Pages']?.number *)
}.

Record page := {
  page_id : jstr;
  page_props : page_properties;
  page_icon_of : option page_icon;
}.

Record response := {
  results : list page;
  has_more : bool;
  next_cursor : option jstr;
}.

(** The body of [notion.pages.update]: either script sends one member. *)
Inductive patch :=
  | PatchIcon (emoji : value)            (* icon: { type: 'emoji', emoji } *)
  | PatchTotalPages (number : value).    (* properties: { 'Total Pages': { number } } *)

Record update_request := { upd_page_id : jstr; upd_patch : patch }.

(** What import.js knows of a book ([fetchBookInfo]'s result). *)
Record BookInfo := {
  title : value;
  authors : list value;
  numberOfPages : value;
  isbn : jstr;
}.

(** The body of [notion.pages.create] in [addBookToNotion]. *)
Record create_request := {
  new_icon : jstr;
  new_Title : value;
  new_Author : list value;
  new_ISBN : jstr;
  new_Total_Pages : value;
}.

(** The three ways a request to OpenLibrary ends. *)
Inductive http_outcome :=
  | NetworkFailure (message : jstr)
  | InvalidJson
  | JsonBody (data : value).

(** ** Console messages

    One constructor per [console.log] or [console.error] call of the
    scripts, holding the values interpolated into its text; where the
    script prints [error.message] or [error] the constructor holds the
    error. *)
Inductive message :=
  (* update-icons.js and update-total-pages.js *)
  | MsgProcessingBatch (n : nat)
  | MsgBatchComplete (hasMore : bool)
  (* update-icons.js *)
  | MsgSkipNoStatus (title : jstr)
  | MsgSkipEmojiMatches (title : jstr) (expectedEmoji : value)
  | MsgIconUpdated (title : jstr) (expectedEmoji : value) (status : jstr)
  | ErrUpdatingIcon (title : jstr) (e : error)
  | MsgIconsComplete (totalUpdated totalSkipped : nat)
  | ErrUpdatingIcons (e : error)
  (* update-total-pages.js *)
  | MsgStarting
  | MsgForceMode
  | MsgSkipNoISBN (title : jstr)
  | MsgSkipHasPages (title : jstr) (pages : Z)
  | MsgForceUpdating (title : jstr) (pages : Z)
  | MsgFetchingData (title isbn : jstr)
  | MsgNoOpenLibraryData (title isbn : jstr)
  | MsgNoPageCount (title isbn : jstr)
  | MsgForceUpdated (title : jstr) (from : Z) (to : value)
  | MsgUpdated (title : jstr) (to : value)
  | ErrProcessing (title : jstr) (e : error)
  | MsgSummary
  | MsgTotalUpdated (n : nat)
  | MsgTotalForceUpdated (n : nat)
  | MsgTotalSkipped (n : nat)
  | MsgTotalMissingISBN (n : nat)
  | MsgTotalFailed (n : nat)
  | ErrUpdatingTotalPages (e : error)
  (* import.js *)
  | MsgFailedSaved (n : nat) (file : jstr)
  | ErrFetching (isbn : jstr) (e : error)
  | MsgAdded (title : value)
  | ErrAdding (title : value) (e : error)
  | MsgProcessingIsbns (n : nat)
  | MsgFetchingIsbn (isbn : jstr)
  | MsgFound (title : value)
  | MsgNoDataIsbn (isbn : jstr)
  | MsgFileComplete (n : nat)
  | MsgResultsSaved
  | MsgNoBooksFound
  | ErrProcessingFile (e : error)
  | MsgSingleComplete
  | ErrProcessingIsbn (e : error)
  | ErrNoIsbnColumns
  | MsgProcessingGoodreads
  | MsgSkipRow (title : jstr)
  | MsgFoundBooks (n : nat)
  | MsgProcessingBook (title : jstr)
  | MsgTryingIsbn13 (isbn13 : jstr)
  | MsgTryingIsbn (isbn : jstr)
  | MsgNoDataBook (title : jstr)
  | MsgGoodreadsComplete (successful total : nat)
  | ErrProcessingGoodreads (e : error).

(** ** Events: everything a script does to the outside world *)
Inductive event :=
  | EvQuery (start_cursor : option jstr)     (* notion.databases.query *)
  | EvUpdate (req : update_request)          (* notion.pages.update *)
  | EvCreate (req : create_request)          (* notion.pages.create *)
  | EvGet (url : jstr)                       (* fetch / https.get *)
  | EvSleep (ms : nat)                       (* await setTimeout *)
  | EvLog (m : message)                      (* console.log *)
  | EvError (m : message)                    (* console.error *)
  | EvReadFile (path : jstr)                 (* fs.readFile *)
  | EvWriteFile (path content : jstr).       (* fs.writeFile *)

(** ** The outside world

    The scripts talk to the Notion database (the two maintenance scripts
    query and update it, import.js only creates pages), to OpenLibrary
    and to Node's file system and clock.  Each operation takes the
    state of the world and returns what it answers together with the
    world afterwards; nothing is assumed about the answers. *)
Class Notion (W : Type) := {
  databases_query : option jstr -> W -> completion response * W;
  pages_update : update_request -> W -> completion unit * W;
}.

Class NotionCreate (W : Type) := {
  pages_create : create_request -> W -> completion unit * W;
}.

Class OpenLibrary (W : Type) := {
  http_get : jstr -> W -> http_outcome * W;
}.

Class Node (W : Type) := {
  fs_readFile : jstr -> W -> completion jstr * W;
  fs_writeFile : jstr -> jstr -> W -> completion unit * W;
  Date_toISOString : W -> jstr * W;
}.

(** ** Program state and the monad of the scripts

    [failedIsbns] is the module-level array of import.js; the two other
    scripts never touch it. *)
Record state (W : Type) := {
  world : W;
  trace : list event;
  failedIsbns : list jstr;
}.
Arguments world {W} _.
Arguments trace {W} _.
Arguments failedIsbns {W} _.

Definition M (W A : Type) : Type := state W -> completion A * state W.

Definition ret {W A} (a : A) : M W A := fun st => (Normal a, st).

Definition bind {W A B} (c : M W A) (k : A -> M W B) : M W B :=
  fun st =>
    match c st with
    | (Normal a, st') => k a st'
    | (Throw e, st') => (Throw e, st')
    end.

Definition throw {W A} (e : error) : M W A := fun st => (Throw e, st).

(** [try { c } catch (error) { handler }] *)
Definition try_catch {W A} (c : M W A) (handler : error -> M W A) : M W A :=
  fun st =>
    match c st with
    | (Normal a, st') => (Normal a, st')
    | (Throw e, st') => handler e st'
    end.

Definition lift {W A} (r : completion A) : M W A := fun st => (r, st).

Declare Scope js_scope.
Delimit Scope js_scope with js.
Notation "x <- c ;; k" := (bind c (fun x => k))
  (at level 100, c at next level, right associativity) : js_scope.
Notation "c ;; k" := (bind c (fun _ => k))
  (at level 100, right associativity) : js_scope.
Local Open Scope js_scope.

Definition emit {W} (e : event) : M W unit :=
  fun st => (Normal tt,
             {| world := world st; trace := trace st ++ [e];
                failedIsbns := failedIsbns st |}).

Definition console_log {W} (m : message) : M W unit := emit (EvLog m).
Definition console_error {W} (m : message) : M W unit := emit (EvError m).

(** [await new Promise(resolve => setTimeout(resolve, ms))] *)
Definition sleep {W} (ms : nat) : M W unit := emit (EvSleep ms).

(** A call to the outside world: the event is recorded, then the world
    answers. *)
Definition call {W A} (e : event) (op : W -> A * W) : M W A :=
  fun st =>
    let (a, w) := op (world st) in
    (Normal a,
     {| world := w; trace := trace st ++ [e]; failedIsbns := failedIsbns st |}).

Definition call_throwing {W A} (e : event) (op : W -> completion A * W) : M W A :=
  r <- call e op ;; lift r.

(** [failedIsbns.push(isbn)] *)
Definition failedIsbns_push {W} (isbn : jstr) : M W unit :=
  fun st => (Normal tt,
             {| world := world st; trace := trace st;
                failedIsbns := failedIsbns st ++ [isbn] |}).

Definition get_failedIsbns {W} : M W (list jstr) :=
  fun st => (Normal (failedIsbns st), st).

(** [for (const x of items) { body }], threading the variables [c] the
    body updates. *)
Fixpoint for_of {W A C} (items : list A) (body : A -> C -> M W C) (c : C) : M W C :=
  match items with
  | [] => ret c
  | x :: rest => c' <- body x c ;; for_of rest body c'
  end.

(** [while (hasMore) { body }] of the two maintenance scripts.  The loop
    variables are [hasMore], [startCursor] and the counters [c]; [body]
    is one pass.  JavaScript puts no bound on the number of passes, so
    the embedding takes a bound [fuel] and answers [None] when it is
    used up. *)
Fixpoint while_hasMore {W C} (body : option jstr -> C -> M W (bool * option jstr * C))
    (fuel : nat) (hasMore : bool) (startCursor : option jstr) (c : C)
    (st : state W) : option (completion C * state W) :=
  if hasMore then
    match fuel with
    | O => None
    | S fuel' =>
        match body startCursor c st with
        | (Normal (hasMore', startCursor', c'), st') =>
            while_hasMore body fuel' hasMore' startCursor' c' st'
        | (Throw e, st') => Some (Throw e, st')
        end
    end
  else Some (Normal c, st).

(** ** Reads shared by the two maintenance scripts *)

(** [page.properties.Title?.title[0]?.plain_text || 'Unknown Title'].
    The chain is guarded after [Title] and after [title[0]], not after
    [title]: on a record whose [Title] property is there but carries no
    [title] list the read of [title[0]] throws. *)
Definition page_title (p : page) : completion jstr :=
  match prop_Title (page_props p) with
  | None => Normal (lit "Unknown Title")
  | Some None => Throw (TypeError (lit "0"))
  | Some (Some []) => Normal (lit "Unknown Title")
  | Some (Some (r :: _)) =>
      Normal (if truthy_str (Some (plain_text r)) then plain_text r
              else lit "Unknown Title")
  end.

(** The title of the record can be read. *)
Definition readable (p : page) : Prop :=
  exists title, page_title p = Normal title.

(** [https://openlibrary.org/api/books?bibkeys=ISBN:${isbn}&format=json&jscmd=data] *)
Definition openlibrary_url (isbn : jstr) : jstr :=
  lit "https://openlibrary.org/api/books?bibkeys=ISBN:" ++ isbn
  ++ lit "&format=json&jscmd=data".

(** ** update-icons.js *)
Module UpdateIcons.

Record counters := { totalUpdated : nat; totalSkipped : nat }.

(** [page.properties.Status?.status?.name] *)
Definition status_name (p : page) : option jstr :=
  match prop_Status (page_props p) with
  | Some (Some name) => Some name
  | _ => None
  end.

(** [EMOJIS[status] || fallback] *)
Definition expectedEmoji (status : jstr) : value :=
  js_or (object_get EMOJIS status) (VString books).

(** [page.icon?.type === 'emoji' ? page.icon.emoji : null] *)
Definition currentEmoji (p : page) : value :=
  match page_icon_of p with
  | Some (IconEmoji emoji) => VString emoji
  | _ => VNull
  end.

Section script.
Context {W : Type} `{!Notion W}.

(** The body of [for (const page of response.results)]. *)
Definition process_record (page : page) (c : counters) : M W counters :=
  let status := status_name page in
  title <- lift (page_title page) ;;
  if negb (truthy_str status) then
    console_log (MsgSkipNoStatus title) ;;
    ret c                                                   (* continue *)
  else
    let status := default [] status in
    let expectedEmoji := expectedEmoji status in
    let currentEmoji := currentEmoji page in
    if strict_equals currentEmoji expectedEmoji then
      console_log (MsgSkipEmojiMatches title expectedEmoji) ;;
      ret {| totalUpdated := totalUpdated c;
             totalSkipped := S (totalSkipped c) |}          (* continue *)
    else
      c' <- try_catch
              (let req := {| upd_page_id := page_id page;
                             upd_patch := PatchIcon expectedEmoji |} in
               call_throwing (EvUpdate req) (pages_update req) ;;
               console_log (MsgIconUpdated title expectedEmoji status) ;;
               ret {| totalUpdated := S (totalUpdated c);
                      totalSkipped := totalSkipped c |})
              (fun error =>
                 console_error (ErrUpdatingIcon title error) ;;
                 ret c) ;;
      sleep 250 ;;
      ret c'.

(** One pass of [while (hasMore)]. *)
Definition iteration (startCursor : option jstr) (c : counters)
    : M W (bool * option jstr * counters) :=
  response <- call_throwing (EvQuery startCursor) (databases_query startCursor) ;;
  console_log (MsgProcessingBatch (length (results response))) ;;
  c' <- for_of (results response) process_record c ;;
  let hasMore := has_more response in
  let startCursor := next_cursor response in
  console_log (MsgBatchComplete hasMore) ;;
  ret (hasMore, startCursor, c').

Definition pagination (fuel : nat) : state W -> option (completion counters * state W) :=
  while_hasMore iteration fuel true None
    {| totalUpdated := O; totalSkipped := O |}.

Definition updateBookIcons (fuel : nat) (st : state W) : option (state W) :=
  match pagination fuel st with
  | None => None
  | Some (Normal c, st') =>
      Some (snd (console_log
                   (MsgIconsComplete (totalUpdated c) (totalSkipped c)) st'))
  | Some (Throw error, st') =>
      Some (snd (console_error (ErrUpdatingIcons error) st'))
  end.

End script.

(** What [EMOJIS[status] || fallback] is for a status that names no
    member [EMOJIS] inherits: the glyph of its own entry, the fallback
    when it has none. *)
Definition glyph_for (status : jstr) : jstr :=
  match own_property EMOJIS status with
  | Some (VString g) => g
  | _ => books
  end.

(** The update request [process_record] sends for [page]. *)
Definition icon_request (page : page) : update_request :=
  {| upd_page_id := page_id page;
     upd_patch := PatchIcon (expectedEmoji (default [] (status_name page))) |}.

End UpdateIcons.

(** ** update-total-pages.js *)
Module UpdateTotalPages.

Record counters := {
  totalUpdated : nat;
  totalSkipped : nat;
  totalMissingISBN : nat;
  totalFailedFetch : nat;
  totalForceUpdated : nat;
}.

Definition zero : counters :=
  {| totalUpdated := O; totalSkipped := O; totalMissingISBN := O;
     totalFailedFetch := O; totalForceUpdated := O |}.

Definition incr_updated (c : counters) : counters :=
  {| totalUpdated := S (totalUpdated c); totalSkipped := totalSkipped c;
     totalMissingISBN := totalMissingISBN c;
     totalFailedFetch := totalFailedFetch c;
     totalForceUpdated := totalForceUpdated c |}.
Definition incr_skipped (c : counters) : counters :=
  {| totalUpdated := totalUpdated c; totalSkipped := S (totalSkipped c);
     totalMissingISBN := totalMissingISBN c;
     totalFailedFetch := totalFailedFetch c;
     totalForceUpdated := totalForceUpdated c |}.
Definition incr_missingISBN (c : counters) : counters :=
  {| totalUpdated := totalUpdated c; totalSkipped := totalSkipped c;
     totalMissingISBN := S (totalMissingISBN c);
     totalFailedFetch := totalFailedFetch c;
     totalForceUpdated := totalForceUpdated c |}.
Definition incr_failedFetch (c : counters) : counters :=
  {| totalUpdated := totalUpdated c; totalSkipped := totalSkipped c;
     totalMissingISBN := totalMissingISBN c;
     totalFailedFetch := S (totalFailedFetch c);
     totalForceUpdated := totalForceUpdated c |}.
Definition incr_forceUpdated (c : counters) : counters :=
  {| totalUpdated := totalUpdated c; totalSkipped := totalSkipped c;
     totalMissingISBN := totalMissingISBN c;
     totalFailedFetch := totalFailedFetch c;
     totalForceUpdated := S (totalForceUpdated c) |}.

(** The five headings of the summary, and the counters after one more
    record under a heading. *)
Inductive heading :=
  | Updated | ForceUpdated | Skipped | MissingISBN | FailedFetch.

Definition count (h : heading) (c : counters) : counters :=
  match h with
  | Updated => incr_updated c
  | ForceUpdated => incr_forceUpdated c
  | Skipped => incr_skipped c
  | MissingISBN => incr_missingISBN c
  | FailedFetch => incr_failedFetch c
  end.

(** The counters after the records of [hs], one heading per record. *)
Definition tally (c : counters) (hs : list heading) : counters :=
  foldl (fun c h => count h c) c hs.

(** [page.properties.ISBN?.rich_text?.[0]?.plain_text] *)
Definition page_isbn (p : page) : option jstr :=
  match prop_ISBN (page_props p) with
  | Some (Some (r :: _)) => Some (plain_text r)
  | _ => None
  end.

(** [page.properties['Total Pages']?.number]; [None] is [undefined] or
    [null]. *)
Definition page_total_pages (p : page) : option Z :=
  match prop_Total_Pages (page_props p) with
  | Some (Some n) => Some n
  | _ => None
  end.

(** Truthiness of a number that may be missing: [0] is falsy. *)
Definition truthy_num (n : option Z) : bool :=
  match n with
  | Some n => negb (n =? 0)%Z
  | None => false
  end.

(** How a pass through the [try] block of the loop body ends: with a
    [continue], or by reaching the statement after the block. *)
Inductive flow :=
  | Continue (c : counters)
  | Completed (c : counters).

(** What the promise of [fetchBookDataFromOpenLibrary] settles to, given
    how the request ended: rejected on the [error] event and when the
    [end] handler throws, resolved with the entry of the ISBN or
    [null]. *)
Definition book_data (isbn : jstr) (out : http_outcome) : completion value :=
  match out with
  | NetworkFailure message =>
      Throw (WrappedError (lit "OpenLibrary API request failed: ")
               (ExternalError message))
  | InvalidJson =>
      Throw (WrappedError (lit "Failed to parse OpenLibrary response: ")
               JsonError)
  | JsonBody bookData =>
      match js_get bookData (lit "ISBN:" ++ isbn) with
      | Normal v => Normal (js_or v VNull)
      | Throw e =>
          Throw (WrappedError (lit "Failed to parse OpenLibrary response: ") e)
      end
  end.

Section script.
Context {W : Type} `{!Notion W, !OpenLibrary W}.

Definition fetchBookDataFromOpenLibrary (isbn : jstr) : M W value :=
  let url := openlibrary_url isbn in
  out <- call (EvGet url) (http_get url) ;;
  lift (book_data isbn out).

(** The body of [for (const page of response.results)]; [force] is
    [options.force]. *)
Definition process_record (force : bool) (page : page) (c : counters)
    : M W counters :=
  title <- lift (page_title page) ;;
  let isbn := page_isbn page in
  let currentTotalPages := page_total_pages page in
  if negb (truthy_str isbn) then
    console_log (MsgSkipNoISBN title) ;;
    ret (incr_missingISBN c)                                (* continue *)
  else
    let isbn := default [] isbn in
    let pages := default 0%Z currentTotalPages in
    if truthy_num currentTotalPages && negb force then
      console_log (MsgSkipHasPages title pages) ;;
      ret (incr_skipped c)                                  (* continue *)
    else
      (if truthy_num currentTotalPages && force
       then console_log (MsgForceUpdating title pages)
       else ret tt) ;;
      r <- try_catch
             (console_log (MsgFetchingData title isbn) ;;
              bookData <- fetchBookDataFromOpenLibrary isbn ;;
              if negb (truthy bookData) then
                console_log (MsgNoOpenLibraryData title isbn) ;;
                ret (Continue (incr_failedFetch c))
              else
                numberOfPages <- lift (js_get bookData (lit "number_of_pages")) ;;
                if negb (truthy numberOfPages) then
                  console_log (MsgNoPageCount title isbn) ;;
                  ret (Continue (incr_failedFetch c))
                else
                  let req := {| upd_page_id := page_id page;
                                upd_patch := PatchTotalPages numberOfPages |} in
                  call_throwing (EvUpdate req) (pages_update req) ;;
                  if truthy_num currentTotalPages && force then
                    console_log (MsgForceUpdated title pages numberOfPages) ;;
                    ret (Completed (incr_forceUpdated c))
                  else
                    console_log (MsgUpdated title numberOfPages) ;;
                    ret (Completed (incr_updated c)))
             (fun error =>
                console_error (ErrProcessing title error) ;;
                ret (Completed (incr_failedFetch c))) ;;
      match r with
      | Continue c' => ret c'
      | Completed c' => sleep 500 ;; ret c'
      end.

(** One pass of [while (hasMore)]. *)
Definition iteration (force : bool) (startCursor : option jstr) (c : counters)
    : M W (bool * option jstr * counters) :=
  response <- call_throwing (EvQuery startCursor) (databases_query startCursor) ;;
  console_log (MsgProcessingBatch (length (results response))) ;;
  c' <- for_of (results response) (process_record force) c ;;
  let hasMore := has_more response in
  let startCursor := next_cursor response in
  console_log (MsgBatchComplete hasMore) ;;
  ret (hasMore, startCursor, c').

Definition start (force : bool) : M W unit :=
  console_log MsgStarting ;;
  if force then console_log MsgForceMode else ret tt.

Definition summary (c : counters) : M W unit :=
  console_log MsgSummary ;;
  console_log (MsgTotalUpdated (totalUpdated c)) ;;
  console_log (MsgTotalForceUpdated (totalForceUpdated c)) ;;
  console_log (MsgTotalSkipped (totalSkipped c)) ;;
  console_log (MsgTotalMissingISBN (totalMissingISBN c)) ;;
  console_log (MsgTotalFailed (totalFailedFetch c)).

Definition pagination (force : bool) (fuel : nat) (st : state W)
    : option (completion counters * state W) :=
  while_hasMore (iteration force) fuel true None zero (snd (start force st)).

Definition updateBookTotalPages (force : bool) (fuel : nat) (st : state W)
    : option (state W) :=
  match pagination force fuel st with
  | None => None
  | Some (Normal c, st') => Some (snd (summary c st'))
  | Some (Throw error, st') =>
      Some (snd (console_error (ErrUpdatingTotalPages error) st'))
  end.

End script.

(** The page count a lookup obtains, if any: the [numberOfPages] with
    which [process_record] reaches its update request. *)
Definition page_count_found (isbn : jstr) (out : http_outcome) : option value :=
  match book_data isbn out with
  | Normal bookData =>
      if truthy bookData then
        match js_get bookData (lit "number_of_pages") with
        | Normal numberOfPages =>
            if truthy numberOfPages then Some numberOfPages else None
        | Throw _ => None
        end
      else None
  | Throw _ => None
  end.

(** The update request [process_record] sends once it has a page count. *)
Definition pages_request (page : page) (numberOfPages : value) : update_request :=
  {| upd_page_id := page_id page;
     upd_patch := PatchTotalPages numberOfPages |}.

(** The URL [process_record] looks up for [page]. *)
Definition lookup_url (page : page) : jstr :=
  openlibrary_url (default [] (page_isbn page)).

End UpdateTotalPages.

(** ** import.js *)
Module ImportBooks.

(** An entry of [booksToProcess] in [processGoodreadsCSV]; [None] is
    [null]. *)
Record book := {
  book_title : jstr;
  book_isbn : option jstr;
  book_isbn13 : option jstr;
}.

(** [isbn.trim().replace(/-/g, '')] *)
Definition clean (isbn : jstr) : jstr := remove_chars [ch_hyphen] (js_trim isbn).

(** [authors.map(author => author.name)]: the first author that is
    [null] makes the whole call throw. *)
Fixpoint author_names (items : list value) : completion (list value) :=
  match items with
  | [] => Normal []
  | author :: rest =>
      match js_get author (lit "name") with
      | Throw e => Throw e
      | Normal name =>
          match author_names rest with
          | Throw e => Throw e
          | Normal names => Normal (name :: names)
          end
      end
  end.

(** [bookData.authors?.map(author => author.name) || []] *)
Definition authors_of (authors : value) : completion (list value) :=
  match authors with
  | VUndefined | VNull => Normal []
  | VArray items => author_names items
  | _ => Throw (TypeError (lit "map"))
  end.

(** A cell [values[index]] of a spreadsheet row, when the column exists
    and the cell is not empty. *)
Definition cell (index : option nat) (values : list jstr) : option jstr :=
  match index with
  | Some i =>
      match values !! i with
      | Some (c :: v) => Some (c :: v)
      | _ => None
      end
  | None => None
  end.

(** The cell with every equals sign and double quote removed, trimmed
    ([replace] with a character class, then [trim]), and [null] when
    that is empty. *)
Definition identifier_cell (index : option nat) (values : list jstr) : option jstr :=
  match cell index values with
  | Some v =>
      match js_trim (remove_chars [ch_equals; ch_quote] v) with
      | [] => None
      | s => Some s
      end
  | None => None
  end.

Definition title_cell (index : option nat) (values : list jstr) : jstr :=
  match cell index values with
  | Some v => js_trim (strip_outer_quotes v)
  | None => lit "Unknown Title"
  end.

(** The [try] block of [fetchBookInfo] once the request has ended: the
    body as JSON ([fetch] rejects on a network failure, [response.json()]
    on a body that is not JSON), the entry of the ISBN in it, and the
    record built from the entry.  Reading a member of a missing or
    [null] entry throws. *)
Definition book_info (isbn : jstr) (out : http_outcome) : completion BookInfo :=
  match out with
  | NetworkFailure message => Throw (ExternalError message)
  | InvalidJson => Throw JsonError
  | JsonBody data =>
      match js_get data (lit "ISBN:" ++ isbn) with
      | Throw e => Throw e
      | Normal bookData =>
          match js_get bookData (lit "title") with
          | Throw e => Throw e
          | Normal title =>
              match js_get bookData (lit "authors") with
              | Throw e => Throw e
              | Normal authors =>
                  match authors_of authors with
                  | Throw e => Throw e
                  | Normal names =>
                      match js_get bookData (lit "number_of_pages") with
                      | Throw e => Throw e
                      | Normal number_of_pages =>
                          Normal {| title := title;
                                    authors := names;
                                    numberOfPages := js_or number_of_pages VNull;
                                    isbn := isbn |}
                      end
                  end
              end
          end
      end
  end.

(** *** What a lookup should give, read off the answer alone

    The record [fetchBookInfo] is expected to build, described by the
    shape of the answer and not by the steps of the code; [None] stands
    for the cases in which it is expected to return [null]. *)




(** The identifiers [process_book] may look up for a book, in the order
    it tries them, and the identifier it adds to the failure log itself
    when none of them is found. *)
Definition candidates (b : book) : list jstr :=
  (if truthy_str (book_isbn13 b) then [clean (default [] (book_isbn13 b))] else [])
  ++ (if truthy_str (book_isbn b) then [clean (default [] (book_isbn b))] else []).

Definition reported (b : book) : list jstr :=
  if truthy_str (book_isbn13 b) then [default [] (book_isbn13 b)]
  else if truthy_str (book_isbn b) then [default [] (book_isbn b)]
  else [].

(** The book a row of the export adds to the books to process: none for
    a blank row and for a row without ISBN13 and ISBN. *)
Definition book_of_row (isbnIndex isbn13Index titleIndex : option nat)
    (line : jstr) : option book :=
  let values := parseCSVLine line in
  let isbn := identifier_cell isbnIndex values in
  let isbn13 := identifier_cell isbn13Index values in
  if truthy_str (Some (js_trim line)) && (truthy_str isbn13 || truthy_str isbn)
  then Some {| book_title := title_cell titleIndex values;
               book_isbn := isbn; book_isbn13 := isbn13 |}
  else None.

(** What happened to a book to process: the identifiers looked up for it
    are its candidates in their order, up to the one that was found (then
    the record found carries that identifier), or all of them when none
    was found. *)
Definition attempt (b : book) (ids : list jstr) (found : option BookInfo) : Prop :=
  ids `prefix_of` candidates b
  /\ match found with
     | Some info => ids <> [] /\ isbn info = List.last ids []
     | None => ids = candidates b
     end.

(** What the book leaves in the failure list: the identifiers looked up
    in vain, and, when none was found, the identifier reported for the
    book. *)
Definition logged (b : book) (ids : list jstr) (found : option BookInfo)
    : list jstr :=
  match found with
  | Some _ => removelast ids
  | None => ids ++ reported b
  end.

Section script.
Context {W : Type} `{!NotionCreate W, !OpenLibrary W, !Node W}.

Definition now : M W jstr :=
  fun st =>
    let (iso, w) := Date_toISOString (world st) in
    (Normal iso,
     {| world := w; trace := trace st; failedIsbns := failedIsbns st |}).

Definition saveFailedIsbns : M W unit :=
  failed <- get_failedIsbns ;;
  if bool_decide (0 < length failed)%nat then
    iso <- now ;;
    let timestamp := replace_chars [ch_colon; ch_period] ch_hyphen iso in
    let failedFile := lit "failed-isbns-" ++ timestamp ++ lit ".txt" in
    let content := join [ch_newline] failed in
    call_throwing (EvWriteFile failedFile content)
      (fs_writeFile failedFile content) ;;
    console_log (MsgFailedSaved (length failed) failedFile)
  else ret tt.

Definition fetchBookInfo (isbn : jstr) : M W (option BookInfo) :=
  try_catch
    (let url := openlibrary_url isbn in
     out <- call (EvGet url) (http_get url) ;;
     bookInfo <- lift (book_info isbn out) ;;
     ret (Some bookInfo))
    (fun error =>
       console_error (ErrFetching isbn error) ;;
       failedIsbns_push isbn ;;
       ret None).

Definition addBookToNotion (bookInfo : BookInfo) : M W unit :=
  try_catch
    (let req := {| new_icon := blue_book;
                   new_Title := title bookInfo;
                   new_Author := authors bookInfo;
                   new_ISBN := isbn bookInfo;
                   new_Total_Pages := numberOfPages bookInfo |} in
     call_throwing (EvCreate req) (pages_create req) ;;
     console_log (MsgAdded (title bookInfo)))
    (fun error => console_error (ErrAdding (title bookInfo) error)).

(** The body of [for (const isbn of isbns)] in [processISBNFile]. *)
Definition process_line (isbn : jstr) (books : list BookInfo)
    : M W (list BookInfo) :=
  let cleanISBN := clean isbn in
  console_log (MsgFetchingIsbn cleanISBN) ;;
  bookInfo <- fetchBookInfo cleanISBN ;;
  books' <- match bookInfo with
            | Some info =>
                console_log (MsgFound (title info)) ;;
                addBookToNotion info ;;
                ret (books ++ [info])
            | None =>
                console_log (MsgNoDataIsbn cleanISBN) ;;
                ret books
            end ;;
  sleep 1000 ;;
  ret books'.

Definition processISBNFile (filepath : jstr) : M W unit :=
  try_catch
    (fileContent <- call_throwing (EvReadFile filepath) (fs_readFile filepath) ;;
     let isbns := List.filter (fun isbn => truthy_str (Some (js_trim isbn)))
                    (split_on ch_newline fileContent) in
     console_log (MsgProcessingIsbns (length isbns)) ;;
     books <- for_of isbns process_line [] ;;
     (if bool_decide (0 < length books)%nat then
        console_log (MsgFileComplete (length books)) ;;
        console_log MsgResultsSaved
      else console_log MsgNoBooksFound) ;;
     saveFailedIsbns)
    (fun error =>
       console_error (ErrProcessingFile error) ;;
       saveFailedIsbns).

Definition processSingleISBN (isbn : jstr) : M W unit :=
  try_catch
    (let cleanISBN := clean isbn in
     console_log (MsgFetchingIsbn cleanISBN) ;;
     bookInfo <- fetchBookInfo cleanISBN ;;
     match bookInfo with
     | Some info =>
         console_log (MsgFound (title info)) ;;
         addBookToNotion info ;;
         console_log MsgSingleComplete
     | None =>
         console_log (MsgNoDataIsbn cleanISBN) ;;
         saveFailedIsbns
     end)
    (fun error =>
       console_error (ErrProcessingIsbn error) ;;
       saveFailedIsbns).

(** The body of [for (let i = 1; i < lines.length; i++)] in
    [processGoodreadsCSV]. *)
Definition read_row (isbnIndex isbn13Index titleIndex : option nat)
    (line : jstr) (booksToProcess : list book) : M W (list book) :=
  if negb (truthy_str (Some (js_trim line))) then ret booksToProcess
  else
    let values := parseCSVLine line in
    let isbn := identifier_cell isbnIndex values in
    let isbn13 := identifier_cell isbn13Index values in
    let title := title_cell titleIndex values in
    if truthy_str isbn13 || truthy_str isbn then
      ret (booksToProcess
           ++ [{| book_title := title; book_isbn := isbn;
                  book_isbn13 := isbn13 |}])
    else
      console_log (MsgSkipRow title) ;;
      ret booksToProcess.

(** The body of [for (const book of booksToProcess)]. *)
Definition process_book (book : book) (successfulBooks : list BookInfo)
    : M W (list BookInfo) :=
  console_log (MsgProcessingBook (book_title book)) ;;
  bookInfo <- (if truthy_str (book_isbn13 book) then
                 let cleanISBN13 := clean (default [] (book_isbn13 book)) in
                 console_log (MsgTryingIsbn13 cleanISBN13) ;;
                 fetchBookInfo cleanISBN13
               else ret None) ;;
  bookInfo <- (if is_none bookInfo && truthy_str (book_isbn book) then
                 let cleanISBN := clean (default [] (book_isbn book)) in
                 console_log (MsgTryingIsbn cleanISBN) ;;
                 fetchBookInfo cleanISBN
               else ret bookInfo) ;;
  successfulBooks' <-
    match bookInfo with
    | Some info =>
        console_log (MsgFound (title info)) ;;
        addBookToNotion info ;;
        ret (successfulBooks ++ [info])
    | None =>
        console_log (MsgNoDataBook (book_title book)) ;;
        (if truthy_str (book_isbn13 book) then
           failedIsbns_push (default [] (book_isbn13 book))
         else if truthy_str (book_isbn book) then
           failedIsbns_push (default [] (book_isbn book))
         else ret tt) ;;
        ret successfulBooks
    end ;;
  sleep 1000 ;;
  ret successfulBooks'.

Definition processGoodreadsCSV (filepath : jstr) : M W unit :=
  try_catch
    (fileContent <- call_throwing (EvReadFile filepath) (fs_readFile filepath) ;;
     let lines := split_on ch_newline fileContent in
     let headerLine := default [] (head lines) in
     let headers := parseCSVLine headerLine in
     let isbnIndex := indexOf headers (lit "ISBN") in
     let isbn13Index := indexOf headers (lit "ISBN13") in
     let titleIndex := indexOf headers (lit "Title") in
     if is_none isbnIndex && is_none isbn13Index then
       console_error ErrNoIsbnColumns                        (* return *)
     else
       console_log MsgProcessingGoodreads ;;
       booksToProcess <- for_of (tail lines)
                           (read_row isbnIndex isbn13Index titleIndex) [] ;;
       console_log (MsgFoundBooks (length booksToProcess)) ;;
       successfulBooks <- for_of booksToProcess process_book [] ;;
       console_log (MsgGoodreadsComplete (length successfulBooks)
                      (length booksToProcess)) ;;
       saveFailedIsbns)
    (fun error =>
       console_error (ErrProcessingGoodreads error) ;;
       saveFailedIsbns).

End script.

(** The three ways import.js is run, as the options [--file], [--isbn]
    and [--goodreads] select them, each with the function it runs and
    the message under which the [catch] of that function reports. *)
Inductive entry_point :=
  | FromFile (filepath : jstr)
  | SingleISBN (isbn : jstr)
  | FromGoodreads (filepath : jstr).

Definition run_entry {W} `{!NotionCreate W, !OpenLibrary W, !Node W}
    (entry : entry_point) : M W unit :=
  match entry with
  | FromFile filepath => processISBNFile filepath
  | SingleISBN isbn => processSingleISBN isbn
  | FromGoodreads filepath => processGoodreadsCSV filepath
  end.

Definition handler_message (entry : entry_point) : error -> message :=
  match entry with
  | FromFile _ => ErrProcessingFile
  | SingleISBN _ => ErrProcessingIsbn
  | FromGoodreads _ => ErrProcessingGoodreads
  end.

(** The body of the create request [addBookToNotion] sends for a book. *)
Definition create_request_for (bookInfo : BookInfo) : create_request :=
  {| new_icon := blue_book;
     new_Title := title bookInfo;
     new_Author := authors bookInfo;
     new_ISBN := isbn bookInfo;
     new_Total_Pages := numberOfPages bookInfo |}.

End ImportBooks.

(** ** A scripted world

    The answers of the outside world are fixed in advance, one queue per
    operation: each call takes the next answer of its queue, whatever
    the request.  Every run of a script against any outside world is a
    run against the scripted world holding the answers it was given. *)
Module Script.

Record world := {
  queries : list (completion response);
  updates : list (completion unit);
  creates : list (completion unit);
  gets : list http_outcome;
  reads : list (completion jstr);
  writes : list (completion unit);
  clock : list jstr;
}.

Definition exhausted {A} : completion A := Throw (ExternalError (lit "no answer")).

Definition next_query (w : world) : completion response * world :=
  (default exhausted (head (queries w)),
   {| queries := tail (queries w); updates := updates w; creates := creates w;
      gets := gets w; reads := reads w; writes := writes w; clock := clock w |}).

Definition next_update (w : world) : completion unit * world :=
  (default exhausted (head (updates w)),
   {| queries := queries w; updates := tail (updates w); creates := creates w;
      gets := gets w; reads := reads w; writes := writes w; clock := clock w |}).

Definition next_create (w : world) : completion unit * world :=
  (default exhausted (head (creates w)),
   {| queries := queries w; updates := updates w; creates := tail (creates w);
      gets := gets w; reads := reads w; writes := writes w; clock := clock w |}).

Definition next_get (w : world) : http_outcome * world :=
  (default (NetworkFailure (lit "no answer")) (head (gets w)),
   {| queries := queries w; updates := updates w; creates := creates w;
      gets := tail (gets w); reads := reads w; writes := writes w;
      clock := clock w |}).

Definition next_read (w : world) : completion jstr * world :=
  (default exhausted (head (reads w)),
   {| queries := queries w; updates := updates w; creates := creates w;
      gets := gets w; reads := tail (reads w); writes := writes w;
      clock := clock w |}).

Definition next_write (w : world) : completion unit * world :=
  (default exhausted (head (writes w)),
   {| queries := queries w; updates := updates w; creates := creates w;
      gets := gets w; reads := reads w; writes := tail (writes w);
      clock := clock w |}).

Definition next_clock (w : world) : jstr * world :=
  (default [] (head (clock w)),
   {| queries := queries w; updates := updates w; creates := creates w;
      gets := gets w; reads := reads w; writes := writes w;
      clock := tail (clock w) |}).

#[global] Instance notion : Notion world :=
  {| databases_query := fun _ => next_query;
     pages_update := fun _ => next_update |}.
#[global] Instance notion_create : NotionCreate world :=
  {| pages_create := fun _ => next_create |}.
#[global] Instance openlibrary : OpenLibrary world :=
  {| http_get := fun _ => next_get |}.
#[global] Instance node : Node world :=
  {| fs_readFile := fun _ => next_read;
     fs_writeFile := fun _ _ => next_write;
     Date_toISOString := next_clock |}.

(** A world that answers queries, updates and lookups as given and has
    nothing else to say. *)
Definition make (qs : list (completion response)) (us : list (completion unit))
    (gs : list http_outcome) : world :=
  {| queries := qs; updates := us; creates := []; gets := gs; reads := [];
     writes := []; clock := [] |}.

End Script.

(** ** A world with a database

    The database is held as the pages of records its query returns, the
    same pages on every run; an accepted update changes the record it
    names and is seen by later queries.  OpenLibrary answers by URL, and
    which update requests the Notion API refuses is fixed by the request:
    both are the same from one run to the next. *)
Module Store.

Record world := {
  db : list (list page);
  library : jstr -> http_outcome;
  refuses : update_request -> option error;
}.

(** The continuation token of the page of records number [i]. *)
Definition cursor_of (i : nat) : jstr := replicate i 99.
Definition index_of (cursor : option jstr) : nat :=
  match cursor with
  | None => O
  | Some token => length token
  end.

Definition query (cursor : option jstr) (w : world) : completion response * world :=
  let i := index_of cursor in
  let more := bool_decide (S i < length (db w))%nat in
  (Normal {| results := default [] (db w !! i);
             has_more := more;
             next_cursor := if more then Some (cursor_of (S i)) else None |},
   w).

(** The record after a patch the API accepts; the API validates the
    body: a page count must be a number and an emoji a string. *)
Definition patched (p : patch) (r : page) : option page :=
  match p with
  | PatchTotalPages (VNumber n) =>
      Some {| page_id := page_id r;
              page_props :=
                {| prop_Status := prop_Status (page_props r);
                   prop_Title := prop_Title (page_props r);
                   prop_ISBN := prop_ISBN (page_props r);
                   prop_Total_Pages := Some (Some n) |};
              page_icon_of := page_icon_of r |}
  | PatchIcon (VString emoji) =>
      Some {| page_id := page_id r;
              page_props := page_props r;
              page_icon_of := Some (IconEmoji emoji) |}
  | _ => None
  end.

Definition valid (p : patch) : bool :=
  match p with
  | PatchTotalPages (VNumber _) | PatchIcon (VString _) => true
  | _ => false
  end.

Definition accepted (w : world) (req : update_request) : bool :=
  bool_decide (refuses w req = None) && valid (upd_patch req).

Definition apply (req : update_request) (r : page) : page :=
  if jstr_eqb (page_id r) (upd_page_id req)
  then default r (patched (upd_patch req) r)
  else r.

Definition update (req : update_request) (w : world) : completion unit * world :=
  match refuses w req with
  | Some e => (Throw e, w)
  | None =>
      if valid (upd_patch req) then
        (Normal tt,
         {| db := map (map (apply req)) (db w);
            library := library w; refuses := refuses w |})
      else (Throw (ExternalError (lit "validation_error")), w)
  end.

#[global] Instance notion : Notion world :=
  {| databases_query := query; pages_update := update |}.
#[global] Instance openlibrary : OpenLibrary world :=
  {| http_get := fun url w => (library w url, w) |}.

End Store.

(** ** Reading a trace *)

Definition initial {W} (w : W) : state W :=
  {| world := w; trace := []; failedIsbns := [] |}.

(** The state [st] with another world and trace. *)
Definition mk_state {W} (w : W) (t : list event) (st : state W) : state W :=
  {| world := w; trace := t; failedIsbns := failedIsbns st |}.

(** The cursors of the queries issued, in order. *)
Definition queries_issued (t : list event) : list (option jstr) :=
  omap (fun e => match e with EvQuery c => Some c | _ => None end) t.

(** The update requests issued, in order. *)
Definition updates_issued (t : list event) : list update_request :=
  omap (fun e => match e with EvUpdate req => Some req | _ => None end) t.

(** The URLs looked up, in order. *)
Definition lookups_issued (t : list event) : list jstr :=
  omap (fun e => match e with EvGet url => Some url | _ => None end) t.

(** The create requests issued, in order. *)
Definition creates_issued (t : list event) : list create_request :=
  omap (fun e => match e with EvCreate req => Some req | _ => None end) t.

(** The failure files reported as saved, in order: [saveFailedIsbns]
    logs the name right after [fs.writeFile] has returned normally. *)
Definition files_saved (t : list event) : list jstr :=
  omap (fun e => match e with
                 | EvLog (MsgFailedSaved _ file) => Some file
                 | _ => None
                 end) t.

(** The number of records the batches announced so far held: the sum of
    the [results.length] each pass logs on receiving its page. *)
Definition records_received (t : list event) : nat :=
  sum_list
    (omap (fun e => match e with
                    | EvLog (MsgProcessingBatch n) => Some n
                    | _ => None
                    end) t).

(** Requests that go over the network. *)
Definition is_network (e : event) : bool :=
  match e with
  | EvQuery _ | EvUpdate _ | EvCreate _ | EvGet _ => true
  | _ => false
  end.

(** A record's share of the trace keeps the pace [ms] when, if it holds a
    lookup, an update or a create request, a suspension of [ms]
    milliseconds comes after the last of them. *)
Definition is_sleep (ms : nat) (e : event) : bool :=
  match e with
  | EvSleep n => bool_decide (n = ms)
  | _ => false
  end.

Fixpoint paced (ms : nat) (t : list event) : bool :=
  match t with
  | [] => true
  | e :: t' =>
      if is_network e
      then existsb (is_sleep ms) t' && paced ms t'
      else paced ms t'
  end.

(** Whether the scan is inside quotes after reading [line]. *)
Fixpoint quote_state (inQuotes : bool) (line : jstr) : bool :=
  match line with
  | [] => inQuotes
  | char :: rest =>
      quote_state (if char =? ch_quote then negb inQuotes else inQuotes) rest
  end.

(** ** Predicates on computations *)

(** A computation never throws: whatever the state, it completes
    normally. *)
Definition never_throws {W A} (m : M W A) : Prop :=
  forall st, exists a, (m st).1 = Normal a.

(** A computation respects a relation between the state before and the
    state after, however it completes. *)
Definition respects {W A} (R : relation (state W)) (m : M W A) : Prop :=
  forall st, R st (m st).2.


(** No failure file was reported as saved between the two states. *)
Definition unsaved {W} (st st' : state W) : Prop :=
  files_saved (trace st') = files_saved (trace st).

(** A computation respects a relation whenever it throws. *)
Definition respects_on_throw {W A} (R : relation (state W)) (m : M W A) : Prop :=
  forall st, match (m st).1 with
             | Throw _ => R st (m st).2
             | Normal _ => True
             end.

(** ** Sample records and worlds *)
Module Examples.

Definition props (status : option string) (title : string)
    (isbn : option string) (pages : option Z) : page_properties :=
  {| prop_Status := Some (lit <$> status);
     prop_Title := Some (Some [{| plain_text := lit title |}]);
     prop_ISBN := Some (Some (match isbn with
                              | Some i => [{| plain_text := lit i |}]
                              | None => []
                              end));
     prop_Total_Pages := Some pages |}.

(** A record nobody has given a status yet. *)
Definition no_status : page :=
  {| page_id := lit "p0"; page_props := props None "Dune" None None;
     page_icon_of := None |}.

(** A record being read that still carries the import icon. *)
Definition reading : page :=
  {| page_id := lit "p1";
     page_props := props (Some "Currently Reading"%string) "Emma" None None;
     page_icon_of := Some (IconEmoji blue_book) |}.

(** A record whose status option is named [constructor] and whose icon is
    the fallback glyph. *)
Definition odd_status : page :=
  {| page_id := lit "p2";
     page_props := props (Some "constructor"%string) "Ulysses" None None;
     page_icon_of := Some (IconEmoji books) |}.

(** Records with an ISBN: without a page count, and with one. *)
Definition unfilled : page :=
  {| page_id := lit "p3";
     page_props := props (Some "To Read"%string) "Walden" (Some "111"%string) None;
     page_icon_of := Some (IconEmoji blue_book) |}.

Definition unfilled2 : page :=
  {| page_id := lit "p4";
     page_props := props (Some "To Read"%string) "Utopia" (Some "222"%string) None;
     page_icon_of := Some (IconEmoji blue_book) |}.

Definition filled : page :=
  {| page_id := lit "p5";
     page_props := props (Some "Completed"%string) "Ivanhoe" (Some "333"%string) (Some 401%Z);
     page_icon_of := Some (IconEmoji green_book) |}.

(** A record whose stored page count is the number zero. *)
Definition zero_pages : page :=
  {| page_id := lit "p6";
     page_props := props (Some "Completed"%string) "Ivanhoe" (Some "333"%string) (Some 0%Z);
     page_icon_of := Some (IconEmoji green_book) |}.


Definition one_page (records : list page) : response :=
  {| results := records; has_more := false; next_cursor := None |}.

Definition more_pages (records : list page) (cursor : string) : response :=
  {| results := records; has_more := true; next_cursor := Some (lit cursor) |}.

(** OpenLibrary's answer holding an entry for [isbn] with the given
    members, and its answer holding no entry. *)
Definition entry (isbn : string) (members : list (jstr * value)) : http_outcome :=
  JsonBody (VObject [(lit "ISBN:" ++ lit isbn, VObject members)]).

Definition no_entry : http_outcome := JsonBody (VObject []).

Definition refused : completion unit := Throw (ExternalError (lit "conflict")).

Definition exhausted_query : completion response :=
  Throw (ExternalError (lit "rate_limited")).

(** A database of one page of two records without page count; the first
    lookup finds no entry, the second finds 250 pages. *)
Definition two_unfilled : Script.world :=
  Script.make [Normal (one_page [unfilled; unfilled2])] [Normal tt]
    [no_entry; entry "222" [(lit "number_of_pages", VNumber 250)]].

(** A database of one record whose icon is out of date, on which the
    update request is refused. *)
Definition one_refused : Script.world :=
  Script.make [Normal (one_page [reading])] [refused] [].

(** A database of two pages; OpenLibrary knows the page count of the
    book with ISBN 111 only, and the database refuses no update. *)
Definition shelf : Store.world :=
  {| Store.db := [[unfilled; filled]; [unfilled2; no_status]];
     Store.library := fun url =>
       if jstr_eqb url (openlibrary_url (lit "111"))
       then entry "111" [(lit "number_of_pages", VNumber 250)]
       else no_entry;
     Store.refuses := fun _ => None |}.

(** The import script after two lookups have failed, in a world whose
    clock and file system answer once. *)
Definition two_failed : state Script.world :=
  {| world := {| Script.queries := []; Script.updates := [];
                 Script.creates := []; Script.gets := [];
                 Script.reads := []; Script.writes := [Normal tt];
                 Script.clock := [lit "2024-05-06T07:08:09.123Z"] |};
     trace := [];
     failedIsbns := [lit "9780441172719"; lit "0441172717"] |}.


(** The import script about to read a spreadsheet export of three rows:
    a book with both identifiers, a row without any, and a book with an
    ISBN only.  OpenLibrary knows the ISBN of the first book, not its
    ISBN13, and nothing of the other. *)
Definition export : state Script.world :=
  {| world := {| Script.queries := []; Script.updates := [];
                 Script.creates := [Normal tt];
                 Script.gets := [no_entry;
                                 entry "0441172717"
                                   [(lit "title", VString (lit "Dune"))]];
                 Script.reads :=
                   [Normal (lit "Title,ISBN,ISBN13" ++ [ch_newline]
                            ++ lit "Dune,0441172717,9780441172719"
                            ++ [ch_newline]
                            ++ lit "Emma,," ++ [ch_newline]
                            ++ lit "Ulysses,0199535675,")];
                 Script.writes := [Normal tt];
                 Script.clock := [lit "2024-05-06T07:08:09.123Z"] |};
     trace := [];
     failedIsbns := [] |}.

(** The same, about to read a file whose header names no ISBN column,
    with one failure already on the list. *)
Definition no_columns : state Script.world :=
  {| world := {| Script.queries := []; Script.updates := [];
                 Script.creates := []; Script.gets := [];
                 Script.reads :=
                   [Normal (lit "Title,Author" ++ [ch_newline]
                            ++ lit "Dune,Frank Herbert")];
                 Script.writes := [Normal tt];
                 Script.clock := [lit "2024-05-06T07:08:09.123Z"] |};
     trace := [];
     failedIsbns := [lit "0441172717"] |}.

(** The import script about to read a file of two ISBNs with a blank
    line between them; OpenLibrary knows the first only, Notion refuses
    the book and the failure file cannot be written. *)
Definition isbn_list : state Script.world :=
  {| world := {| Script.queries := []; Script.updates := [];
                 Script.creates := [refused];
                 Script.gets := [entry "0441172717"
                                   [(lit "title", VString (lit "Dune"))]];
                 Script.reads := [Normal (lit "0-441-17271-7" ++ [ch_newline]
                                          ++ lit "  " ++ [ch_newline]
                                          ++ lit " 9780441172719")];
                 Script.writes := [];
                 Script.clock := [lit "2024-05-06T07:08:09.123Z"] |};
     trace := [];
     failedIsbns := [] |}.

End Examples.

(** ** Relations between the state before and after a computation *)

(** In the scripted world: no query was issued and no answer to a query
    was taken. *)
Definition no_query (st st' : state Script.world) : Prop :=
  Script.queries (world st') = Script.queries (world st)
  /\ queries_issued (trace st') = queries_issued (trace st).


(** ** Vocabulary for the rows of a spreadsheet export *)

(** An identifier as [processGoodreadsCSV] keeps it: not empty, without
    equals sign or double quote, and without white space at either
    end. *)
Definition normalised (s : jstr) : Prop :=
  s <> [] /\ (ch_equals ∉ s) /\ (ch_quote ∉ s) /\ js_trim s = s.

(** A book to process has an identifier, and its identifiers are
    normalised. *)
Definition has_identifier (b : ImportBooks.book) : Prop :=
  ImportBooks.candidates b <> []
  /\ (forall s, ImportBooks.book_isbn b = Some s -> normalised s)
  /\ (forall s, ImportBooks.book_isbn13 b = Some s -> normalised s).

(** ** Vocabulary for runs against the database world *)
Module Backfill.
Import UpdateTotalPages.

(** A record the backfill, run without the force flag, leaves alone: it
    has no ISBN, or it has a page count, or no page count can be
    obtained for it, or the database refuses the update. *)
Definition settled (w : Store.world) (r : page) : Prop :=
  truthy_str (page_isbn r) = false
  \/ truthy_num (page_total_pages r) = true
  \/ forall numberOfPages,
       page_count_found (default [] (page_isbn r))
         (Store.library w (lookup_url r)) = Some numberOfPages ->
       Store.accepted w (pages_request r numberOfPages) = false.

(** [d] is the record [s], possibly with its page count filled since. *)
Definition filled_from (s d : page) : Prop :=
  d = s
  \/ exists n, n <> 0%Z
       /\ Store.patched (PatchTotalPages (VNumber n)) s = Some d.

(** The cursor with which the loop asks for the page of records number
    [i]: none for the first, the token the previous page returned for the
    others. *)
Definition cursor_at (i : nat) : option jstr :=
  match i with
  | O => None
  | S _ => Some (Store.cursor_of i)
  end.

(** The five totals of the summary, added up. *)
Definition counted (c : counters) : nat :=
  totalUpdated c + totalForceUpdated c + totalSkipped c
  + totalMissingISBN c + totalFailedFetch c.

(** The world [w] holding the records [rows]. *)
Definition with_db (w : Store.world) (rows : list (list page)) : Store.world :=
  {| Store.db := rows; Store.library := Store.library w;
     Store.refuses := Store.refuses w |}.

(** The page identifiers of the update requests of a trace that the
    database accepted. *)
Definition updated_ids (w : Store.world) (t : list event) : list jstr :=
  upd_page_id <$> List.filter (Store.accepted w) (updates_issued t).

(** The sum of the three counters a run without the force flag moves
    for a record it does not update. *)
Definition left_alone (c : counters) : nat :=
  totalSkipped c + totalMissingISBN c + totalFailedFetch c.

(** What the first run keeps true from page to page: the answers of the
    world are those of [w0] and the database has its pages and records;
    the pages already read hold settled records only; every record
    whose identifier an accepted request named has a page count; and the
    title of every record can be read. *)
Definition first_run (w0 : Store.world) (i : nat) (c : counters)
    (st : state Store.world) : Prop :=
  (exists rows, world st = with_db w0 rows
                /\ length rows = length (Store.db w0)
                /\ length (concat rows) = length (concat (Store.db w0)))
  /\ Forall (Forall (settled w0)) (take i (Store.db (world st)))
  /\ (forall d, d ∈ concat (Store.db (world st)) ->
                page_id d ∈ updated_ids w0 (trace st) ->
                truthy_num (page_total_pages d) = true)
  /\ Forall (Forall readable) (Store.db (world st)).

(** What the second run keeps true from page to page: the world is
    [w1] still, nothing is counted as updated, every record of the pages
    read is counted as left alone, and every update request issued was
    one the database refuses, for a record without page count. *)
Definition second_run (w1 : Store.world) (i : nat) (c : counters)
    (st : state Store.world) : Prop :=
  world st = w1
  /\ totalUpdated c = O
  /\ totalForceUpdated c = O
  /\ left_alone c = length (concat (take i (Store.db w1)))
  /\ Forall (fun req => Store.accepted w1 req = false
                        /\ exists s, s ∈ concat (Store.db w1)
                             /\ upd_page_id req = page_id s
                             /\ truthy_num (page_total_pages s) = false)
       (updates_issued (trace st)).

End Backfill.
(** * Properties *)

(** ** The CSV row parser *)

Lemma parseCSVLine_loop_spec line : forall result current inQuotes,
  parseCSVLine_loop line result current inQuotes
  = result ++ (current ++ (fields_spec inQuotes line).1)
              :: (fields_spec inQuotes line).2.
Proof.
  induction line as [|char rest IH]; intros result current inQuotes; simpl.
  - by rewrite app_nil_r.
  - destruct (char =? ch_quote); [apply IH|].
    destruct ((char =? ch_comma) && negb inQuotes).
    + rewrite IH. simpl. rewrite app_nil_r, <- app_assoc. simpl.
      by destruct (fields_spec inQuotes rest).
    + rewrite IH, <- app_assoc. simpl.
      by destruct (fields_spec inQuotes rest).
Qed.

Lemma fields_spec_length inQuotes line :
  length (fields_spec inQuotes line).2 = unquoted_commas inQuotes line.
Proof.
  revert inQuotes. induction line as [|char rest IH]; intros inQuotes; simpl; [done|].
  destruct (char =? ch_quote); [apply IH|].
  destruct ((char =? ch_comma) && negb inQuotes); simpl.
  - specialize (IH inQuotes). destruct (fields_spec inQuotes rest). simpl in *. lia.
  - specialize (IH inQuotes). by destruct (fields_spec inQuotes rest).
Qed.

Lemma parseCSVLine_loop_app l1 l2 : forall result current inQuotes,
  parseCSVLine_loop (l1 ++ l2) result current inQuotes
  = parseCSVLine_loop l2
      (result ++ removelast
         ((current ++ (fields_spec inQuotes l1).1) :: (fields_spec inQuotes l1).2))
      (List.last ((current ++ (fields_spec inQuotes l1).1)
                  :: (fields_spec inQuotes l1).2) [])
      (quote_state inQuotes l1).
Proof.
  induction l1 as [|char rest IH]; intros result current inQuotes.
  - simpl. by rewrite !app_nil_r.
  - cbn [app parseCSVLine_loop fields_spec quote_state].
    destruct (char =? ch_quote); [apply IH|].
    destruct ((char =? ch_comma) && negb inQuotes).
    + rewrite IH. destruct (fields_spec inQuotes rest) as [f fs].
      cbn [fst snd]. rewrite app_nil_r.
      cbn [removelast List.last app]. by rewrite <- app_assoc.
    + rewrite IH. destruct (fields_spec inQuotes rest) as [f fs].
      cbn [fst snd]. by rewrite <- !app_assoc.
Qed.

Lemma parseCSVLine_loop_plain t : forall result current,
  Forall (fun c => c <> ch_quote /\ c <> ch_comma) t ->
  parseCSVLine_loop t result current false = result ++ [current ++ t].
Proof.
  induction t as [|c t IH]; intros result current Ht; simpl.
  - by rewrite app_nil_r.
  - inversion Ht as [|? ? [Hq Hc] Ht']; subst.
    apply N.eqb_neq in Hq, Hc. rewrite Hq, Hc. simpl.
    rewrite IH by done. by rewrite <- app_assoc.
Qed.

(** C9. [parseCSVLine] splits on the commas that lie outside quotes, a
    quote toggling the inside-quotes flag and being dropped, and always
    emits the field it is reading when the line ends: on [a,"b,c",d] it
    gives [a], [b,c], [d]; on [x,y,] it gives [x], [y] and the empty
    field; on every line it agrees with the parser as the specification
    words it and yields one field more than there are commas outside
    quotes; and the text after the last such comma is the last field. *)
Theorem parseCSVLine_splits_outside_quotes :
  parseCSVLine (lit "a," ++ [ch_quote] ++ lit "b,c" ++ [ch_quote] ++ lit ",d")
    = [lit "a"; lit "b,c"; lit "d"]
  /\ parseCSVLine (lit "x,y,") = [lit "x"; lit "y"; lit ""]
  /\ (forall line, parseCSVLine line = parseLine_spec line)
  /\ (forall line,
        length (parseCSVLine line) = S (unquoted_commas false line))
  /\ (forall line last,
        quote_state false line = false ->
        Forall (fun c => c <> ch_quote /\ c <> ch_comma) last ->
        parseCSVLine (line ++ ch_comma :: last) = parseCSVLine line ++ [last]).
Proof.
  split; [reflexivity|]. split; [reflexivity|].
  split; [|split].
  - intros line. unfold parseCSVLine, parseLine_spec.
    rewrite parseCSVLine_loop_spec. by destruct (fields_spec false line).
  - intros line. unfold parseCSVLine. rewrite parseCSVLine_loop_spec.
    simpl. by rewrite fields_spec_length.
  - intros line last Hq Hlast. unfold parseCSVLine.
    rewrite parseCSVLine_loop_app, Hq.
    change (parseCSVLine_loop (ch_comma :: last) ?r ?c false)
      with (parseCSVLine_loop last (r ++ [c]) [] false).
    rewrite parseCSVLine_loop_plain by done.
    rewrite parseCSVLine_loop_spec. cbn [app].
    by rewrite <- app_removelast_last.
Qed.

Lemma parseCSVLine_splits_outside_quotes_witness :
  quote_state false (lit "x,y") = false
  /\ parseCSVLine (lit "x,y" ++ ch_comma :: lit "z") = parseCSVLine (lit "x,y") ++ [lit "z"].
Proof.
  split; [reflexivity|].
  apply (proj2 (proj2 (proj2 (proj2 parseCSVLine_splits_outside_quotes)))).
  - reflexivity.
  - repeat constructor; discriminate.
Defined.

(** ** Reasoning about computations *)
Section combinators.
Context {W : Type}.

Lemma never_throws_ret {A} (a : A) : never_throws (W:=W) (ret a).
Proof. intros st. by exists a. Qed.

Lemma never_throws_emit e : never_throws (W:=W) (emit e).
Proof. intros st. by exists tt. Qed.

Lemma never_throws_call {A} e (op : W -> A * W) : never_throws (call e op).
Proof. intros st. unfold call. destruct (op (world st)). by eexists. Qed.

Lemma never_throws_bind {A B} (c : M W A) (k : A -> M W B) :
  never_throws c -> (forall a, never_throws (k a)) -> never_throws (bind c k).
Proof.
  intros Hc Hk st. unfold bind. destruct (Hc st) as [a Ha].
  destruct (c st) as [[a'|e] st']; simpl in Ha; [|done].
  apply Hk.
Qed.

Lemma never_throws_try_catch {A} (c : M W A) (h : error -> M W A) :
  (forall e, never_throws (h e)) -> never_throws (try_catch c h).
Proof.
  intros Hh st. unfold try_catch.
  destruct (c st) as [[a|e] st']; [by exists a|apply Hh].
Qed.

Lemma never_throws_for_of {A C} (items : list A) (body : A -> C -> M W C) :
  (forall x c, never_throws (body x c)) ->
  forall c, never_throws (for_of items body c).
Proof.
  intros Hbody. induction items as [|x rest IH]; intros c; simpl.
  - apply never_throws_ret.
  - apply never_throws_bind; [apply Hbody|apply IH].
Qed.

Lemma never_throws_for_of_Forall {A C} (P : A -> Prop) (items : list A)
    (body : A -> C -> M W C) :
  (forall x c, P x -> never_throws (body x c)) ->
  Forall P items ->
  forall c, never_throws (for_of items body c).
Proof.
  intros Hbody. induction 1 as [|x rest Hx _ IH]; intros c; simpl.
  - apply never_throws_ret.
  - apply never_throws_bind; [by apply Hbody|apply IH].
Qed.

Context (R : relation (state W)) `{!PreOrder R}.

Lemma respects_ret {A} (a : A) : respects R (ret a).
Proof. intros st. simpl. reflexivity. Qed.

Lemma respects_lift {A} (r : completion A) : respects R (lift r).
Proof. intros st. simpl. reflexivity. Qed.

Lemma respects_throw {A} e : respects R (throw (A:=A) e).
Proof. intros st. simpl. reflexivity. Qed.

Lemma respects_bind {A B} (c : M W A) (k : A -> M W B) :
  respects R c -> (forall a, respects R (k a)) -> respects R (bind c k).
Proof.
  intros Hc Hk st. unfold bind. specialize (Hc st).
  destruct (c st) as [[a|e] st']; simpl in *; [|done].
  etransitivity; [exact Hc|apply Hk].
Qed.

Lemma respects_try_catch {A} (c : M W A) (h : error -> M W A) :
  respects R c -> (forall e, respects R (h e)) -> respects R (try_catch c h).
Proof.
  intros Hc Hh st. unfold try_catch. specialize (Hc st).
  destruct (c st) as [[a|e] st']; simpl in *; [done|].
  etransitivity; [exact Hc|apply Hh].
Qed.

Lemma respects_for_of {A C} (items : list A) (body : A -> C -> M W C) :
  (forall x c, respects R (body x c)) ->
  forall c, respects R (for_of items body c).
Proof.
  intros Hbody. induction items as [|x rest IH]; intros c; simpl.
  - apply respects_ret.
  - apply respects_bind; [apply Hbody|apply IH].
Qed.

End combinators.

(** Unfolds the monad in a goal about one concrete path of a script. *)
Ltac run_script :=
  unfold call_throwing, console_log, console_error, sleep, failedIsbns_push,
    get_failedIsbns, lift, throw, try_catch, bind, ret, call, emit;
  cbn [fst snd world trace failedIsbns].

(** ** update-icons.js: one record *)
Module UpdateIconsFacts.
Import UpdateIcons.

Section facts.
Context {W : Type} `{!Notion W}.


(** A record whose title cannot be read throws before anything else
    happens. *)
Lemma icon_record_unreadable page c (st : state W) e :
  page_title page = Throw e ->
  process_record page c st = (Throw e, st).
Proof. intros H. unfold process_record, bind, lift. by rewrite H. Qed.

Lemma process_record_no_status page title c (st : state W) :
  page_title page = Normal title ->
  truthy_str (status_name page) = false ->
  process_record page c st
  = (Normal c,
     {| world := world st;
        trace := trace st ++ [EvLog (MsgSkipNoStatus title)];
        failedIsbns := failedIsbns st |}).
Proof.
  intros Ht H. unfold process_record, bind at 1, lift. by rewrite Ht, H.
Qed.

Lemma process_record_skip page title c (st : state W) :
  page_title page = Normal title ->
  truthy_str (status_name page) = true ->
  strict_equals (currentEmoji page)
    (expectedEmoji (default [] (status_name page))) = true ->
  process_record page c st
  = (Normal {| totalUpdated := totalUpdated c;
               totalSkipped := S (totalSkipped c) |},
     {| world := world st;
        trace := trace st
          ++ [EvLog (MsgSkipEmojiMatches title
                       (expectedEmoji (default [] (status_name page))))];
        failedIsbns := failedIsbns st |}).
Proof.
  intros Ht H1 H2. unfold process_record, bind at 1, lift.
  by rewrite Ht, H1, H2.
Qed.

Lemma process_record_update page title c (st : state W) :
  page_title page = Normal title ->
  truthy_str (status_name page) = true ->
  strict_equals (currentEmoji page)
    (expectedEmoji (default [] (status_name page))) = false ->
  process_record page c st
  = let req := icon_request page in
    match pages_update req (world st) with
    | (Normal _, w) =>
        (Normal {| totalUpdated := S (totalUpdated c);
                   totalSkipped := totalSkipped c |},
         {| world := w;
            trace := trace st
              ++ [EvUpdate req;
                  EvLog (MsgIconUpdated title
                           (expectedEmoji (default [] (status_name page)))
                           (default [] (status_name page)));
                  EvSleep 250];
            failedIsbns := failedIsbns st |})
    | (Throw e, w) =>
        (Normal c,
         {| world := w;
            trace := trace st
              ++ [EvUpdate req;
                  EvError (ErrUpdatingIcon title e);
                  EvSleep 250];
            failedIsbns := failedIsbns st |})
    end.
Proof.
  intros Ht H1 H2. unfold process_record, bind at 1, lift.
  rewrite Ht, H1, H2. cbn [negb].
  run_script. unfold icon_request.
  destruct (pages_update _ (world st)) as [[[]|e] w]; cbn;
    by rewrite <- !app_assoc.
Qed.

Lemma icon_record_never_throws page c :
  readable page -> never_throws (W:=W) (process_record page c).
Proof.
  intros [title Ht]. unfold process_record. rewrite Ht.
  apply never_throws_bind; [intros st; by exists title|intros].
  repeat first
    [ apply never_throws_ret | apply never_throws_emit
    | apply never_throws_try_catch; intros
    | apply never_throws_bind; intros
    | match goal with |- never_throws (if ?b then _ else _) => destruct b end ].
Qed.

End facts.
End UpdateIconsFacts.

(** ** update-total-pages.js: one record *)
Module UpdateTotalPagesFacts.
Import UpdateTotalPages.

Section facts.
Context {W : Type} `{!Notion W, !OpenLibrary W}.

Lemma backfill_record_unreadable force page c (st : state W) e :
  page_title page = Throw e ->
  process_record force page c st = (Throw e, st).
Proof. intros H. unfold process_record, bind, lift. by rewrite H. Qed.

Lemma process_record_no_isbn force page title c (st : state W) :
  page_title page = Normal title ->
  truthy_str (page_isbn page) = false ->
  process_record force page c st
  = (Normal (incr_missingISBN c),
     mk_state (world st)
       (trace st ++ [EvLog (MsgSkipNoISBN title)]) st).
Proof.
  intros Ht H. unfold process_record, bind at 1, lift. by rewrite Ht, H.
Qed.

Lemma process_record_has_pages page title c (st : state W) :
  page_title page = Normal title ->
  truthy_str (page_isbn page) = true ->
  truthy_num (page_total_pages page) = true ->
  process_record false page c st
  = (Normal (incr_skipped c),
     mk_state (world st)
       (trace st ++ [EvLog (MsgSkipHasPages title
                              (default 0%Z (page_total_pages page)))]) st).
Proof.
  intros Ht H1 H2. unfold process_record, bind at 1, lift.
  by rewrite Ht, H1, H2.
Qed.

(** Every path of [process_record] past the two early [continue]s. *)
Lemma process_record_lookup force page title c (st : state W) :
  page_title page = Normal title ->
  truthy_str (page_isbn page) = true ->
  truthy_num (page_total_pages page) && negb force = false ->
  process_record force page c st
  = let isbn := default [] (page_isbn page) in
    let pages := default 0%Z (page_total_pages page) in
    let forced := truthy_num (page_total_pages page) && force in
    let pre := trace st
               ++ (if forced then [EvLog (MsgForceUpdating title pages)] else [])
               ++ [EvLog (MsgFetchingData title isbn); EvGet (lookup_url page)] in
    let failed w evs := (Normal (incr_failedFetch c), mk_state w (pre ++ evs) st) in
    match http_get (lookup_url page) (world st) with
    | (out, w1) =>
        match book_data isbn out with
        | Throw e => failed w1 [EvError (ErrProcessing title e); EvSleep 500]
        | Normal bookData =>
            if truthy bookData then
              match js_get bookData (lit "number_of_pages") with
              | Throw e => failed w1 [EvError (ErrProcessing title e); EvSleep 500]
              | Normal numberOfPages =>
                  if truthy numberOfPages then
                    let req := pages_request page numberOfPages in
                    match pages_update req w1 with
                    | (Normal _, w2) =>
                        if forced then
                          (Normal (incr_forceUpdated c),
                           mk_state w2
                             (pre ++ [EvUpdate req;
                                      EvLog (MsgForceUpdated title pages numberOfPages);
                                      EvSleep 500]) st)
                        else
                          (Normal (incr_updated c),
                           mk_state w2
                             (pre ++ [EvUpdate req;
                                      EvLog (MsgUpdated title numberOfPages);
                                      EvSleep 500]) st)
                    | (Throw e, w2) =>
                        failed w2 [EvUpdate req;
                                   EvError (ErrProcessing title e); EvSleep 500]
                    end
                  else failed w1 [EvLog (MsgNoPageCount title isbn)]
              end
            else failed w1 [EvLog (MsgNoOpenLibraryData title isbn)]
        end
    end.
Proof.
  intros Ht H1 H2. unfold process_record, bind at 1, lift.
  unfold fetchBookDataFromOpenLibrary.
  rewrite Ht, H1, H2. cbn [negb]. unfold lookup_url, pages_request, mk_state.
  cbv zeta.
  destruct (truthy_num (page_total_pages page) && force); run_script;
    destruct (http_get _ (world st)) as [out w1]; cbn;
    (destruct (book_data _ out) as [bookData|e]; cbn;
     [destruct (truthy bookData); cbn;
      [destruct (js_get bookData _) as [numberOfPages|e]; cbn;
       [destruct (truthy numberOfPages); cbn;
        [destruct (pages_update _ w1) as [[[]|e] w2]; cbn|]|]|]|]);
    rewrite <- ?app_assoc; reflexivity.
Qed.

Lemma backfill_record_never_throws force page c :
  readable page -> never_throws (W:=W) (process_record force page c).
Proof.
  intros [title Ht]. unfold process_record. rewrite Ht.
  apply never_throws_bind; [intros st; by exists title|intros].
  repeat first
    [ apply never_throws_ret | apply never_throws_emit
    | apply never_throws_try_catch; intros
    | apply never_throws_bind; intros
    | match goal with
      | |- never_throws (if ?b then _ else _) => destruct b
      | |- never_throws (match ?r with Continue _ => _ | Completed _ => _ end) =>
          destruct r
      end ].
Qed.

End facts.
End UpdateTotalPagesFacts.

(** ** Reading traces *)

Lemma queries_issued_app t1 t2 :
  queries_issued (t1 ++ t2) = queries_issued t1 ++ queries_issued t2.
Proof. apply omap_app. Qed.

Lemma updates_issued_app t1 t2 :
  updates_issued (t1 ++ t2) = updates_issued t1 ++ updates_issued t2.
Proof. apply omap_app. Qed.

Lemma lookups_issued_app t1 t2 :
  lookups_issued (t1 ++ t2) = lookups_issued t1 ++ lookups_issued t2.
Proof. apply omap_app. Qed.

(** ** Force mode *)

Lemma object_get_own props key v :
  own_property props key = Some v -> object_get props key = v.
Proof. intros H. unfold object_get. by rewrite H. Qed.

(** C7, as claimed, fails at a record whose stored page count is the
    number zero: the script tests the page count for truthiness, so under
    the force flag this record is looked up and overwritten like any
    other, but it is counted as updated, and the force-updated counter
    stays where it was. *)
Lemma force_counts_a_zero_page_count_as_updated :
  let st := initial (Script.make [] [Normal tt]
                       [Examples.entry "333"
                          [(lit "number_of_pages", VNumber 420)]]) in
  let res := UpdateTotalPages.process_record true Examples.zero_pages
               UpdateTotalPages.zero st in
  UpdateTotalPages.page_isbn Examples.zero_pages = Some (lit "333")
  /\ UpdateTotalPages.page_total_pages Examples.zero_pages = Some 0%Z
  /\ updates_issued (trace res.2)
     = [{| upd_page_id := lit "p6";
           upd_patch := PatchTotalPages (VNumber 420) |}]
  /\ res.1 = Normal (UpdateTotalPages.incr_updated UpdateTotalPages.zero)
  /\ ~ (exists c', res.1 = Normal c'
                   /\ UpdateTotalPages.totalForceUpdated c'
                      = S (UpdateTotalPages.totalForceUpdated
                             UpdateTotalPages.zero)).
Proof.
  cbv zeta. split_and!; try reflexivity.
  intros (c' & Hres & Hc). vm_compute in Hres. injection Hres as <-.
  discriminate Hc.
Qed.

(** C7, amended.  Under the force flag, a record whose title can be
    read and that has a non-empty ISBN and a stored page count other than
    zero is always looked up again, exactly once, and never counted as
    skipped, whatever the world answers.  When the answer is a JSON
    object holding, under the key of the ISBN, an entry whose
    [number_of_pages] is truthy, one update request is issued: it names
    the record and overwrites Total Pages with that number.  When the
    database accepts the request, the record is counted as force updated
    and under no other heading. *)
Theorem force_refetches_and_overwrites {W} `{!Notion W, !OpenLibrary W}
    (page : page) (isbn : jstr) (pages : Z)
    (c : UpdateTotalPages.counters) (st : state W) :
  readable page ->
  UpdateTotalPages.page_isbn page = Some isbn ->
  isbn <> [] ->
  UpdateTotalPages.page_total_pages page = Some pages ->
  pages <> 0%Z ->
  let url := openlibrary_url isbn in
  let res := UpdateTotalPages.process_record true page c st in
  exists c',
    res.1 = Normal c'
    /\ lookups_issued (trace res.2) = lookups_issued (trace st) ++ [url]
    /\ UpdateTotalPages.totalSkipped c' = UpdateTotalPages.totalSkipped c
    /\ forall data entry numberOfPages w1,
         http_get url (world st) = (JsonBody (VObject data), w1) ->
         own_property data (lit "ISBN:" ++ isbn) = Some (VObject entry) ->
         own_property entry (lit "number_of_pages") = Some numberOfPages ->
         truthy numberOfPages = true ->
         let req := {| upd_page_id := page_id page;
                       upd_patch := PatchTotalPages numberOfPages |} in
         updates_issued (trace res.2) = updates_issued (trace st) ++ [req]
         /\ forall w2,
              pages_update req w1 = (Normal tt, w2) ->
              world res.2 = w2
              /\ c' = UpdateTotalPages.incr_forceUpdated c.
Proof.
  intros [title Htitle] Hisbn Hne Hpages Hnz url res. subst res.
  assert (truthy_str (UpdateTotalPages.page_isbn page) = true) as Hi.
  { rewrite Hisbn. by destruct isbn. }
  assert (UpdateTotalPages.truthy_num (UpdateTotalPages.page_total_pages page)
          = true) as Hp.
  { rewrite Hpages. cbn. by apply negb_true_iff, Z.eqb_neq. }
  rewrite (UpdateTotalPagesFacts.process_record_lookup true page title)
    by (by rewrite ?Hp).
  rewrite Hp. cbv zeta. cbn [andb]. unfold UpdateTotalPages.lookup_url.
  rewrite Hisbn. cbn [from_option id]. fold url.
  destruct (http_get url (world st)) as [out w1].
  destruct (UpdateTotalPages.book_data isbn out) as [bookData|e] eqn:Hdata;
    [destruct (truthy bookData) eqn:Hb;
     [destruct (js_get bookData _) as [n|e] eqn:Hget;
      [destruct (truthy n) eqn:Hn;
       [destruct (pages_update _ w1) as [[[]|e] w2] eqn:Hupd|]|]|]|];
    eexists; (split; [reflexivity|]); cbn [fst snd trace world mk_state];
    rewrite ?lookups_issued_app, ?updates_issued_app; cbn;
    rewrite ?app_nil_r; (split; [reflexivity|]); (split; [reflexivity|]);
    intros data entry numberOfPages w1' [= -> ->] Hentry Hcount Htruthy;
    cbn in Hdata; rewrite (object_get_own _ _ _ Hentry) in Hdata;
    cbn in Hdata; simplify_eq; cbn in *;
    rewrite ?(object_get_own _ _ _ Hcount) in *; simplify_eq.
  all: unfold UpdateTotalPages.pages_request in *.
  all: try congruence.
  all: split; [done|]; intros w2' Hacc; rewrite Hupd in Hacc; by simplify_eq.
Qed.

Lemma force_refetches_and_overwrites_witness :
  let st := initial (Script.make [] [Normal tt]
                       [Examples.entry "333"
                          [(lit "number_of_pages", VNumber 420)]]) in
  let res := UpdateTotalPages.process_record true Examples.filled
               UpdateTotalPages.zero st in
  exists c',
    res.1 = Normal c'
    /\ lookups_issued (trace res.2) = [openlibrary_url (lit "333")]
    /\ updates_issued (trace res.2)
       = [{| upd_page_id := lit "p5";
             upd_patch := PatchTotalPages (VNumber 420) |}]
    /\ c' = UpdateTotalPages.incr_forceUpdated UpdateTotalPages.zero.
Proof.
  destruct (force_refetches_and_overwrites Examples.filled (lit "333") 401
              UpdateTotalPages.zero
              (initial (Script.make [] [Normal tt]
                          [Examples.entry "333"
                             [(lit "number_of_pages", VNumber 420)]]))
              ltac:(by eexists) eq_refl ltac:(discriminate) eq_refl
              ltac:(discriminate))
    as (c' & H1 & H2 & _ & H3).
  destruct (H3 _ _ _ _ eq_refl eq_refl eq_refl eq_refl) as [H4 H5].
  destruct (H5 _ eq_refl) as [_ H6].
  exists c'. exact (conj H1 (conj H2 (conj H4 H6))).
Defined.

(** ** Icon sync: the decision *)

(** The glyph the table of update-icons.js gives a status, the fallback
    glyph when the status is not one of its four. *)
Lemma expectedEmoji_own status :
  status ∉ Object_prototype_keys ->
  UpdateIcons.expectedEmoji status
  = VString (match own_property EMOJIS status with
             | Some (VString g) => g
             | _ => books
             end).
Proof.
  intros Hnot. unfold UpdateIcons.expectedEmoji, object_get.
  destruct (own_property EMOJIS status) as [v|] eqn:Hown.
  - unfold EMOJIS in Hown. cbn in Hown.
    repeat match type of Hown with
           | (if ?b then _ else _) = _ => destruct b
           end; by simplify_eq.
  - by rewrite bool_decide_eq_false_2.
Qed.

(** For a status that is not the name of a member of [Object.prototype],
    the record is skipped exactly when its icon is the emoji the table
    gives the status, or the fallback glyph for a status outside the
    table. *)
Lemma icon_skip_iff_glyph_matches (page : page) status :
  UpdateIcons.status_name page = Some status ->
  status ∉ Object_prototype_keys ->
  strict_equals (UpdateIcons.currentEmoji page)
    (UpdateIcons.expectedEmoji status) = true
  <-> page_icon_of page
      = Some (IconEmoji (match own_property EMOJIS status with
                         | Some (VString g) => g
                         | _ => books
                         end)).
Proof.
  intros Hstatus Hnot. rewrite expectedEmoji_own by done.
  unfold UpdateIcons.currentEmoji, strict_equals, jstr_eqb.
  destruct (page_icon_of page) as [[emoji|url|url]|]; try (split; done).
  rewrite bool_decide_eq_true. split; intros; by simplify_eq.
Qed.

(** C1, at the input where the code departs from it.  [constructor] is
    not a status of the table and the record already carries the
    fallback glyph, yet [EMOJIS[status]] finds the member every object
    inherits: the expected emoji is that member, not a glyph, the
    comparison fails, and an update request carrying the member as emoji
    is sent instead of the record being skipped. *)
Theorem inherited_status_name_is_not_skipped :
  UpdateIcons.status_name Examples.odd_status = Some (lit "constructor")
  /\ own_property EMOJIS (lit "constructor") = None
  /\ UpdateIcons.currentEmoji Examples.odd_status = VString books
  /\ UpdateIcons.expectedEmoji (lit "constructor") = VBuiltin (lit "constructor")
  /\ forall W (N : Notion W) c (st : state W),
       let res := UpdateIcons.process_record Examples.odd_status c st in
       updates_issued (trace res.2)
       = updates_issued (trace st)
         ++ [{| upd_page_id := lit "p2";
                upd_patch := PatchIcon (VBuiltin (lit "constructor")) |}]
       /\ forall c', res.1 = Normal c' ->
            UpdateIcons.totalSkipped c' = UpdateIcons.totalSkipped c.
Proof.
  repeat (split; [reflexivity|]). intros W N c st.
  rewrite (UpdateIconsFacts.process_record_update _ (lit "Ulysses"))
    by reflexivity.
  cbv zeta.
  destruct (pages_update _ (world st)) as [[[]|e] w]; cbn [fst snd trace];
    rewrite updates_issued_app; (split; [reflexivity|]);
    by intros c' [= <-].
Qed.

(** C10. A record without a status, its title read, is skipped with a
    log line only: no request is issued, the world is left as it is, and
    neither [totalUpdated] nor [totalSkipped] moves; so the two totals of
    the summary can add up to fewer than the records processed, as on a
    database holding one such record. *)
Theorem no_status_record_is_not_counted {W} `{!Notion W}
    (page : page) (title : jstr) (c : UpdateIcons.counters) (st : state W) :
  page_title page = Normal title ->
  truthy_str (UpdateIcons.status_name page) = false ->
  UpdateIcons.process_record page c st
  = (Normal c,
     mk_state (world st)
       (trace st ++ [EvLog (MsgSkipNoStatus title)]) st)
  /\ let db := Script.make [Normal (Examples.one_page [Examples.no_status])] [] [] in
     exists st',
       UpdateIcons.updateBookIcons 1 (initial db) = Some st'
       /\ List.last (trace st') (EvSleep 0) = EvLog (MsgIconsComplete 0 0).
Proof.
  intros Ht H. split; [by apply UpdateIconsFacts.process_record_no_status|].
  eexists. split; reflexivity.
Qed.

Lemma no_status_record_is_not_counted_witness :
  (UpdateIcons.process_record Examples.no_status
     {| UpdateIcons.totalUpdated := 0; UpdateIcons.totalSkipped := 0 |}
     (initial (Script.make [] [] []))).1
  = Normal {| UpdateIcons.totalUpdated := 0; UpdateIcons.totalSkipped := 0 |}.
Proof.
  exact (f_equal fst
           (proj1 (no_status_record_is_not_counted Examples.no_status
                     (lit "Dune")
                     {| UpdateIcons.totalUpdated := 0;
                        UpdateIcons.totalSkipped := 0 |}
                     (initial (Script.make [] [] [])) eq_refl eq_refl))).
Defined.

(** ** The pagination loop *)

Section loops.
Context {W : Type} `{!Notion W, !OpenLibrary W}.

Lemma run_never_throws {A} (m : M W A) st :
  never_throws m -> exists a, m st = (Normal a, (m st).2).
Proof.
  intros Hm. destruct (Hm st) as [a Ha]. exists a.
  destruct (m st); simpl in *; by subst.
Qed.

(** A record throws only from the read of its title. *)
Lemma icon_record_throws page c (st st' : state W) e :
  UpdateIcons.process_record page c st = (Throw e, st') ->
  page_title page = Throw e.
Proof.
  destruct (page_title page) as [title|e0] eqn:Ht.
  - destruct (UpdateIconsFacts.icon_record_never_throws page c
                ltac:(by exists title) st) as [c' Hc].
    intros H. rewrite H in Hc. done.
  - rewrite (UpdateIconsFacts.icon_record_unreadable _ _ _ _ Ht).
    by intros [= <- <-].
Qed.

Lemma backfill_record_throws force page c (st st' : state W) e :
  UpdateTotalPages.process_record force page c st = (Throw e, st') ->
  page_title page = Throw e.
Proof.
  destruct (page_title page) as [title|e0] eqn:Ht.
  - destruct (UpdateTotalPagesFacts.backfill_record_never_throws force page c
                ltac:(by exists title) st) as [c' Hc].
    intros H. rewrite H in Hc. done.
  - rewrite (UpdateTotalPagesFacts.backfill_record_unreadable _ _ _ _ _ Ht).
    by intros [= <- <-].
Qed.

(** A loop over records throws only where one of its records does. *)
Lemma for_of_throws {A C} (items : list A) (body : A -> C -> M W C) :
  forall c (st st' : state W) e,
    for_of items body c st = (Throw e, st') ->
    exists x c0 st0, x ∈ items /\ body x c0 st0 = (Throw e, st').
Proof.
  induction items as [|x rest IH]; intros c st st' e; cbn; [done|].
  unfold bind. destruct (body x c st) as [[c1|e1] st1] eqn:Hb.
  - intros H. destruct (IH _ _ _ _ H) as (y & c0 & st0 & Hy & Hbody).
    exists y, c0, st0. split; [by right|done].
  - intros [= <- <-]. exists x, c, st. split; [by left|done].
Qed.

(** A pass of either loop throws only when its query does or when the
    title of a record of the page cannot be read. *)
Lemma icons_iteration_throws cur c (st st' : state W) e :
  UpdateIcons.iteration cur c st = (Throw e, st') ->
  (databases_query cur (world st) = (Throw e, world st')
   /\ trace st' = trace st ++ [EvQuery cur])
  \/ exists r w page,
       databases_query cur (world st) = (Normal r, w)
       /\ page ∈ results r /\ page_title page = Throw e.
Proof.
  unfold UpdateIcons.iteration. run_script.
  destruct (databases_query cur (world st)) as [[r|e'] w]; cbn.
  - match goal with
    | |- context [for_of ?l ?b ?c ?s] =>
        destruct (for_of l b c s) as [[c'|e'] st1] eqn:Hfor
    end; [done|].
    intros [= <- <-]. right.
    apply for_of_throws in Hfor as (page & c0 & st0 & Hin & Hthrow).
    apply icon_record_throws in Hthrow. by exists r, w, page.
  - intros [= <- <-]. by left.
Qed.

Lemma pages_iteration_throws force cur c (st st' : state W) e :
  UpdateTotalPages.iteration force cur c st = (Throw e, st') ->
  (databases_query cur (world st) = (Throw e, world st')
   /\ trace st' = trace st ++ [EvQuery cur])
  \/ exists r w page,
       databases_query cur (world st) = (Normal r, w)
       /\ page ∈ results r /\ page_title page = Throw e.
Proof.
  unfold UpdateTotalPages.iteration. run_script.
  destruct (databases_query cur (world st)) as [[r|e'] w]; cbn.
  - match goal with
    | |- context [for_of ?l ?b ?c ?s] =>
        destruct (for_of l b c s) as [[c'|e'] st1] eqn:Hfor
    end; [done|].
    intros [= <- <-]. right.
    apply for_of_throws in Hfor as (page & c0 & st0 & Hin & Hthrow).
    apply backfill_record_throws in Hthrow. by exists r, w, page.
  - intros [= <- <-]. by left.
Qed.

(** The loop ends by a throw only on a pass whose page query threw or
    returned a record whose title cannot be read. *)
Lemma while_hasMore_aborts {C}
    (body : option jstr -> C -> M W (bool * option jstr * C)) :
  (forall cur c st st' e,
     body cur c st = (Throw e, st') ->
     (databases_query cur (world st) = (Throw e, world st')
      /\ trace st' = trace st ++ [EvQuery cur])
     \/ exists r w page,
          databases_query cur (world st) = (Normal r, w)
          /\ page ∈ results r /\ page_title page = Throw e) ->
  forall fuel hasMore cur c st e st',
    while_hasMore body fuel hasMore cur c st = Some (Throw e, st') ->
    exists cursor w,
      (databases_query cursor w = (Throw e, world st')
       /\ exists t, trace st' = t ++ [EvQuery cursor])
      \/ exists r w' page,
           databases_query cursor w = (Normal r, w')
           /\ page ∈ results r /\ page_title page = Throw e.
Proof.
  intros Hbody. induction fuel as [|fuel IH]; intros hasMore cur c st e st';
    destruct hasMore; simpl; try done.
  destruct (body cur c st) as [[[[h n] c']|e'] st1] eqn:Hb.
  - apply IH.
  - intros [= <- <-]. exists cur, (world st).
    destruct (Hbody _ _ _ _ _ Hb) as [[Hq Ht]|H]; [left|by right].
    split; [done|by eexists].
Qed.

End loops.

(** *** Against scripted answers *)

#[local] Instance no_query_preorder : PreOrder no_query.
Proof.
  split.
  - by intros st.
  - intros st1 st2 st3 [H1 H2] [H3 H4]. split; congruence.
Qed.

Lemma no_query_emit e :
  (if e is EvQuery _ then False else True) -> respects no_query (emit e).
Proof.
  intros He st. split; [done|]. cbn. rewrite queries_issued_app.
  destruct e; try done; cbn; by rewrite app_nil_r.
Qed.

Lemma no_query_call {A} e (op : Script.world -> A * Script.world) :
  (if e is EvQuery _ then False else True) ->
  (forall w, Script.queries (op w).2 = Script.queries w) ->
  respects no_query (call e op).
Proof.
  intros He Hop st. unfold call. specialize (Hop (world st)).
  destruct (op (world st)) as [a w]. split; [done|]. cbn.
  rewrite queries_issued_app.
  destruct e; try done; cbn; by rewrite app_nil_r.
Qed.

Ltac no_query_step :=
  first
    [ apply (respects_ret no_query) | apply (respects_lift no_query)
    | apply (respects_throw no_query)
    | apply no_query_emit; exact I
    | apply no_query_call; [exact I|done]
    | apply (respects_try_catch no_query); [|intros]
    | apply (respects_bind no_query); [|intros]
    | match goal with
      | |- respects _ (if ?b then _ else _) => destruct b
      | |- respects _ (match ?r with
                       | UpdateTotalPages.Continue _ => _
                       | UpdateTotalPages.Completed _ => _
                       end) => destruct r
      end ].

Lemma icons_process_record_no_query page c :
  respects no_query (UpdateIcons.process_record page c).
Proof.
  unfold UpdateIcons.process_record, call_throwing, console_log,
    console_error, sleep.
  repeat no_query_step.
Qed.

Lemma pages_process_record_no_query force page c :
  respects no_query (UpdateTotalPages.process_record force page c).
Proof.
  unfold UpdateTotalPages.process_record,
    UpdateTotalPages.fetchBookDataFromOpenLibrary, call_throwing, console_log,
    console_error, sleep.
  repeat no_query_step.
Qed.

Lemma run_no_query {A} (m : M Script.world A) st :
  never_throws m -> respects no_query m ->
  exists a st', m st = (Normal a, st') /\ no_query st st'.
Proof.
  intros Hn Hr. destruct (Hn st) as [a Ha]. specialize (Hr st).
  destruct (m st) as [r st']; simpl in *; subst. eauto.
Qed.

(** One pass against a scripted world whose next answer is a page of
    records with readable titles. *)
Lemma icons_iteration_script cur c (st : state Script.world) r qs :
  Forall readable (results r) ->
  Script.queries (world st) = Normal r :: qs ->
  exists c' st',
    UpdateIcons.iteration cur c st
    = (Normal (has_more r, next_cursor r, c'), st')
    /\ Script.queries (world st') = qs
    /\ queries_issued (trace st') = queries_issued (trace st) ++ [cur].
Proof.
  intros Hr Hq. unfold UpdateIcons.iteration. run_script.
  cbn [databases_query Script.notion]. unfold Script.next_query. rewrite Hq. cbn.
  match goal with
  | |- context [for_of ?l ?b ?c ?s] =>
      destruct (run_no_query (for_of l b c) s) as (c' & st' & -> & Hw & Ht)
  end.
  - apply (never_throws_for_of_Forall readable); [|done].
    intros. by apply UpdateIconsFacts.icon_record_never_throws.
  - apply (respects_for_of no_query). intros. apply icons_process_record_no_query.
  - cbn in Hw, Ht. exists c'. eexists. split; [reflexivity|]. cbn.
    split; [done|]. rewrite queries_issued_app, Ht, !queries_issued_app. cbn.
    by rewrite !app_nil_r.
Qed.

Lemma pages_iteration_script force cur c (st : state Script.world) r qs :
  Forall readable (results r) ->
  Script.queries (world st) = Normal r :: qs ->
  exists c' st',
    UpdateTotalPages.iteration force cur c st
    = (Normal (has_more r, next_cursor r, c'), st')
    /\ Script.queries (world st') = qs
    /\ queries_issued (trace st') = queries_issued (trace st) ++ [cur].
Proof.
  intros Hr Hq. unfold UpdateTotalPages.iteration. run_script.
  cbn [databases_query Script.notion]. unfold Script.next_query. rewrite Hq. cbn.
  match goal with
  | |- context [for_of ?l ?b ?c ?s] =>
      destruct (run_no_query (for_of l b c) s) as (c' & st' & -> & Hw & Ht)
  end.
  - apply (never_throws_for_of_Forall readable); [|done].
    intros. by apply UpdateTotalPagesFacts.backfill_record_never_throws.
  - apply (respects_for_of no_query). intros. apply pages_process_record_no_query.
  - cbn in Hw, Ht. exists c'. eexists. split; [reflexivity|]. cbn.
    split; [done|]. rewrite queries_issued_app, Ht, !queries_issued_app. cbn.
    by rewrite !app_nil_r.
Qed.





(** ** Failures of the update request *)

(** C5, as claimed, fails on update-icons.js: there the exception is
    caught and logged but counted nowhere.  On a database of one record
    whose update is refused, the record leaves both counters as they
    were, and the summary reports no book updated and none skipped. *)
Lemma icon_sync_does_not_count_patch_failures :
  UpdateIcons.process_record Examples.reading
    {| UpdateIcons.totalUpdated := 0; UpdateIcons.totalSkipped := 0 |}
    (initial Examples.one_refused)
  = (Normal {| UpdateIcons.totalUpdated := 0; UpdateIcons.totalSkipped := 0 |},
     mk_state (Script.make [Normal (Examples.one_page [Examples.reading])] [] [])
       [EvUpdate {| upd_page_id := lit "p1"; upd_patch := PatchIcon (VString open_book) |};
        EvError (ErrUpdatingIcon (lit "Emma") (ExternalError (lit "conflict")));
        EvSleep 250]
       (initial Examples.one_refused))
  /\ (trace <$> UpdateIcons.updateBookIcons 1 (initial Examples.one_refused))
     = Some
         [EvQuery None; EvLog (MsgProcessingBatch 1);
          EvUpdate {| upd_page_id := lit "p1"; upd_patch := PatchIcon (VString open_book) |};
          EvError (ErrUpdatingIcon (lit "Emma") (ExternalError (lit "conflict")));
          EvSleep 250; EvLog (MsgBatchComplete false);
          EvLog (MsgIconsComplete 0 0)].
Proof. split; reflexivity. Qed.

(** C5, amended.  In both maintenance scripts an exception raised by a
    record's update request is caught and logged, and the loop goes on
    with the next record of the page from the state the failure left;
    update-total-pages.js counts it in [totalFailedFetch],
    update-icons.js, which has no failure counter, leaves its two
    counters as they were.  The pagination is never aborted by it: when
    the loop ends by a throw, a page query threw or the title of a record
    of a page could not be read. *)
Theorem patch_exception_is_contained {W} `{!Notion W, !OpenLibrary W} :
  (forall (page : page) title rest c (st : state W) e w,
     page_title page = Normal title ->
     truthy_str (UpdateIcons.status_name page) = true ->
     strict_equals (UpdateIcons.currentEmoji page)
       (UpdateIcons.expectedEmoji (default [] (UpdateIcons.status_name page)))
     = false ->
     pages_update (UpdateIcons.icon_request page) (world st) = (Throw e, w) ->
     for_of (page :: rest) UpdateIcons.process_record c st
     = for_of rest UpdateIcons.process_record c
         (mk_state w
            (trace st ++ [EvUpdate (UpdateIcons.icon_request page);
                          EvError (ErrUpdatingIcon title e);
                          EvSleep 250]) st))
  /\ (forall force (page : page) title isbn rest c (st : state W)
             data entry numberOfPages e w1 w,
        page_title page = Normal title ->
        UpdateTotalPages.page_isbn page = Some isbn ->
        isbn <> [] ->
        UpdateTotalPages.truthy_num (UpdateTotalPages.page_total_pages page)
          && negb force = false ->
        http_get (openlibrary_url isbn) (world st)
        = (JsonBody (VObject data), w1) ->
        own_property data (lit "ISBN:" ++ isbn) = Some (VObject entry) ->
        own_property entry (lit "number_of_pages") = Some numberOfPages ->
        truthy numberOfPages = true ->
        let req := {| upd_page_id := page_id page;
                      upd_patch := PatchTotalPages numberOfPages |} in
        pages_update req w1 = (Throw e, w) ->
        exists before,
          for_of (page :: rest) (UpdateTotalPages.process_record force) c st
          = for_of rest (UpdateTotalPages.process_record force)
              (UpdateTotalPages.incr_failedFetch c)
              (mk_state w
                 (trace st ++ before
                  ++ [EvGet (openlibrary_url isbn);
                      EvUpdate req;
                      EvError (ErrProcessing title e);
                      EvSleep 500]) st))
  /\ (forall fuel (st st' : state W) e,
        UpdateIcons.pagination fuel st = Some (Throw e, st') ->
        exists cursor w,
          (databases_query cursor w = (Throw e, world st')
           /\ exists t, trace st' = t ++ [EvQuery cursor])
          \/ exists r w' page,
               databases_query cursor w = (Normal r, w')
               /\ page ∈ results r /\ page_title page = Throw e)
  /\ (forall force fuel (st st' : state W) e,
        UpdateTotalPages.pagination force fuel st = Some (Throw e, st') ->
        exists cursor w,
          (databases_query cursor w = (Throw e, world st')
           /\ exists t, trace st' = t ++ [EvQuery cursor])
          \/ exists r w' page,
               databases_query cursor w = (Normal r, w')
               /\ page ∈ results r /\ page_title page = Throw e).
Proof.
  split; [|split; [|split]].
  - intros page title rest c st e w Ht Hs Hne Hupd. cbn [for_of].
    unfold bind at 1.
    rewrite (UpdateIconsFacts.process_record_update page title) by done.
    cbv zeta. by rewrite Hupd.
  - intros force page title isbn rest c st data entry n e w1 w
      Ht Hisbn Hne Hskip Hget Hentry Hcount Htruthy req Hupd.
    cbn [for_of]. unfold bind at 1.
    assert (truthy_str (UpdateTotalPages.page_isbn page) = true) as Hi.
    { rewrite Hisbn. by destruct isbn. }
    rewrite (UpdateTotalPagesFacts.process_record_lookup force page title)
      by done.
    cbv zeta. unfold UpdateTotalPages.lookup_url, UpdateTotalPages.pages_request.
    rewrite Hisbn. cbn [from_option id]. rewrite Hget.
    cbn [UpdateTotalPages.book_data js_get].
    rewrite (object_get_own _ _ _ Hentry). cbn [js_or truthy js_get].
    rewrite (object_get_own _ _ _ Hcount), Htruthy. fold req. rewrite Hupd.
    exists ((if UpdateTotalPages.truthy_num (UpdateTotalPages.page_total_pages page)
                && force
             then [EvLog (MsgForceUpdating title
                            (default 0%Z (UpdateTotalPages.page_total_pages page)))]
             else [])
            ++ [EvLog (MsgFetchingData title isbn)]).
    by rewrite <- !app_assoc.
  - intros fuel st st' e.
    apply (while_hasMore_aborts UpdateIcons.iteration).
    intros. by eapply icons_iteration_throws.
  - intros force fuel st st' e.
    apply (while_hasMore_aborts (UpdateTotalPages.iteration force)).
    intros. by eapply pages_iteration_throws.
Qed.

Lemma patch_exception_is_contained_witness :
  for_of [Examples.reading; Examples.no_status] UpdateIcons.process_record
    {| UpdateIcons.totalUpdated := 0; UpdateIcons.totalSkipped := 0 |}
    (initial Examples.one_refused)
  = for_of [Examples.no_status] UpdateIcons.process_record
      {| UpdateIcons.totalUpdated := 0; UpdateIcons.totalSkipped := 0 |}
      (mk_state (Script.make [Normal (Examples.one_page [Examples.reading])] [] [])
         ([] ++ [EvUpdate (UpdateIcons.icon_request Examples.reading);
                 EvError (ErrUpdatingIcon (lit "Emma")
                            (ExternalError (lit "conflict")));
                 EvSleep 250])
         (initial Examples.one_refused)).
Proof.
  exact (proj1 (patch_exception_is_contained (W:=Script.world))
           Examples.reading (lit "Emma") [Examples.no_status] _
           (initial Examples.one_refused)
           _ _ eq_refl eq_refl eq_refl eq_refl).
Defined.

(** ** import.js: the lookup *)


Lemma book_info_fields identifier out info :
  ImportBooks.book_info identifier out = Normal info ->
  isbn info = identifier
  /\ (numberOfPages info = VNull \/ truthy (numberOfPages info) = true).
Proof.
  unfold ImportBooks.book_info. intros H.
  repeat match type of H with
         | match ?x with _ => _ end = _ => destruct x eqn:?; try done
         end.
  injection H as <-. cbn. split; [done|]. unfold js_or.
  destruct (truthy _) eqn:Ht; [by right|by left].
Qed.

Section import_facts.
Context {W : Type} `{!NotionCreate W, !OpenLibrary W, !Node W}.

(** [fetchBookInfo] by the answer of OpenLibrary. *)
Lemma fetchBookInfo_eq isbn (st : state W) :
  ImportBooks.fetchBookInfo isbn st
  = let url := openlibrary_url isbn in
    match http_get url (world st) with
    | (out, w) =>
        match ImportBooks.book_info isbn out with
        | Normal bookInfo =>
            (Normal (Some bookInfo), mk_state w (trace st ++ [EvGet url]) st)
        | Throw e =>
            (Normal None,
             {| world := w;
                trace := trace st ++ [EvGet url; EvError (ErrFetching isbn e)];
                failedIsbns := failedIsbns st ++ [isbn] |})
        end
    end.
Proof.
  unfold ImportBooks.fetchBookInfo. run_script. cbv zeta.
  destruct (http_get _ (world st)) as [out w]. cbn.
  destruct (ImportBooks.book_info isbn out); cbn; [done|].
  by rewrite <- app_assoc.
Qed.

Lemma addBookToNotion_eq bookInfo (st : state W) :
  ImportBooks.addBookToNotion bookInfo st
  = let req := {| new_icon := blue_book;
                  new_Title := title bookInfo;
                  new_Author := authors bookInfo;
                  new_ISBN := isbn bookInfo;
                  new_Total_Pages := numberOfPages bookInfo |} in
    match pages_create req (world st) with
    | (Normal _, w) =>
        (Normal tt,
         mk_state w (trace st ++ [EvCreate req; EvLog (MsgAdded (title bookInfo))]) st)
    | (Throw e, w) =>
        (Normal tt,
         mk_state w
           (trace st ++ [EvCreate req; EvError (ErrAdding (title bookInfo) e)]) st)
    end.
Proof.
  unfold ImportBooks.addBookToNotion. run_script. cbv zeta.
  destruct (pages_create _ (world st)) as [[[]|e] w]; cbn;
    by rewrite <- app_assoc.
Qed.

End import_facts.

(** *** The code against the expected record *)











(** ** import.js: rows of a spreadsheet export *)

Section goodreads.
Context {W : Type} `{!NotionCreate W, !OpenLibrary W, !Node W}.

Ltac lookup_step :=
  rewrite ?fetchBookInfo_eq, ?addBookToNotion_eq; cbv zeta;
  cbn [fst snd world trace failedIsbns mk_state];
  match goal with
  | |- context [http_get ?u ?w] =>
      let out := fresh "out" in let w' := fresh "w" in
      destruct (http_get u w) as [out w']
  | |- context [ImportBooks.book_info ?i ?o] =>
      let E := fresh "Hinfo" in
      destruct (ImportBooks.book_info i o) eqn:E
  | |- context [pages_create ?r ?w] =>
      let w' := fresh "w" in
      destruct (pages_create r w) as [[[]|?] w']
  end;
  cbn [fst snd world trace failedIsbns mk_state is_none negb andb].

Ltac tried ids :=
  exists ids;
  split; [by eexists|];
  split;
  [ rewrite !lookups_issued_app;
    cbn [lookups_issued omap fmap list_fmap list_omap app];
    rewrite ?app_nil_r, <- ?app_assoc; reflexivity
  | first
      [ left; eexists; split; [reflexivity|];
        split; [done|];
        split;
        [ cbn [List.last];
          match goal with
          | H : ImportBooks.book_info _ _ = Normal ?b |- isbn ?b = _ =>
              by apply book_info_fields in H as [? _]
          end
        | cbn [removelast];
          rewrite ?app_nil_r, <- ?app_assoc; reflexivity ]
      | right; split; [reflexivity|]; split; [reflexivity|];
        cbn [app]; rewrite ?app_nil_r, <- ?app_assoc; reflexivity ] ].

(** What [process_book] looks up and what it leaves in the failure log:
    the identifiers tried are the candidates of the book in their order
    (ISBN13 before ISBN) up to the first one found; every one tried and
    not found is in the log; and when none is found, after all of them
    the log receives the identifier [process_book] reports itself. *)
Lemma process_book_lookups (b : ImportBooks.book) successful (st : state W) :
  exists res,
    ImportBooks.process_book b successful st = res
    /\ exists ids,
         ids `prefix_of` ImportBooks.candidates b
         /\ lookups_issued (trace res.2)
            = lookups_issued (trace st) ++ (openlibrary_url <$> ids)
         /\ ((exists info,
                res.1 = Normal (successful ++ [info]) /\ ids <> []
                /\ isbn info = List.last ids []
                /\ failedIsbns res.2 = failedIsbns st ++ removelast ids)
             \/ (res.1 = Normal successful
                 /\ ids = ImportBooks.candidates b
                 /\ failedIsbns res.2
                    = failedIsbns st ++ ids ++ ImportBooks.reported b)).
Proof.
  unfold ImportBooks.process_book, ImportBooks.candidates,
    ImportBooks.reported.
  destruct (truthy_str (ImportBooks.book_isbn13 b)) eqn:H13;
    destruct (truthy_str (ImportBooks.book_isbn b)) eqn:H10;
    run_script; cbn [negb andb app is_none].
  all: repeat lookup_step.
  all: cbn [is_none andb].
  all: repeat lookup_step.
  all: eexists; (split; [reflexivity|]);
    cbn [fst snd world trace failedIsbns mk_state].
  all: set (id13 := ImportBooks.clean (default [] (ImportBooks.book_isbn13 b)));
    set (id10 := ImportBooks.clean (default [] (ImportBooks.book_isbn b))).
  all: first [ tried (@nil jstr) | tried [id13] | tried [id10]
             | tried [id13; id10] ].
Qed.



End goodreads.

Lemma app_singleton_neq {A} (l : list A) x : l ++ [x] <> l.
Proof.
  intros H. apply (f_equal length) in H. rewrite length_app in H. simpl in H. lia.
Qed.








(** ** Pacing *)

(** A record's events that end with the pause keep the pace. *)
Lemma paced_ends_with_sleep ms evs : paced ms (evs ++ [EvSleep ms]) = true.
Proof.
  induction evs as [|e evs IH]; [done|]. cbn [app paced]. rewrite IH.
  destruct (is_network e); [|done]. rewrite andb_true_r.
  rewrite existsb_app. cbn. rewrite bool_decide_eq_true_2 by done.
  by rewrite orb_true_r.
Qed.

(** In update-total-pages.js a lookup that completes without a page
    count is followed by no pause: the record's events hold the lookup
    and no suspension, for any record that reaches the lookup. *)
Lemma backfill_lookup_without_page_count {W} `{!Notion W, !OpenLibrary W}
    force (page : page) c (st : state W) bookData :
  readable page ->
  truthy_str (UpdateTotalPages.page_isbn page) = true ->
  UpdateTotalPages.truthy_num (UpdateTotalPages.page_total_pages page)
    && negb force = false ->
  let answer := http_get (UpdateTotalPages.lookup_url page) (world st) in
  UpdateTotalPages.book_data (default [] (UpdateTotalPages.page_isbn page)) answer.1
  = Normal bookData ->
  UpdateTotalPages.page_count_found
    (default [] (UpdateTotalPages.page_isbn page)) answer.1 = None ->
  exists evs,
    trace (UpdateTotalPages.process_record force page c st).2 = trace st ++ evs
    /\ lookups_issued evs = [UpdateTotalPages.lookup_url page]
    /\ existsb (is_sleep 500) evs = false
    /\ paced 500 evs = false.
Proof.
  intros [title Htitle] Hisbn Hskip answer Hdata Hnone. subst answer.
  rewrite (UpdateTotalPagesFacts.process_record_lookup force page title)
    by done.
  cbv zeta.
  unfold UpdateTotalPages.page_count_found in Hnone.
  destruct (http_get _ (world st)) as [out w1]. cbn [fst snd] in *.
  rewrite Hdata in *.
  destruct (truthy bookData) eqn:Htruthy.
  - destruct (js_get bookData _) as [n|e] eqn:Hget.
    + destruct (truthy n); [done|]. cbn [snd trace mk_state].
      eexists. rewrite <- app_assoc. split; [reflexivity|].
      by destruct (_ && force).
    + by destruct bookData.
  - cbn [snd trace mk_state]. eexists. rewrite <- app_assoc.
    split; [reflexivity|]. by destruct (_ && force).
Qed.

(** C6, at the input where update-total-pages.js departs from it.  The
    database holds one page of two records without page count;
    OpenLibrary has no entry for the first and 250 pages for the second.
    The lookup of the first record is followed directly by the
    processing of the second: the only pause of the run comes after the
    update of the second record. *)
Theorem backfill_does_not_pause_after_a_lookup_without_page_count :
  trace <$> UpdateTotalPages.updateBookTotalPages false 1
              (initial Examples.two_unfilled)
  = Some
      [EvLog MsgStarting; EvQuery None; EvLog (MsgProcessingBatch 2);
       EvLog (MsgFetchingData (lit "Walden") (lit "111"));
       EvGet (openlibrary_url (lit "111"));
       EvLog (MsgNoOpenLibraryData (lit "Walden") (lit "111"));
       EvLog (MsgFetchingData (lit "Utopia") (lit "222"));
       EvGet (openlibrary_url (lit "222"));
       EvUpdate {| upd_page_id := lit "p4";
                   upd_patch := PatchTotalPages (VNumber 250) |};
       EvLog (MsgUpdated (lit "Utopia") (VNumber 250));
       EvSleep 500;
       EvLog (MsgBatchComplete false);
       EvLog MsgSummary; EvLog (MsgTotalUpdated 1);
       EvLog (MsgTotalForceUpdated 0); EvLog (MsgTotalSkipped 0);
       EvLog (MsgTotalMissingISBN 0); EvLog (MsgTotalFailed 1)]
  /\ paced 500
       [EvLog (MsgFetchingData (lit "Walden") (lit "111"));
        EvGet (openlibrary_url (lit "111"));
        EvLog (MsgNoOpenLibraryData (lit "Walden") (lit "111"))]
     = false.
Proof. split; reflexivity. Qed.

(** ** Running the backfill twice *)
Module BackfillFacts.
Import UpdateTotalPages Backfill.

Lemma filled_from_refl s : filled_from s s.
Proof. by left. Qed.

Lemma filled_from_id s d : filled_from s d -> page_id d = page_id s.
Proof. intros [->|(n & _ & [= <-])]; done. Qed.

Lemma filled_from_isbn s d : filled_from s d -> page_isbn d = page_isbn s.
Proof. intros [->|(n & _ & [= <-])]; done. Qed.

Lemma filled_from_pages s d :
  filled_from s d ->
  truthy_num (page_total_pages s) = true -> truthy_num (page_total_pages d) = true.
Proof.
  intros [->|(n & Hn & [= <-])]; [done|]. intros _. cbn.
  by apply negb_true_iff, Z.eqb_neq.
Qed.

Lemma filled_from_readable s d : filled_from s d -> readable s -> readable d.
Proof. intros [->|(n & _ & [= <-])]; done. Qed.

Lemma filled_from_trans s d e : filled_from s d -> filled_from d e -> filled_from s e.
Proof.
  intros [->|(n & Hn & [= <-])]; [done|].
  intros [->|(m & Hm & [= <-])]; right; [by exists n|by exists m].
Qed.

(** What an accepted page-count request does to a record. *)
Lemma apply_filled (s : page) n d :
  n <> 0%Z ->
  filled_from d (Store.apply (pages_request s (VNumber n)) d).
Proof.
  intros Hn. unfold Store.apply. cbn.
  destruct (jstr_eqb _ _); [right; by exists n|by left].
Qed.

Lemma apply_same_id (s : page) n d :
  n <> 0%Z -> page_id d = page_id s ->
  truthy_num (page_total_pages (Store.apply (pages_request s (VNumber n)) d)) = true.
Proof.
  intros Hn Hid. unfold Store.apply, jstr_eqb. cbn.
  rewrite bool_decide_eq_true_2 by done. cbn.
  by apply negb_true_iff, Z.eqb_neq.
Qed.

Lemma settled_filled w s d : settled w s -> filled_from s d -> settled w d.
Proof.
  intros Hs Hf. unfold settled, lookup_url, pages_request in *.
  rewrite (filled_from_isbn _ _ Hf), (filled_from_id _ _ Hf).
  destruct Hs as [?|[?|?]]; [by left| |by right; right].
  right; left. by eapply filled_from_pages.
Qed.

Lemma settled_same_answers w w' r :
  Store.library w' = Store.library w -> Store.refuses w' = Store.refuses w ->
  settled w r -> settled w' r.
Proof.
  intros Hl Hr. unfold settled, Store.accepted. by rewrite Hl, Hr.
Qed.

(** The two ways a record can leave [process_record], run without the
    force flag against the database world: nothing is written, the
    record was settled, and it is counted as missing an ISBN, skipped or
    failed; or its page count is written by one accepted request and it
    is counted as updated. *)
Lemma store_record (s : page) c (st : state Store.world) :
  readable s ->
  let w := world st in
  let res := process_record false s c st in
  exists c' evs,
    res = (Normal c', mk_state (world res.2) (trace st ++ evs) st)
    /\ ((world res.2 = w
         /\ settled w s
         /\ totalUpdated c' = totalUpdated c
         /\ totalForceUpdated c' = totalForceUpdated c
         /\ (totalSkipped c' + totalMissingISBN c' + totalFailedFetch c'
             = S (totalSkipped c + totalMissingISBN c + totalFailedFetch c))%nat
         /\ Forall (fun req => Store.accepted w req = false
                               /\ upd_page_id req = page_id s
                               /\ truthy_num (page_total_pages s) = false)
              (updates_issued evs))
        \/ (exists n, n <> 0%Z
              /\ Store.accepted w (pages_request s (VNumber n)) = true
              /\ ~ settled w s
              /\ world res.2
                 = with_db w (map (map (Store.apply (pages_request s (VNumber n))))
                                (Store.db w))
              /\ updates_issued evs = [pages_request s (VNumber n)])).
Proof.
  intros [title Htitle]. cbv zeta.
  destruct (truthy_str (page_isbn s)) eqn:Hisbn.
  2:{ rewrite (UpdateTotalPagesFacts.process_record_no_isbn false s title)
        by done.
      eexists _, [_]. split; [reflexivity|]. left. cbn.
      split_and!; [done|by left|done|done|lia|constructor]. }
  destruct (truthy_num (page_total_pages s)) eqn:Hpages.
  { rewrite (UpdateTotalPagesFacts.process_record_has_pages s title) by done.
    eexists _, [_]. split; [reflexivity|]. left. cbn.
    split_and!; [done|right; by left|done|done|lia|constructor]. }
  rewrite (UpdateTotalPagesFacts.process_record_lookup false s title)
    by (by rewrite ?Hpages).
  cbv zeta. rewrite Hpages. cbn [andb http_get Store.openlibrary app].
  unfold settled. rewrite Hisbn, Hpages. unfold page_count_found.
  destruct (book_data _ _) as [bookData|e].
  2:{ eexists _, _. split; [by rewrite <- app_assoc|]. left. cbn.
      split_and!; [done|by right; right|done|done|lia|constructor]. }
  destruct (truthy bookData).
  2:{ eexists _, _. split; [by rewrite <- app_assoc|]. left. cbn.
      split_and!; [done|by right; right|done|done|lia|constructor]. }
  destruct (js_get bookData _) as [numberOfPages|e].
  2:{ eexists _, _. split; [by rewrite <- app_assoc|]. left. cbn.
      split_and!; [done|by right; right|done|done|lia|constructor]. }
  destruct (truthy numberOfPages) eqn:Htruthy.
  2:{ eexists _, _. split; [by rewrite <- app_assoc|]. left. cbn.
      split_and!; [done|by right; right|done|done|lia|constructor]. }
  cbn [pages_update Store.notion]. unfold Store.update, Store.accepted.
  destruct (Store.refuses (world st) _) as [e|] eqn:Hrefuses.
  { eexists _, _. split; [by rewrite <- app_assoc|]. left. cbn.
    split_and!; [done| |done|done|lia|].
    - right; right. intros n [= <-]. by rewrite Hrefuses.
    - repeat constructor. by rewrite Hrefuses. }
  destruct numberOfPages as [| |?|n|?|?|?|?];
    cbn [Store.valid pages_request upd_patch];
    try (eexists _, _; (split; [by rewrite <- app_assoc|]); left; cbn;
         split_and!;
         [ done
         | right; right; intros n' [= <-]; cbn; by rewrite andb_false_r
         | done | done | lia
         | repeat constructor; cbn; by rewrite andb_false_r ]).
  eexists _, _. split; [by rewrite <- app_assoc|]. right. exists n. cbn.
  cbn in Htruthy. apply negb_true_iff, Z.eqb_neq in Htruthy.
  assert (bool_decide (Store.refuses (world st)
                         {| upd_page_id := page_id s;
                            upd_patch := PatchTotalPages (VNumber n) |} = None)
          && true = true) as Hacc
    by (rewrite bool_decide_eq_true_2; [done|exact Hrefuses]).
  split_and!; try done.
  intros [?|[?|Hno]]; [done|done|].
  specialize (Hno _ eq_refl).
  by rewrite bool_decide_eq_true_2 in Hno by exact Hrefuses.
Qed.

Lemma with_db_same w : with_db w (Store.db w) = w.
Proof. by destruct w. Qed.

Lemma map_map_id (rows : list (list page)) : map (map id) rows = rows.
Proof.
  induction rows as [|row rows IH]; [done|]. cbn. by rewrite map_id, IH.
Qed.

Lemma updated_ids_app w t1 t2 :
  updated_ids w (t1 ++ t2) = updated_ids w t1 ++ updated_ids w t2.
Proof.
  unfold updated_ids. by rewrite updates_issued_app, filter_app, fmap_app.
Qed.

Lemma updated_ids_refused w t :
  Forall (fun req => Store.accepted w req = false) (updates_issued t) ->
  updated_ids w t = [].
Proof.
  unfold updated_ids. induction 1 as [|req reqs Hreq _ IH]; [done|].
  cbn. by rewrite Hreq.
Qed.

(** The first run over the records [ss] read from a page, [ds] being
    what the database holds of them by now: afterwards each of them is
    settled, no record has lost anything but gained a page count, and
    every record whose identifier an accepted request named has a page
    count. *)
Lemma store_for_of_first ss : forall ds c (st : state Store.world),
  Forall readable ss ->
  Forall2 filled_from ss ds ->
  exists c' g evs,
    for_of ss (process_record false) c st
    = (Normal c',
       mk_state (with_db (world st) (map (map g) (Store.db (world st))))
         (trace st ++ evs) st)
    /\ (forall d, filled_from d (g d))
    /\ Forall (settled (world st)) (g <$> ds)
    /\ (forall d, page_id d ∈ updated_ids (world st) evs ->
                  truthy_num (page_total_pages (g d)) = true).
Proof.
  induction ss as [|s ss IH]; intros ds c st Hread Hds.
  - apply Forall2_nil_inv_l in Hds as ->. exists c, id, [].
    split_and!; [|by left|constructor|by intros d ?%elem_of_nil].
    cbn. unfold ret, mk_state. rewrite map_map_id, with_db_same, app_nil_r.
    by destruct st.
  - apply Forall2_cons_inv_l in Hds as (d0 & ds' & Hd0 & Hds' & ->).
    inversion Hread as [|? ? Hs0 Hread']; subst.
    cbn [for_of]. unfold bind at 1.
    destruct (store_record s c st Hs0) as (c1 & evs1 & Heq & Hcase).
    cbv zeta in Heq, Hcase. rewrite Heq.
    destruct Hcase as [(Hw & Hs & _ & _ & _ & Hreqs)
                      |(n & Hn & Hacc & _ & Hw & Hreqs)]; rewrite Hw.
    + destruct (IH ds' c1 (mk_state (world st) (trace st ++ evs1) st)
                  Hread' Hds')
        as (c' & g & evs2 & Hfor & Hg & Hsettled & Hids).
      rewrite Hfor. exists c', g, (evs1 ++ evs2). cbn [world trace mk_state] in *.
      split_and!; [by rewrite app_assoc|done| |].
      * cbn. constructor; [|done].
        eapply settled_filled; [|apply Hg]. by eapply settled_filled.
      * intros d. rewrite updated_ids_app, updated_ids_refused.
        -- apply Hids.
        -- eapply Forall_impl; [|exact Hreqs]. by intros req (? & _).
    + set (f := Store.apply (pages_request s (VNumber n))).
      assert (Forall2 filled_from ss (f <$> ds')) as Hds''.
      { apply Forall2_fmap_r. eapply Forall2_impl; [|exact Hds'].
        intros s' d' Hf. eapply filled_from_trans; [exact Hf|].
        by apply apply_filled. }
      destruct (IH (f <$> ds') c1
                  (mk_state (with_db (world st) (map (map f) (Store.db (world st))))
                     (trace st ++ evs1) st) Hread' Hds'')
        as (c' & g & evs2 & Hfor & Hg & Hsettled & Hids).
      rewrite Hfor. exists c', (g ∘ f), (evs1 ++ evs2).
      cbn [world trace mk_state with_db Store.db Store.library Store.refuses] in *.
      split_and!.
      * rewrite app_assoc. unfold with_db, mk_state. cbn. rewrite map_map.
        do 3 f_equal. apply map_ext. intros row. by rewrite map_map.
      * intros d. eapply filled_from_trans; [by apply apply_filled|apply Hg].
      * cbn. constructor.
        -- eapply settled_filled; [|apply Hg]. right; left.
           apply apply_same_id; [done|]. by eapply filled_from_id.
        -- by rewrite <- list_fmap_compose in Hsettled.
      * intros d. rewrite updated_ids_app, elem_of_app. intros [Hin|Hin].
        -- unfold updated_ids in Hin. rewrite Hreqs in Hin. cbn in Hin.
           rewrite Hacc in Hin. cbn in Hin. apply list_elem_of_singleton in Hin.
           eapply filled_from_pages; [apply Hg|]. by apply apply_same_id.
        -- apply Hids. by rewrite (filled_from_id d (f d)) by by apply apply_filled.
Qed.

(** A run over records that are all settled writes nothing. *)
Lemma store_for_of_second ss : forall c (st : state Store.world),
  Forall readable ss ->
  Forall (settled (world st)) ss ->
  exists c' evs,
    for_of ss (process_record false) c st
    = (Normal c', mk_state (world st) (trace st ++ evs) st)
    /\ totalUpdated c' = totalUpdated c
    /\ totalForceUpdated c' = totalForceUpdated c
    /\ (totalSkipped c' + totalMissingISBN c' + totalFailedFetch c'
        = totalSkipped c + totalMissingISBN c + totalFailedFetch c + length ss)%nat
    /\ Forall (fun req => Store.accepted (world st) req = false
                          /\ exists s, s ∈ ss /\ upd_page_id req = page_id s
                               /\ truthy_num (page_total_pages s) = false)
         (updates_issued evs).
Proof.
  induction ss as [|s ss IH]; intros c st Hread Hss.
  - exists c, []. cbn. unfold ret, mk_state. rewrite app_nil_r.
    split_and!; [by destruct st|done|done|lia|constructor].
  - inversion Hss as [|? ? Hs Hss']; subst. clear Hss. rename Hss' into Hss.
    inversion Hread as [|? ? Hs0 Hread']; subst.
    cbn [for_of]. unfold bind at 1.
    destruct (store_record s c st Hs0) as (c1 & evs1 & Heq & Hcase).
    cbv zeta in Heq, Hcase. rewrite Heq.
    destruct Hcase as [(Hw & _ & Hu & Hf & Hsum & Hreqs)
                      |(n & _ & _ & Hno & _)]; [|done].
    rewrite Hw.
    destruct (IH c1 (mk_state (world st) (trace st ++ evs1) st) Hread' Hss)
      as (c' & evs2 & Hfor & Hu' & Hf' & Hsum' & Hreqs').
    rewrite Hfor. exists c', (evs1 ++ evs2). cbn [world trace mk_state] in *.
    split_and!; [by rewrite app_assoc|congruence|congruence|cbn; lia|].
    rewrite updates_issued_app. apply Forall_app. split.
    + eapply Forall_impl; [|exact Hreqs]. intros req (? & ? & ?).
      split; [done|]. exists s. split; [left|done].
    + eapply Forall_impl; [|exact Hreqs']. intros req (? & s' & ? & ?).
      split; [done|]. exists s'. split; [by right|done].
Qed.

(** One pass of the loop against the database world. *)
Lemma store_iteration force cur c (st : state Store.world) :
  iteration force cur c st
  = let i := Store.index_of cur in
    let more := bool_decide (S i < length (Store.db (world st)))%nat in
    let ss := default [] (Store.db (world st) !! i) in
    match for_of ss (process_record force) c
            (mk_state (world st)
               (trace st ++ [EvQuery cur; EvLog (MsgProcessingBatch (length ss))])
               st) with
    | (Normal c', st') =>
        (Normal (more, if more then Some (Store.cursor_of (S i)) else None, c'),
         mk_state (world st') (trace st' ++ [EvLog (MsgBatchComplete more)]) st')
    | (Throw e, st') => (Throw e, st')
    end.
Proof.
  unfold iteration. run_script. cbn [databases_query Store.notion Store.query].
  cbn [fst snd results has_more next_cursor world trace failedIsbns].
  unfold mk_state. rewrite <- app_assoc. cbn [app].
  by destruct (for_of _ _ _ _) as [[c'|e] st'].
Qed.

(** The loop against the database world, for a property [Inv] of the
    page number reached, the counters and the state that each pass
    carries one page further: it ends normally, past the last page. *)
Lemma store_while force (Inv : nat -> counters -> state Store.world -> Prop) :
  (forall i c st,
     Inv i c st ->
     exists c' st',
       iteration force (cursor_at i) c st
       = (Normal (bool_decide (S i < length (Store.db (world st)))%nat,
                  cursor_at (if bool_decide (S i < length (Store.db (world st)))%nat
                             then S i else O),
                  c'), st')
       /\ Inv (S i) c' st'
       /\ length (Store.db (world st')) = length (Store.db (world st))) ->
  forall fuel i c st,
    Inv i c st ->
    (length (Store.db (world st)) <= i + fuel)%nat -> (1 <= fuel)%nat ->
    exists c' st' k,
      while_hasMore (iteration force) fuel true (cursor_at i) c st
      = Some (Normal c', st')
      /\ Inv k c' st'
      /\ (length (Store.db (world st')) <= k)%nat.
Proof.
  intros Hstep. induction fuel as [|fuel IH]; intros i c st HInv Hlen Hfuel;
    [lia|].
  destruct (Hstep i c st HInv) as (c' & st' & Hit & HInv' & Hsame).
  cbn [while_hasMore]. rewrite Hit.
  destruct (bool_decide (S i < length (Store.db (world st)))%nat) eqn:Hmore.
  - apply bool_decide_eq_true in Hmore.
    apply (IH (S i) c' st' HInv'); lia.
  - apply bool_decide_eq_false in Hmore.
    exists c', st', (S i). split; [by destruct fuel|]. split; [done|lia].
Qed.

Lemma index_of_cursor_at i : Store.index_of (cursor_at i) = i.
Proof. destruct i; [done|]. cbn. by rewrite length_replicate. Qed.

Lemma length_concat_map_map (g : page -> page) rows :
  length (concat (map (map g) rows)) = length (concat rows).
Proof.
  induction rows as [|row rows IH]; [done|]. cbn.
  by rewrite !length_app, length_map, IH.
Qed.

Lemma elem_of_concat_map_map (g : page -> page) rows d' :
  d' ∈ concat (map (map g) rows) -> exists d, d' = g d /\ d ∈ concat rows.
Proof.
  induction rows as [|row rows IH]; cbn; [by intros ?%elem_of_nil|].
  rewrite elem_of_app. intros [Hin|Hin].
  - apply list_elem_of_fmap in Hin as (d & -> & Hd). exists d.
    split; [done|]. apply elem_of_app. by left.
  - destruct (IH Hin) as (d & -> & Hd). exists d.
    split; [done|]. apply elem_of_app. by right.
Qed.

Lemma first_run_step w0 i c st :
  first_run w0 i c st ->
  exists c' st',
    iteration false (cursor_at i) c st
    = (Normal (bool_decide (S i < length (Store.db (world st)))%nat,
               cursor_at (if bool_decide (S i < length (Store.db (world st)))%nat
                          then S i else O),
               c'), st')
    /\ first_run w0 (S i) c' st'
    /\ length (Store.db (world st')) = length (Store.db (world st)).
Proof.
  intros ((rows & Hw & Hrows & Hrecords) & Hsettled & Hids & Hread).
  rewrite store_iteration. cbv zeta. rewrite index_of_cursor_at, Hw.
  cbn [with_db Store.db].
  set (ss := default [] (rows !! i)).
  assert (Forall readable ss) as Hss0.
  { subst ss. rewrite Hw in Hread. cbn [with_db Store.db] in Hread.
    destruct (rows !! i) as [row|] eqn:Hrow; [|constructor].
    by eapply Forall_lookup_1 in Hread. }
  destruct (store_for_of_first ss ss c
              (mk_state (with_db w0 rows)
                 (trace st ++ [EvQuery (cursor_at i);
                               EvLog (MsgProcessingBatch (length ss))]) st) Hss0)
    as (c' & g & evs & Hfor & Hg & Hss & Hnew);
    [apply Forall2_same_length_lookup_2; [done|];
     intros ? ? ? ? ?; simplify_eq; apply filled_from_refl|].
  rewrite Hfor. cbn [world trace mk_state] in *. rewrite Hw in *.
  cbn [with_db Store.db] in *. exists c'. eexists.
  split; [|split; [unfold first_run; split_and!|]].
  - assert (forall b : bool,
              (if b then Some (Store.cursor_of (S i)) else None)
              = cursor_at (if b then S i else O)) as -> by (by intros []).
    reflexivity.
  - cbn [world mk_state with_db Store.db]. exists (map (map g) rows).
    split_and!; [done|by rewrite length_map|by rewrite length_concat_map_map].
  - cbn [world mk_state with_db Store.db].
    destruct (rows !! i) as [row|] eqn:Hrow.
    + rewrite (take_S_r _ _ (map g row)) by (by rewrite list_lookup_fmap, Hrow).
      apply Forall_app. split.
      * rewrite <- fmap_take. apply Forall_fmap.
        eapply Forall_impl; [|exact Hsettled]. intros row' Hrow'. cbn.
        apply Forall_fmap. eapply Forall_impl; [|exact Hrow'].
        intros d Hd. cbn. eapply settled_filled; [exact Hd|apply Hg].
      * constructor; [|constructor]. subst ss. exact Hss.
    + apply lookup_ge_None in Hrow. rewrite take_ge by (rewrite length_map; lia).
      rewrite take_ge in Hsettled by lia.
      apply Forall_fmap. eapply Forall_impl; [|exact Hsettled]. intros row' Hrow'.
      cbn. apply Forall_fmap. eapply Forall_impl; [|exact Hrow'].
      intros d Hd. cbn. eapply settled_filled; [exact Hd|apply Hg].
  - cbn [world trace mk_state with_db Store.db].
    intros d' (d & -> & Hd)%elem_of_concat_map_map.
    rewrite (filled_from_id d (g d)) by apply Hg.
    rewrite !updated_ids_app. cbn [app]. rewrite !elem_of_app.
    intros [[[Hin|Hin]|Hin]|Hin].
    + eapply filled_from_pages; [apply Hg|]. by apply Hids.
    + by apply elem_of_nil in Hin.
    + by apply Hnew.
    + by apply elem_of_nil in Hin.
  - cbn [world mk_state with_db Store.db].
    apply Forall_fmap. eapply Forall_impl; [|exact Hread]. intros row Hrow.
    cbn. apply Forall_fmap. eapply Forall_impl; [|exact Hrow].
    intros d Hd. cbn. eapply filled_from_readable; [apply Hg|exact Hd].
  - cbn [world mk_state with_db Store.db]. by rewrite length_map.
Qed.

Lemma elem_of_concat_lookup (rows : list (list page)) i row s :
  rows !! i = Some row -> s ∈ row -> s ∈ concat rows.
Proof.
  revert i. induction rows as [|r rows IH]; intros [|i] Hrow Hs; try done;
    cbn in *; apply elem_of_app.
  - left. by simplify_eq.
  - right. by eapply IH.
Qed.

Lemma second_run_step w1 i c st :
  Forall (Forall readable) (Store.db w1) ->
  Forall (Forall (settled w1)) (Store.db w1) ->
  second_run w1 i c st ->
  exists c' st',
    iteration false (cursor_at i) c st
    = (Normal (bool_decide (S i < length (Store.db (world st)))%nat,
               cursor_at (if bool_decide (S i < length (Store.db (world st)))%nat
                          then S i else O),
               c'), st')
    /\ second_run w1 (S i) c' st'
    /\ length (Store.db (world st')) = length (Store.db (world st)).
Proof.
  intros Hread Hall (Hw & Hu & Hf & Hsum & Hreqs).
  rewrite store_iteration. cbv zeta. rewrite index_of_cursor_at, Hw.
  set (ss := default [] (Store.db w1 !! i)).
  assert (Forall readable ss) as Hss0.
  { subst ss. destruct (Store.db w1 !! i) as [row|] eqn:Hrow; [|constructor].
    by eapply Forall_lookup_1 in Hread. }
  assert (Forall (settled w1) ss) as Hss.
  { subst ss. destruct (Store.db w1 !! i) as [row|] eqn:Hrow; [|constructor].
    by eapply Forall_lookup_1 in Hall. }
  destruct (store_for_of_second ss c
              (mk_state w1
                 (trace st ++ [EvQuery (cursor_at i);
                               EvLog (MsgProcessingBatch (length ss))]) st)
              Hss0 Hss)
    as (c' & evs & Hfor & Hu' & Hf' & Hsum' & Hreqs').
  rewrite Hfor. cbn [world trace mk_state] in *. exists c'. eexists.
  split; [|split; [unfold second_run; split_and!|]].
  - assert (forall b : bool,
              (if b then Some (Store.cursor_of (S i)) else None)
              = cursor_at (if b then S i else O)) as -> by (by intros []).
    reflexivity.
  - done.
  - congruence.
  - congruence.
  - unfold left_alone in *. rewrite Hsum', Hsum. subst ss.
    destruct (Store.db w1 !! i) as [row|] eqn:Hrow.
    + rewrite (take_S_r _ _ row) by done.
      rewrite concat_app, length_app. cbn. by rewrite app_nil_r.
    + apply lookup_ge_None in Hrow. rewrite !take_ge by lia. cbn. lia.
  - cbn [trace mk_state]. rewrite !updates_issued_app. cbn [updates_issued omap list_omap app].
    rewrite !app_nil_r. apply Forall_app. split; [done|].
    eapply Forall_impl; [|exact Hreqs']. intros req (? & s & Hs & ? & ?).
    split; [done|]. exists s. split; [|done]. subst ss.
    destruct (Store.db w1 !! i) as [row|] eqn:Hrow; [|by apply elem_of_nil in Hs].
    by eapply elem_of_concat_lookup.
  - done.
Qed.

End BackfillFacts.

(** C3. Against a database whose answers depend on its state only
    (the same listing on every run, the same answer of OpenLibrary to
    the same lookup, the same update requests refused) and whose records
    have titles that can be read, with the state left by the first run
    untouched, a second run of the page-count
    backfill without the force flag updates nothing: both runs end
    normally, the second leaves the database as the first left it,
    counts no record as updated or force updated and every record as
    skipped, missing an ISBN or failed, and issues no update request
    other than ones the database refuses; in particular none for a
    record whose page count the first run wrote. *)
Theorem backfill_twice_updates_nothing (w : Store.world) (fuel : nat) :
  Forall (Forall readable) (Store.db w) ->
  (length (Store.db w) <= fuel)%nat -> (1 <= fuel)%nat ->
  exists c1 st1 c2 st2,
    UpdateTotalPages.pagination false fuel (initial w) = Some (Normal c1, st1)
    /\ UpdateTotalPages.pagination false fuel (initial (world st1))
       = Some (Normal c2, st2)
    /\ world st2 = world st1
    /\ UpdateTotalPages.totalUpdated c2 = O
    /\ UpdateTotalPages.totalForceUpdated c2 = O
    /\ Backfill.left_alone c2 = length (concat (Store.db w))
    /\ Forall (fun req =>
                 Store.accepted w req = false
                 /\ upd_page_id req ∉ Backfill.updated_ids w (trace st1))
         (updates_issued (trace st2)).
Proof.
  intros Hreadable Hlen Hfuel. unfold UpdateTotalPages.pagination.
  destruct (BackfillFacts.store_while false (Backfill.first_run w)
              (BackfillFacts.first_run_step w) fuel O UpdateTotalPages.zero
              (UpdateTotalPages.start false (initial w)).2)
    as (c1 & st1 & k1 & Hrun1
        & ((rows & Hw1 & Hrows & Hrecords) & Hsettled & Hids & Hread1)
        & Hk1); [|done|done|].
  { split_and!.
    - exists (Store.db w). by rewrite BackfillFacts.with_db_same.
    - constructor.
    - by intros d _ ?%elem_of_nil.
    - exact Hreadable. }
  rewrite Hw1 in Hsettled, Hids, Hk1. cbn [Backfill.with_db Store.db] in *.
  rewrite take_ge in Hsettled by done.
  assert (Forall (Forall (Backfill.settled (world st1))) (Store.db (world st1)))
    as Hall by (rewrite Hw1; exact Hsettled).
  destruct (BackfillFacts.store_while false (Backfill.second_run (world st1))
              (fun i c st =>
                 BackfillFacts.second_run_step (world st1) i c st Hread1 Hall)
              fuel O UpdateTotalPages.zero
              (UpdateTotalPages.start false (initial (world st1))).2)
    as (c2 & st2 & k2 & Hrun2 & (Hw2 & Hu & Hf & Hsum & Hreqs) & Hk2).
  { by split_and!. }
  { cbn. rewrite Hw1. cbn. lia. }
  { done. }
  exists c1, st1, c2, st2. rewrite Hw2 in Hk2.
  rewrite Hw1 in Hsum, Hreqs, Hk2. cbn [Backfill.with_db Store.db] in *.
  rewrite take_ge in Hsum by done.
  split_and!; try done; [congruence|].
  eapply Forall_impl; [|exact Hreqs]. intros req (Hacc & s & Hs & Hid & Hpages).
  split; [exact Hacc|]. intros Hin. rewrite Hid in Hin.
  by rewrite (Hids s Hs Hin) in Hpages.
Qed.

Lemma backfill_twice_updates_nothing_witness :
  exists c1 st1 c2 st2,
    UpdateTotalPages.pagination false 2 (initial Examples.shelf)
    = Some (Normal c1, st1)
    /\ UpdateTotalPages.pagination false 2 (initial (world st1))
       = Some (Normal c2, st2)
    /\ world st2 = world st1
    /\ UpdateTotalPages.totalUpdated c2 = O
    /\ UpdateTotalPages.totalForceUpdated c2 = O
    /\ Backfill.left_alone c2 = length (concat (Store.db Examples.shelf))
    /\ Forall (fun req =>
                 Store.accepted Examples.shelf req = false
                 /\ upd_page_id req
                    ∉ Backfill.updated_ids Examples.shelf (trace st1))
         (updates_issued (trace st2)).
Proof.
  apply (backfill_twice_updates_nothing Examples.shelf 2);
    [repeat constructor; by eexists|cbn; lia|cbn; lia].
Defined.

(** * Further properties of the scripts *)

(** ** The CSV row parser: what the fields hold *)

Lemma fields_spec_no_quote inQuotes line :
  (ch_quote ∉ (fields_spec inQuotes line).1)
  /\ Forall (fun f => ch_quote ∉ f) (fields_spec inQuotes line).2.
Proof.
  revert inQuotes. induction line as [|char rest IH]; intros inQuotes; simpl.
  - split; [apply not_elem_of_nil|constructor].
  - destruct (char =? ch_quote) eqn:Hq; [apply IH|].
    specialize (IH inQuotes).
    destruct ((char =? ch_comma) && negb inQuotes);
      destruct (fields_spec inQuotes rest) as [f fs]; simpl in *.
    + split; [apply not_elem_of_nil|]. constructor; tauto.
    + split; [|tauto]. apply not_elem_of_cons. split; [|tauto].
      apply N.eqb_neq in Hq. congruence.
Qed.

(** X1. No field [parseCSVLine] returns holds a double quote: the quotes of
    the line are dropped, also the ones a spreadsheet doubles to escape
    a quote inside a quoted field. *)
Theorem parseCSVLine_fields_hold_no_quote (line : jstr) :
  Forall (fun field => ch_quote ∉ field) (parseCSVLine line).
Proof.
  unfold parseCSVLine. rewrite parseCSVLine_loop_spec. cbn [app].
  destruct (fields_spec_no_quote false line) as [H1 H2]. by constructor.
Qed.

Lemma join_cons_field (c : N) (f : jstr) (fs : list jstr) :
  (join [ch_comma] ((c :: f) :: fs)) = (c :: join [ch_comma] (f :: fs)).
Proof. by destruct fs. Qed.

Lemma fields_spec_join line :
  ch_quote ∉ line ->
  join [ch_comma] ((fields_spec false line).1 :: (fields_spec false line).2) = line.
Proof.
  induction line as [|char rest IH]; intros Hq; [done|].
  apply not_elem_of_cons in Hq as [Hchar Hrest]. specialize (IH Hrest).
  cbn [fields_spec]. apply not_eq_sym, N.eqb_neq in Hchar. rewrite Hchar.
  destruct (char =? ch_comma) eqn:Hc; cbn [andb negb].
  - apply N.eqb_eq in Hc as ->.
    destruct (fields_spec false rest) as [f fs]. cbn [fst snd] in *.
    change (join [ch_comma] ([] :: f :: fs))
      with ([] ++ [ch_comma] ++ join [ch_comma] (f :: fs)).
    by rewrite IH.
  - destruct (fields_spec false rest) as [f fs]. cbn [fst snd] in *.
    by rewrite join_cons_field, IH.
Qed.

(** X2. On a line without double quotes the parser loses nothing: joining
    the fields with commas gives the line back. *)
Theorem parseCSVLine_join_restores_line (line : jstr) :
  ch_quote ∉ line ->
  join [ch_comma] (parseCSVLine line) = line.
Proof.
  intros Hq. unfold parseCSVLine. rewrite parseCSVLine_loop_spec.
  cbn [app]. by apply fields_spec_join.
Qed.

Lemma parseCSVLine_join_restores_line_witness :
  join [ch_comma] (parseCSVLine (lit "Dune,,9780441172719 "))
  = lit "Dune,,9780441172719 ".
Proof.
  apply parseCSVLine_join_restores_line.
  apply (bool_decide_unpack (ch_quote ∉ lit "Dune,,9780441172719 ")).
  reflexivity.
Defined.

(** ** The failure log *)

Lemma split_on_plain sep s : sep ∉ s -> split_on sep s = [s].
Proof.
  induction s as [|c s IH]; intros Hs; [done|].
  apply not_elem_of_cons in Hs as [Hc Hs]. cbn.
  apply not_eq_sym, N.eqb_neq in Hc. by rewrite Hc, IH.
Qed.

Lemma split_on_app sep s rest :
  sep ∉ s -> split_on sep (s ++ sep :: rest) = s :: split_on sep rest.
Proof.
  induction s as [|c s IH]; intros Hs; cbn.
  - by rewrite N.eqb_refl.
  - apply not_elem_of_cons in Hs as [Hc Hs].
    apply not_eq_sym, N.eqb_neq in Hc. by rewrite Hc, IH.
Qed.

Lemma split_on_join sep (l : list jstr) :
  l <> [] -> Forall (fun s => sep ∉ s) l -> split_on sep (join [sep] l) = l.
Proof.
  induction l as [|s l IH]; intros Hne Hl; [done|].
  inversion Hl as [|? ? Hs Hl']; subst. destruct l as [|s' l].
  - cbn. by apply split_on_plain.
  - change (join [sep] (s :: s' :: l)) with (s ++ [sep] ++ join [sep] (s' :: l)).
    cbn [app]. rewrite split_on_app by done. by rewrite IH.
Qed.

Lemma replace_chars_clean class by_ s c :
  c ∈ class -> c <> by_ -> c ∉ replace_chars class by_ s.
Proof.
  intros Hc Hby Hin. unfold replace_chars in Hin.
  apply list_elem_of_fmap in Hin as (x & Hx & _).
  destruct (bool_decide (x ∈ class)) eqn:Hclass; [done|].
  apply bool_decide_eq_false in Hclass. by subst.
Qed.

Section failure_log.
Context {W : Type} `{!NotionCreate W, !OpenLibrary W, !Node W}.

(** [saveFailedIsbns] by the answers of the clock and the file system. *)
Lemma saveFailedIsbns_eq (st : state W) :
  ImportBooks.saveFailedIsbns st
  = match failedIsbns st with
    | [] => (Normal tt, st)
    | _ =>
        match Date_toISOString (world st) with
        | (iso, w1) =>
            let failedFile :=
              lit "failed-isbns-"
              ++ replace_chars [ch_colon; ch_period] ch_hyphen iso ++ lit ".txt" in
            let content := join [ch_newline] (failedIsbns st) in
            match fs_writeFile failedFile content w1 with
            | (Normal _, w2) =>
                (Normal tt,
                 mk_state w2
                   (trace st
                    ++ [EvWriteFile failedFile content;
                        EvLog (MsgFailedSaved (length (failedIsbns st)) failedFile)])
                   st)
            | (Throw e, w2) =>
                (Throw e,
                 mk_state w2 (trace st ++ [EvWriteFile failedFile content]) st)
            end
        end
    end.
Proof.
  unfold ImportBooks.saveFailedIsbns, ImportBooks.now. run_script.
  destruct (failedIsbns st) as [|id ids] eqn:Hfailed; [by destruct st|].
  cbn [length bool_decide decide_rel]. rewrite bool_decide_eq_true_2 by (cbn; lia).
  destruct (Date_toISOString (world st)) as [iso w1]. cbn.
  destruct (fs_writeFile _ _ w1) as [[[]|e] w2]; cbn; unfold mk_state;
    rewrite ?Hfailed, <- ?app_assoc; reflexivity.
Qed.

End failure_log.

Lemma filter_all_true {A} (p : A -> bool) (l : list A) :
  Forall (fun x => p x = true) l -> List.filter p l = l.
Proof.
  induction 1 as [|x l Hx _ IH]; [done|]. cbn. by rewrite Hx, IH.
Qed.

(** X3. When identifiers have failed, [saveFailedIsbns] writes one file.  Its
    name embeds the timestamp with every colon and period replaced, and
    its content, read the way [processISBNFile] reads a file of
    identifiers (split into lines, blank lines dropped), is the list of
    failed identifiers again, provided none of them is blank or holds a
    line break; the list itself is not cleared. *)
Theorem failure_file_reads_back {W} `{!NotionCreate W, !OpenLibrary W, !Node W}
    (st : state W) :
  failedIsbns st <> [] ->
  Forall (fun isbn => (ch_newline ∉ isbn) /\ truthy_str (Some (js_trim isbn)) = true)
    (failedIsbns st) ->
  let res := ImportBooks.saveFailedIsbns st in
  exists stamp content rest,
    trace res.2
    = trace st
      ++ EvWriteFile (lit "failed-isbns-" ++ stamp ++ lit ".txt") content :: rest
    /\ (ch_colon ∉ stamp) /\ (ch_period ∉ stamp)
    /\ List.filter (fun isbn => truthy_str (Some (js_trim isbn)))
         (split_on ch_newline content)
       = failedIsbns st
    /\ failedIsbns res.2 = failedIsbns st.
Proof.
  intros Hne Hids. cbv zeta. rewrite saveFailedIsbns_eq.
  destruct (failedIsbns st) as [|id ids] eqn:Hfailed; [done|].
  destruct (Date_toISOString (world st)) as [iso w1]. cbv zeta.
  assert (List.filter (fun isbn => truthy_str (Some (js_trim isbn)))
            (split_on ch_newline (join [ch_newline] (id :: ids))) = id :: ids)
    as Hback.
  { rewrite split_on_join; [|done|].
    - apply filter_all_true. eapply Forall_impl; [|exact Hids]. by intros ? [_ ?].
    - eapply Forall_impl; [|exact Hids]. by intros ? [? _]. }
  exists (replace_chars [ch_colon; ch_period] ch_hyphen iso),
    (join [ch_newline] (id :: ids)).
  destruct (fs_writeFile _ _ w1) as [[[]|e] w2]; eexists;
    cbn [snd trace failedIsbns mk_state];
    (split; [reflexivity|]);
    (split; [apply replace_chars_clean; [repeat constructor|done]|]);
    (split; [apply replace_chars_clean; [repeat constructor|done]|]);
    (split; [exact Hback|exact Hfailed]).
Qed.

Lemma failure_file_reads_back_witness :
  exists stamp content rest,
    trace (ImportBooks.saveFailedIsbns Examples.two_failed).2
    = trace Examples.two_failed
      ++ EvWriteFile (lit "failed-isbns-" ++ stamp ++ lit ".txt") content :: rest
    /\ (ch_colon ∉ stamp) /\ (ch_period ∉ stamp)
    /\ List.filter (fun isbn => truthy_str (Some (js_trim isbn)))
         (split_on ch_newline content)
       = failedIsbns Examples.two_failed
    /\ failedIsbns (ImportBooks.saveFailedIsbns Examples.two_failed).2
       = failedIsbns Examples.two_failed.
Proof.
  apply (failure_file_reads_back Examples.two_failed).
  - discriminate.
  - repeat constructor;
      try (apply (bool_decide_unpack _); reflexivity).
Defined.

(** ** The lookup of import.js *)

(** X4. [fetchBookInfo] never throws and issues exactly one request, for the
    URL of the identifier.  It returns [null] exactly when it appends
    the identifier to the failed identifiers; a record it returns
    carries the identifier it was asked for and a page count that is
    either [null] or truthy (a count of zero is turned into [null]). *)
Theorem fetchBookInfo_null_iff_recorded {W}
    `{!NotionCreate W, !OpenLibrary W, !Node W} (identifier : jstr) (st : state W) :
  let res := ImportBooks.fetchBookInfo identifier st in
  exists result,
    res.1 = Normal result
    /\ lookups_issued (trace res.2)
       = lookups_issued (trace st) ++ [openlibrary_url identifier]
    /\ (result = None <-> failedIsbns res.2 = failedIsbns st ++ [identifier])
    /\ (forall info,
          result = Some info ->
          failedIsbns res.2 = failedIsbns st
          /\ isbn info = identifier
          /\ (numberOfPages info = VNull \/ truthy (numberOfPages info) = true)).
Proof.
  cbv zeta. rewrite fetchBookInfo_eq. cbv zeta.
  destruct (http_get _ (world st)) as [out w].
  destruct (ImportBooks.book_info identifier out) as [info|e] eqn:Hinfo;
    eexists; (split; [reflexivity|]); cbn [snd trace failedIsbns mk_state];
    rewrite lookups_issued_app; cbn; (split; [reflexivity|]).
  - split.
    + split; [done|]. intros H. symmetry in H. by apply app_singleton_neq in H.
    + intros info' [= <-]. split; [done|]. by eapply book_info_fields.
  - split; [done|]. intros info' [=].
Qed.

(** ** Trimming *)

Lemma drop_whitespace_idemp s : drop_whitespace (drop_whitespace s) = drop_whitespace s.
Proof.
  induction s as [|c s IH]; [done|]. cbn.
  destruct (is_whitespace c) eqn:Hc; [done|]. cbn. by rewrite Hc.
Qed.

Lemma drop_whitespace_head s c r :
  drop_whitespace s = c :: r -> is_whitespace c = false.
Proof.
  induction s as [|c' s IH]; [done|]. cbn.
  destruct (is_whitespace c') eqn:Hc; [done|]. by intros [= <- <-].
Qed.

Lemma drop_whitespace_snoc l c :
  is_whitespace c = false -> drop_whitespace (l ++ [c]) = drop_whitespace l ++ [c].
Proof.
  intros Hc. induction l as [|c' l IH]; cbn; [by rewrite Hc|].
  by destruct (is_whitespace c').
Qed.

Lemma drop_whitespace_elem x s : x ∈ drop_whitespace s -> x ∈ s.
Proof.
  induction s as [|c s IH]; [done|]. cbn.
  destruct (is_whitespace c); [|done]. intros H. right. by apply IH.
Qed.

Lemma elem_of_rev (x : N) l : x ∈ rev l <-> x ∈ l.
Proof. rewrite !list_elem_of_In. symmetry. apply in_rev. Qed.

Lemma js_trim_elem x s : x ∈ js_trim s -> x ∈ s.
Proof.
  unfold js_trim. rewrite elem_of_rev. intros H%drop_whitespace_elem.
  apply (proj1 (elem_of_rev _ _)) in H. by apply drop_whitespace_elem.
Qed.

(** Trimming leaves nothing to trim. *)
Lemma js_trim_idemp s : js_trim (js_trim s) = js_trim s.
Proof.
  unfold js_trim. destruct (drop_whitespace s) as [|c a] eqn:Ha; [done|].
  pose proof (drop_whitespace_head _ _ _ Ha) as Hc.
  assert (rev (drop_whitespace (rev (c :: a)))
          = c :: rev (drop_whitespace (rev a))) as Ht.
  { cbn [rev]. rewrite drop_whitespace_snoc by done. by rewrite rev_unit. }
  rewrite Ht. cbn [drop_whitespace]. rewrite Hc, <- Ht.
  by rewrite rev_involutive, drop_whitespace_idemp.
Qed.

Lemma remove_chars_elem class s c : c ∈ class -> c ∉ remove_chars class s.
Proof.
  intros Hc Hin. unfold remove_chars in Hin.
  apply list_elem_of_In, filter_In in Hin as [_ Hin].
  apply negb_true_iff, bool_decide_eq_false in Hin. done.
Qed.

Lemma identifier_cell_normalised index values s :
  ImportBooks.identifier_cell index values = Some s -> normalised s.
Proof.
  unfold ImportBooks.identifier_cell.
  destruct (ImportBooks.cell index values) as [v|]; [|done].
  destruct (js_trim (remove_chars [ch_equals; ch_quote] v)) as [|c t] eqn:Ht;
    [done|]. intros [= <-]. rewrite <- Ht. split_and!.
  - by rewrite Ht.
  - intros Hin%js_trim_elem. revert Hin. apply remove_chars_elem. repeat constructor.
  - intros Hin%js_trim_elem. revert Hin. apply remove_chars_elem. repeat constructor.
  - apply js_trim_idemp.
Qed.

(** ** Rows of a spreadsheet export *)

Section rows.
Context {W : Type} `{!NotionCreate W, !OpenLibrary W, !Node W}.

Lemma read_row_step isbnIndex isbn13Index titleIndex line books (st : state W) :
  exists books' log,
    ImportBooks.read_row isbnIndex isbn13Index titleIndex line books st
    = (Normal books', mk_state (world st) (trace st ++ log) st)
    /\ Forall (fun e => is_network e = false) log
    /\ (books' = books \/ exists b, books' = books ++ [b] /\ has_identifier b).
Proof.
  unfold ImportBooks.read_row.
  destruct (negb (truthy_str (Some (js_trim line)))).
  { exists books, []. rewrite app_nil_r. split; [by destruct st|].
    split; [constructor|by left]. }
  destruct (truthy_str (ImportBooks.identifier_cell isbn13Index _)
            || truthy_str (ImportBooks.identifier_cell isbnIndex _)) eqn:Hid.
  - eexists _, []. rewrite app_nil_r. split; [by destruct st|].
    split; [constructor|]. right. eexists. split; [reflexivity|].
    split_and!; cbn.
    + unfold ImportBooks.candidates. cbn.
      destruct (truthy_str (ImportBooks.identifier_cell isbn13Index _));
        [done|]. cbn in Hid. by rewrite Hid.
    + intros s. apply identifier_cell_normalised.
    + intros s. apply identifier_cell_normalised.
  - eexists _, [_]. split; [reflexivity|]. split; [by repeat constructor|by left].
Qed.

Lemma read_rows isbnIndex isbn13Index titleIndex lines :
  forall books (st : state W),
    Forall has_identifier books ->
    exists books' log,
      for_of lines (ImportBooks.read_row isbnIndex isbn13Index titleIndex) books st
      = (Normal books', mk_state (world st) (trace st ++ log) st)
      /\ Forall (fun e => is_network e = false) log
      /\ Forall has_identifier books'
      /\ (length books' <= length books + length lines)%nat.
Proof.
  induction lines as [|line lines IH]; intros books st Hbooks.
  - exists books, []. rewrite app_nil_r. cbn.
    split; [by destruct st|]. split; [constructor|]. split; [done|lia].
  - cbn [for_of]. unfold bind at 1.
    destruct (read_row_step isbnIndex isbn13Index titleIndex line books st)
      as (books1 & log1 & -> & Hlog1 & Hcase).
    assert (Forall has_identifier books1
            /\ (length books1 <= S (length books))%nat) as [Hbooks1 Hlen1].
    { destruct Hcase as [->|(b & -> & Hb)]; [split; [done|lia]|].
      split; [apply Forall_app; split; [done|by constructor]|].
      rewrite length_app. cbn. lia. }
    destruct (IH books1 (mk_state (world st) (trace st ++ log1) st) Hbooks1)
      as (books' & log2 & -> & Hlog2 & Hbooks' & Hlen).
    exists books', (log1 ++ log2). cbn [world trace mk_state].
    split; [by rewrite app_assoc|]. split; [by apply Forall_app|].
    split; [done|]. cbn [length]. lia.
Qed.

End rows.

(** X5. Reading the rows of a spreadsheet export touches nothing outside the
    console: the world is left as it is and no request is issued.  Every
    book it keeps for processing has at least one identifier to look up,
    and each identifier kept is normalised (not empty, no equals sign or
    double quote, no white space at either end); there are at most as
    many books as rows. *)
Theorem rows_to_process_have_identifiers {W}
    `{!NotionCreate W, !OpenLibrary W, !Node W}
    isbnIndex isbn13Index titleIndex (lines : list jstr) (st : state W) :
  exists booksToProcess log,
    for_of lines (ImportBooks.read_row isbnIndex isbn13Index titleIndex) [] st
    = (Normal booksToProcess, mk_state (world st) (trace st ++ log) st)
    /\ Forall (fun e => is_network e = false) log
    /\ Forall has_identifier booksToProcess
    /\ (length booksToProcess <= length lines)%nat.
Proof.
  destruct (read_rows isbnIndex isbn13Index titleIndex lines [] st)
    as (books & log & Heq & Hlog & Hbooks & Hlen); [constructor|].
  exists books, log. by split_and!.
Qed.

(** ** Pacing of the loops that keep it *)

Lemma extends_refl (t : list event) : exists evs, t = t ++ evs.
Proof. exists []. by rewrite app_nil_r. Qed.

Lemma extends_app (t0 t l : list event) :
  (exists evs, t = t0 ++ evs) -> exists evs, t ++ l = t0 ++ evs.
Proof. intros [evs ->]. exists (evs ++ l). by rewrite app_assoc. Qed.

Lemma ends_with_sleep ms (t0 t : list event) :
  (exists evs, t = t0 ++ evs) ->
  exists evs, t ++ [EvSleep ms] = t0 ++ evs /\ paced ms evs = true.
Proof.
  intros [evs ->]. exists (evs ++ [EvSleep ms]).
  split; [by rewrite app_assoc|apply paced_ends_with_sleep].
Qed.

Ltac import_step :=
  rewrite ?fetchBookInfo_eq, ?addBookToNotion_eq; cbv zeta;
  cbn [fst snd world trace failedIsbns mk_state];
  match goal with
  | |- context [http_get ?u ?w] =>
      let out := fresh "out" in let w' := fresh "w" in
      destruct (http_get u w) as [out w']
  | |- context [ImportBooks.book_info ?i ?o] =>
      let E := fresh "Hinfo" in
      destruct (ImportBooks.book_info i o) eqn:E
  | |- context [pages_create ?r ?w] =>
      let w' := fresh "w" in
      destruct (pages_create r w) as [[[]|?] w']
  end;
  cbn [fst snd world trace failedIsbns mk_state is_none negb andb].

(** X6. In update-icons.js, for a record whose title can be read, and
    in the two loops of import.js, for every line and every book, the
    record keeps the pace of its loop: it does not throw, and when it
    issued a request (an update, a lookup or a create), a suspension of
    250ms, respectively 1000ms, follows the last of them before the next
    record is processed. *)
Theorem records_keep_the_pace {W}
    `{!Notion W, !NotionCreate W, !OpenLibrary W, !Node W} :
  (forall (page : page) c (st : state W),
     readable page ->
     exists c' evs,
       (UpdateIcons.process_record page c st).1 = Normal c'
       /\ trace (UpdateIcons.process_record page c st).2 = trace st ++ evs
       /\ paced 250 evs = true)
  /\ (forall isbn books (st : state W),
        exists books' evs,
          (ImportBooks.process_line isbn books st).1 = Normal books'
          /\ trace (ImportBooks.process_line isbn books st).2 = trace st ++ evs
          /\ paced 1000 evs = true)
  /\ (forall (b : ImportBooks.book) successful (st : state W),
        exists successful' evs,
          (ImportBooks.process_book b successful st).1 = Normal successful'
          /\ trace (ImportBooks.process_book b successful st).2 = trace st ++ evs
          /\ paced 1000 evs = true).
Proof.
  split; [|split].
  - intros page c st [title Htitle].
    destruct (truthy_str (UpdateIcons.status_name page)) eqn:Hs.
    2:{ rewrite (UpdateIconsFacts.process_record_no_status page title) by done.
        by eexists _, [_]. }
    destruct (strict_equals (UpdateIcons.currentEmoji page)
                (UpdateIcons.expectedEmoji
                   (default [] (UpdateIcons.status_name page)))) eqn:He.
    { rewrite (UpdateIconsFacts.process_record_skip page title) by done.
      by eexists _, [_]. }
    rewrite (UpdateIconsFacts.process_record_update page title) by done.
    cbv zeta.
    destruct (pages_update _ (world st)) as [[[]|e] w]; by eexists _, [_; _; _].
  - intros isbn books st. unfold ImportBooks.process_line. run_script.
    repeat import_step.
    all: cbn [fst snd trace];
      match goal with
      | |- context [?t ++ [EvSleep 1000]] =>
          destruct (ends_with_sleep 1000 (trace st) t) as (evs & Ht & Hp);
            [repeat apply extends_app; apply extends_refl|];
            eexists _, evs; split; [reflexivity|]; split; [exact Ht|exact Hp]
      end.
  - intros b successful st. unfold ImportBooks.process_book.
    destruct (truthy_str (ImportBooks.book_isbn13 b));
      destruct (truthy_str (ImportBooks.book_isbn b));
      run_script; cbn [negb andb app is_none].
    all: repeat import_step.
    all: cbn [is_none andb].
    all: repeat import_step.
    all: cbn [fst snd trace];
      match goal with
      | |- context [?t ++ [EvSleep 1000]] =>
          destruct (ends_with_sleep 1000 (trace st) t) as (evs & Ht & Hp);
            [repeat apply extends_app; apply extends_refl|];
            eexists _, evs; split; [reflexivity|]; split; [exact Ht|exact Hp]
      end.
Qed.

Lemma records_keep_the_pace_witness :
  exists c' evs,
    (UpdateIcons.process_record Examples.reading
       {| UpdateIcons.totalUpdated := 0; UpdateIcons.totalSkipped := 0 |}
       (initial Examples.one_refused)).1 = Normal c'
    /\ trace (UpdateIcons.process_record Examples.reading
                {| UpdateIcons.totalUpdated := 0; UpdateIcons.totalSkipped := 0 |}
                (initial Examples.one_refused)).2
       = [] ++ evs
    /\ paced 250 evs = true.
Proof.
  exact (proj1 (records_keep_the_pace (W:=Script.world)) Examples.reading
           {| UpdateIcons.totalUpdated := 0; UpdateIcons.totalSkipped := 0 |}
           (initial Examples.one_refused) ltac:(by eexists)).
Defined.

(** ** A failing page query *)

Lemma icons_iteration_script_throw cur c (st : state Script.world) e qs :
  Script.queries (world st) = Throw e :: qs ->
  UpdateIcons.iteration cur c st
  = (Throw e,
     mk_state
       {| Script.queries := qs; Script.updates := Script.updates (world st);
          Script.creates := Script.creates (world st);
          Script.gets := Script.gets (world st);
          Script.reads := Script.reads (world st);
          Script.writes := Script.writes (world st);
          Script.clock := Script.clock (world st) |}
       (trace st ++ [EvQuery cur]) st).
Proof.
  intros Hq. unfold UpdateIcons.iteration. run_script.
  cbn [databases_query Script.notion]. unfold Script.next_query. by rewrite Hq.
Qed.

Lemma pages_iteration_script_throw force cur c (st : state Script.world) e qs :
  Script.queries (world st) = Throw e :: qs ->
  UpdateTotalPages.iteration force cur c st
  = (Throw e,
     mk_state
       {| Script.queries := qs; Script.updates := Script.updates (world st);
          Script.creates := Script.creates (world st);
          Script.gets := Script.gets (world st);
          Script.reads := Script.reads (world st);
          Script.writes := Script.writes (world st);
          Script.clock := Script.clock (world st) |}
       (trace st ++ [EvQuery cur]) st).
Proof.
  intros Hq. unfold UpdateTotalPages.iteration. run_script.
  cbn [databases_query Script.notion]. unfold Script.next_query. by rewrite Hq.
Qed.

Lemma last_cons_default {A} (l : list A) a d :
  List.last (a :: l) d = List.last l a.
Proof.
  revert a d. induction l as [|b l IH]; intros a d; [done|].
  change (List.last (a :: b :: l) d) with (List.last (b :: l) d).
  rewrite IH. symmetry. apply IH.
Qed.

(** The loop over pages that all report [has_more], followed by a query
    that throws: it ends with that exception, right after the query. *)
Lemma while_hasMore_script_abort {C}
    (body : option jstr -> C -> M Script.world (bool * option jstr * C)) :
  (forall cur c st r qs,
     Forall readable (results r) ->
     Script.queries (world st) = Normal r :: qs ->
     exists c' st',
       body cur c st = (Normal (has_more r, next_cursor r, c'), st')
       /\ Script.queries (world st') = qs
       /\ queries_issued (trace st') = queries_issued (trace st) ++ [cur]) ->
  (forall cur c st e qs,
     Script.queries (world st) = Throw e :: qs ->
     exists st',
       body cur c st = (Throw e, st')
       /\ Script.queries (world st') = qs
       /\ trace st' = trace st ++ [EvQuery cur]) ->
  forall earlier e rest fuel cur c st,
    Forall (fun r => has_more r = true) earlier ->
    Forall (fun r => Forall readable (results r)) earlier ->
    Script.queries (world st) = (Normal <$> earlier) ++ Throw e :: rest ->
    (length earlier < fuel)%nat ->
    exists st' t,
      while_hasMore body fuel true cur c st = Some (Throw e, st')
      /\ Script.queries (world st') = rest
      /\ trace st' = t ++ [EvQuery (List.last (next_cursor <$> earlier) cur)]
      /\ queries_issued (trace st')
         = queries_issued (trace st) ++ cur :: (next_cursor <$> earlier).
Proof.
  intros Hnormal Hthrow. induction earlier as [|r earlier IH];
    intros e rest fuel cur c st Hmore Hread Hq Hfuel;
    (destruct fuel as [|fuel]; [simpl in Hfuel; lia|]).
  - destruct (Hthrow cur c st e rest Hq) as (st' & Hb & Hw & Ht).
    exists st', (trace st). cbn [while_hasMore]. rewrite Hb.
    split_and!; [done|done|done|].
    rewrite Ht, queries_issued_app. done.
  - inversion Hmore as [|? ? Hr Hmore']; subst.
    inversion Hread as [|? ? Hhead Hread']; subst.
    destruct (Hnormal cur c st r _ Hhead Hq) as (c' & st1 & Hb & Hw & Ht).
    destruct (IH e rest fuel (next_cursor r) c' st1 Hmore' Hread' Hw)
      as (st' & t & Hl & Hw' & Ht' & Hq'); [simpl in Hfuel; lia|].
    exists st', t. cbn [while_hasMore]. rewrite Hb, Hr.
    split_and!; [done|done| |].
    + rewrite Ht'. rewrite fmap_cons. by rewrite last_cons_default.
    + rewrite Hq', Ht, <- app_assoc. done.
Qed.

(** X7. A page query that throws is fatal to both maintenance scripts.  When
    the remote answers N pages that report more pages, holding records
    whose titles can be read, and then fails, the run issues N+1 queries
    and stops: the exception is reported by the outer handler as the
    last thing the script does, directly after the failing query, no
    summary is printed, and no further answer of the remote is read. *)
Theorem failing_query_aborts_the_run
    (earlier : list response) (e : error) (rest : list (completion response))
    (w : Script.world) (fuel : nat) :
  Forall (fun r => has_more r = true) earlier ->
  Forall (fun r => Forall readable (results r)) earlier ->
  Script.queries w = (Normal <$> earlier) ++ Throw e :: rest ->
  (length earlier < fuel)%nat ->
  let failing := EvQuery (List.last (next_cursor <$> earlier) None) in
  (exists st' t,
     UpdateIcons.updateBookIcons fuel (initial w) = Some st'
     /\ trace st' = t ++ [failing; EvError (ErrUpdatingIcons e)]
     /\ queries_issued (trace st') = None :: (next_cursor <$> earlier)
     /\ Script.queries (world st') = rest)
  /\ forall force,
       exists st' t,
         UpdateTotalPages.updateBookTotalPages force fuel (initial w) = Some st'
         /\ trace st' = t ++ [failing; EvError (ErrUpdatingTotalPages e)]
         /\ queries_issued (trace st') = None :: (next_cursor <$> earlier)
         /\ Script.queries (world st') = rest.
Proof.
  intros Hmore Hread Hq Hfuel failing. split.
  - unfold UpdateIcons.updateBookIcons, UpdateIcons.pagination.
    destruct (while_hasMore_script_abort UpdateIcons.iteration
                icons_iteration_script
                ltac:(intros; eexists; split;
                      [by apply icons_iteration_script_throw|done])
                earlier e rest fuel None
                {| UpdateIcons.totalUpdated := 0; UpdateIcons.totalSkipped := 0 |}
                (initial w) Hmore Hread Hq Hfuel)
      as (st' & t & -> & Hw & Ht & Hqs).
    eexists _, t. split; [reflexivity|]. cbn [snd console_error emit trace world].
    split; [by rewrite Ht, <- app_assoc|].
    rewrite queries_issued_app, Hqs. cbn. by rewrite app_nil_r.
  - intros force.
    unfold UpdateTotalPages.updateBookTotalPages, UpdateTotalPages.pagination.
    destruct (while_hasMore_script_abort (UpdateTotalPages.iteration force)
                (pages_iteration_script force)
                ltac:(intros; eexists; split;
                      [by apply pages_iteration_script_throw|done])
                earlier e rest fuel None UpdateTotalPages.zero
                (UpdateTotalPages.start force (initial w)).2 Hmore Hread)
      as (st' & t & -> & Hw & Ht & Hqs); [by destruct force|done|].
    assert (queries_issued (trace (UpdateTotalPages.start force (initial w)).2) = [])
      as Hstart by (by destruct force).
    rewrite Hstart in Hqs.
    eexists _, t. split; [reflexivity|]. cbn [snd console_error emit trace world].
    split; [by rewrite Ht, <- app_assoc|].
    rewrite queries_issued_app, Hqs. cbn. by rewrite app_nil_r.
Qed.

Lemma failing_query_aborts_the_run_witness :
  exists st' t,
    UpdateIcons.updateBookIcons 2
      (initial (Script.make
                  [Normal (Examples.more_pages [Examples.reading] "c1");
                   Examples.exhausted_query] [Normal tt] []))
    = Some st'
    /\ trace st'
       = t ++ [EvQuery (Some (lit "c1"));
               EvError (ErrUpdatingIcons (ExternalError (lit "rate_limited")))]
    /\ queries_issued (trace st') = [None; Some (lit "c1")]
    /\ Script.queries (world st') = [].
Proof.
  refine (proj1 (failing_query_aborts_the_run
                   [Examples.more_pages [Examples.reading] "c1"]
                   (ExternalError (lit "rate_limited")) []
                   (Script.make _ [Normal tt] []) 2 _ _ _ _)).
  - by repeat constructor.
  - repeat constructor. by eexists.
  - reflexivity.
  - simpl. lia.
Defined.

(** ** update-total-pages.js: what a record can cause *)

Lemma page_count_found_truthy isbn out n :
  UpdateTotalPages.page_count_found isbn out = Some n -> truthy n = true.
Proof.
  unfold UpdateTotalPages.page_count_found.
  destruct (UpdateTotalPages.book_data isbn out) as [bookData|]; [|done].
  destruct (truthy bookData); [|done].
  destruct (js_get bookData _) as [m|]; [|done].
  destruct (truthy m) eqn:Hm; [|done]. by intros [= <-].
Qed.

(** One record of update-total-pages.js, by the heading it is counted
    under. *)
Lemma backfill_record_cases {W} `{!Notion W, !OpenLibrary W}
    (force : bool) (page : page) (c : UpdateTotalPages.counters) (st : state W) :
  readable page ->
  let res := UpdateTotalPages.process_record force page c st in
  let url := UpdateTotalPages.lookup_url page in
  let answer := http_get url (world st) in
  let filled := UpdateTotalPages.truthy_num
                  (UpdateTotalPages.page_total_pages page) in
  exists h evs,
    res.1 = Normal (UpdateTotalPages.count h c)
    /\ trace res.2 = trace st ++ evs
    /\ records_received evs = 0%nat
    /\ match h with
       | UpdateTotalPages.MissingISBN =>
           truthy_str (UpdateTotalPages.page_isbn page) = false
           /\ lookups_issued evs = [] /\ updates_issued evs = []
           /\ world res.2 = world st
       | UpdateTotalPages.Skipped =>
           truthy_str (UpdateTotalPages.page_isbn page) = true
           /\ filled = true /\ force = false
           /\ lookups_issued evs = [] /\ updates_issued evs = []
           /\ world res.2 = world st
       | UpdateTotalPages.FailedFetch =>
           truthy_str (UpdateTotalPages.page_isbn page) = true
           /\ filled && negb force = false
           /\ lookups_issued evs = [url]
           /\ match UpdateTotalPages.page_count_found
                      (default [] (UpdateTotalPages.page_isbn page)) answer.1 with
              | Some numberOfPages =>
                  let req := UpdateTotalPages.pages_request page numberOfPages in
                  updates_issued evs = [req]
                  /\ exists e, (pages_update req answer.2).1 = Throw e
              | None => updates_issued evs = [] /\ world res.2 = answer.2
              end
       | UpdateTotalPages.Updated | UpdateTotalPages.ForceUpdated =>
           truthy_str (UpdateTotalPages.page_isbn page) = true
           /\ filled && force
              = (if h is UpdateTotalPages.ForceUpdated then true else false)
           /\ filled && negb force = false
           /\ lookups_issued evs = [url]
           /\ exists numberOfPages,
                let req := UpdateTotalPages.pages_request page numberOfPages in
                UpdateTotalPages.page_count_found
                  (default [] (UpdateTotalPages.page_isbn page)) answer.1
                = Some numberOfPages
                /\ truthy numberOfPages = true
                /\ updates_issued evs = [req]
                /\ pages_update req answer.2 = (Normal tt, world res.2)
       end.
Proof.
  intros [title Htitle]. cbv zeta.
  destruct (truthy_str (UpdateTotalPages.page_isbn page)) eqn:Hisbn.
  2:{ rewrite (UpdateTotalPagesFacts.process_record_no_isbn force page title)
        by done.
      eexists UpdateTotalPages.MissingISBN, [_]. cbn. by split_and!. }
  destruct (UpdateTotalPages.truthy_num (UpdateTotalPages.page_total_pages page)
            && negb force) eqn:Hskip.
  { apply andb_true_iff in Hskip as [Hpages ->%negb_true_iff].
    rewrite (UpdateTotalPagesFacts.process_record_has_pages page title) by done.
    eexists UpdateTotalPages.Skipped, [_]. rewrite Hpages. cbn.
    by split_and!. }
  rewrite (UpdateTotalPagesFacts.process_record_lookup force page title)
    by done.
  cbv zeta.
  pose proof (page_count_found_truthy
                (default [] (UpdateTotalPages.page_isbn page))
                (http_get (UpdateTotalPages.lookup_url page) (world st)).1)
    as Htruthy.
  unfold UpdateTotalPages.page_count_found in *.
  destruct (http_get _ (world st)) as [out w1]. cbn [fst snd] in *.
  destruct (UpdateTotalPages.truthy_num (UpdateTotalPages.page_total_pages page)
            && force) eqn:Hforced;
  (destruct (UpdateTotalPages.book_data _ out) as [bookData|e];
    [destruct (truthy bookData);
     [destruct (js_get bookData _) as [numberOfPages|e];
      [destruct (truthy numberOfPages);
       [destruct (pages_update _ w1) as [[[]|e] w2] eqn:Hupd|]|]|]|]).
  all: first
    [ exists UpdateTotalPages.ForceUpdated; eexists;
      cbn [fst snd trace world mk_state UpdateTotalPages.count];
      (split; [reflexivity|]); (split; [by rewrite <- app_assoc|]);
      (split; [reflexivity|]);
      rewrite ?lookups_issued_app, ?updates_issued_app;
      cbn [lookups_issued updates_issued omap list_omap app];
      split_and!; try done;
      eexists; split_and!; [reflexivity|by apply Htruthy|done|done]
    | exists UpdateTotalPages.Updated; eexists;
      cbn [fst snd trace world mk_state UpdateTotalPages.count];
      (split; [reflexivity|]); (split; [by rewrite <- app_assoc|]);
      (split; [reflexivity|]);
      rewrite ?lookups_issued_app, ?updates_issued_app;
      cbn [lookups_issued updates_issued omap list_omap app];
      split_and!; try done;
      eexists; split_and!; [reflexivity|by apply Htruthy|done|done]
    | exists UpdateTotalPages.FailedFetch; eexists;
      cbn [fst snd trace world mk_state UpdateTotalPages.count];
      (split; [reflexivity|]); (split; [by rewrite <- app_assoc|]);
      (split; [reflexivity|]);
      rewrite ?lookups_issued_app, ?updates_issued_app;
      cbn [lookups_issued updates_issued omap list_omap app];
      split_and!; try done; rewrite ?Hupd; by eauto ].
Qed.

(** X8. What one record whose title can be read causes in
    update-total-pages.js, with or without the force flag.  It does not
    throw, and it is counted under exactly one of the five headings: that
    counter goes up by one and the other four stay as they are.  Missing
    ISBN: the record has no ISBN, and nothing is requested.  Skipped: it
    has a page count, the run is not forced, and nothing is requested.
    Updated or force updated: one lookup for the URL of its ISBN obtained
    a page count, a truthy value, one update request naming the record
    and carrying that value was issued, and the database accepted it;
    force updated when the record had a page count and the run is forced,
    updated otherwise.  Failed: one lookup was issued, and either it
    obtained no page count and nothing was written, or the update request
    carrying the page count was refused. *)
Theorem backfill_record_effects {W} `{!Notion W, !OpenLibrary W}
    (force : bool) (page : page) (c : UpdateTotalPages.counters) (st : state W) :
  readable page ->
  let res := UpdateTotalPages.process_record force page c st in
  let url := UpdateTotalPages.lookup_url page in
  let answer := http_get url (world st) in
  let filled := UpdateTotalPages.truthy_num
                  (UpdateTotalPages.page_total_pages page) in
  exists h evs,
    res.1 = Normal (UpdateTotalPages.count h c)
    /\ trace res.2 = trace st ++ evs
    /\ match h with
       | UpdateTotalPages.MissingISBN =>
           truthy_str (UpdateTotalPages.page_isbn page) = false
           /\ lookups_issued evs = [] /\ updates_issued evs = []
           /\ world res.2 = world st
       | UpdateTotalPages.Skipped =>
           truthy_str (UpdateTotalPages.page_isbn page) = true
           /\ filled = true /\ force = false
           /\ lookups_issued evs = [] /\ updates_issued evs = []
           /\ world res.2 = world st
       | UpdateTotalPages.FailedFetch =>
           truthy_str (UpdateTotalPages.page_isbn page) = true
           /\ filled && negb force = false
           /\ lookups_issued evs = [url]
           /\ match UpdateTotalPages.page_count_found
                      (default [] (UpdateTotalPages.page_isbn page)) answer.1 with
              | Some numberOfPages =>
                  let req := UpdateTotalPages.pages_request page numberOfPages in
                  updates_issued evs = [req]
                  /\ exists e, (pages_update req answer.2).1 = Throw e
              | None => updates_issued evs = [] /\ world res.2 = answer.2
              end
       | UpdateTotalPages.Updated | UpdateTotalPages.ForceUpdated =>
           truthy_str (UpdateTotalPages.page_isbn page) = true
           /\ filled && force
              = (if h is UpdateTotalPages.ForceUpdated then true else false)
           /\ filled && negb force = false
           /\ lookups_issued evs = [url]
           /\ exists numberOfPages,
                let req := UpdateTotalPages.pages_request page numberOfPages in
                UpdateTotalPages.page_count_found
                  (default [] (UpdateTotalPages.page_isbn page)) answer.1
                = Some numberOfPages
                /\ truthy numberOfPages = true
                /\ updates_issued evs = [req]
                /\ pages_update req answer.2 = (Normal tt, world res.2)
       end.
Proof.
  intros Hread. cbv zeta.
  destruct (backfill_record_cases force page c st Hread)
    as (h & evs & Hres & Ht & _ & Hcase).
  by exists h, evs.
Qed.

Lemma backfill_record_effects_witness :
  let st := initial (Script.make [] [Normal tt]
                       [Examples.entry "111"
                          [(lit "number_of_pages", VNumber 250)]]) in
  let res := UpdateTotalPages.process_record false Examples.unfilled
               UpdateTotalPages.zero st in
  exists h evs,
    res.1 = Normal (UpdateTotalPages.count h UpdateTotalPages.zero)
    /\ trace res.2 = [] ++ evs
    /\ (h = UpdateTotalPages.Updated
        /\ updates_issued evs
           = [{| upd_page_id := lit "p3";
                 upd_patch := PatchTotalPages (VNumber 250) |}]).
Proof.
  cbv zeta.
  destruct (backfill_record_effects false Examples.unfilled UpdateTotalPages.zero
              (initial (Script.make [] [Normal tt]
                          [Examples.entry "111"
                             [(lit "number_of_pages", VNumber 250)]]))
              ltac:(by eexists)) as (h & evs & Hres & Ht & Hcase).
  exists h, evs. split; [exact Hres|]. split; [exact Ht|].
  destruct h; vm_compute in Hres; try discriminate Hres.
  split; [reflexivity|].
  destruct Hcase as (_ & _ & _ & _ & n & Hfound & _ & Hreqs & _).
  vm_compute in Hfound. injection Hfound as <-. exact Hreqs.
Defined.

(** ** update-total-pages.js: the summary adds up *)

Lemma records_received_app t1 t2 :
  records_received (t1 ++ t2) = (records_received t1 + records_received t2)%nat.
Proof. unfold records_received. by rewrite omap_app, sum_list_with_app. Qed.

Lemma tally_snoc c hs h :
  UpdateTotalPages.tally c (hs ++ [h])
  = UpdateTotalPages.count h (UpdateTotalPages.tally c hs).
Proof. unfold UpdateTotalPages.tally. by rewrite foldl_app. Qed.

Lemma tally_app c hs1 hs2 :
  UpdateTotalPages.tally c (hs1 ++ hs2)
  = UpdateTotalPages.tally (UpdateTotalPages.tally c hs1) hs2.
Proof. unfold UpdateTotalPages.tally. by rewrite foldl_app. Qed.

Section summary.
Context {W : Type} `{!Notion W, !OpenLibrary W}.

Lemma backfill_for_of_counted force records :
  forall c (st : state W) c' st',
    for_of records (UpdateTotalPages.process_record force) c st
    = (Normal c', st') ->
    records_received (trace st') = records_received (trace st)
    /\ exists hs, c' = UpdateTotalPages.tally c hs
                  /\ length hs = length records.
Proof.
  induction records as [|page records IH]; intros c st c' st'.
  - cbn. intros [= <- <-]. split; [done|]. by exists [].
  - cbn [for_of]. unfold bind.
    destruct (UpdateTotalPages.process_record force page c st)
      as [[c1|e] st1] eqn:Hp; [|done].
    intros Hfor. apply IH in Hfor as (Hr & hs & -> & Hlen).
    assert (readable page) as Hread.
    { destruct (page_title page) as [title|e] eqn:Ht; [by exists title|].
      by rewrite (UpdateTotalPagesFacts.backfill_record_unreadable _ _ _ _ _ Ht)
        in Hp. }
    destruct (backfill_record_cases force page c st Hread)
      as (h & evs & Hres & Ht & Hrec & _).
    cbv zeta in *. rewrite Hp in Hres, Ht. cbn [fst snd] in *.
    injection Hres as ->.
    split; [by rewrite Hr, Ht, records_received_app, Hrec, Nat.add_0_r|].
    exists (h :: hs). split; [done|]. cbn. by rewrite Hlen.
Qed.

Lemma backfill_iteration_counted force cur c (st : state W) hasMore cur' c' st' :
  UpdateTotalPages.iteration force cur c st = (Normal (hasMore, cur', c'), st') ->
  exists hs,
    c' = UpdateTotalPages.tally c hs
    /\ (records_received (trace st')
        = records_received (trace st) + length hs)%nat.
Proof.
  unfold UpdateTotalPages.iteration. run_script.
  destruct (databases_query cur (world st)) as [[r|e] w]; cbn; [|done].
  match goal with
  | |- context [for_of ?l ?b ?c ?s] =>
      destruct (for_of l b c s) as [[c1|e1] st1] eqn:Hfor; [|done]
  end.
  apply backfill_for_of_counted in Hfor as (Hr & hs & -> & Hlen).
  cbn [trace] in Hr. intros [= <- <- <- <-]. exists hs. split; [done|].
  cbn [trace]. rewrite !records_received_app, Hr, !records_received_app, Hlen.
  cbn. lia.
Qed.

Lemma backfill_while_counted force fuel :
  forall hasMore cur c (st : state W) c' st',
    while_hasMore (UpdateTotalPages.iteration force) fuel hasMore cur c st
    = Some (Normal c', st') ->
    exists hs,
      c' = UpdateTotalPages.tally c hs
      /\ (records_received (trace st')
          = records_received (trace st) + length hs)%nat.
Proof.
  induction fuel as [|fuel IH]; intros hasMore cur c st c' st';
    destruct hasMore; simpl; try done;
    try (intros [= <- <-]; exists []; split; [done|cbn; lia]).
  destruct (UpdateTotalPages.iteration force cur c st)
    as [[[[h n] c1]|e] st1] eqn:Hb; [|done].
  intros Hw. apply IH in Hw as (hs2 & -> & Hr2).
  apply backfill_iteration_counted in Hb as (hs1 & -> & Hr1).
  exists (hs1 ++ hs2). split; [by rewrite tally_app|].
  rewrite length_app. lia.
Qed.

End summary.

(** X9. Whenever a run of update-total-pages.js ends, it ends in one of two
    ways.  Either an exception reached the handler around the loop (a
    page query threw, or the title of a record of a page could not be
    read) and the last thing written is the error, without a summary.  Or
    the summary is printed, and its five totals are what results from
    counting every record the batches of the run held once, each under
    one heading: there is a list of headings, one per record received,
    whose tally is the counters printed. *)
Theorem backfill_summary_accounts_for_every_record
    {W} `{!Notion W, !OpenLibrary W}
    (force : bool) (fuel : nat) (st st' : state W) :
  UpdateTotalPages.updateBookTotalPages force fuel st = Some st' ->
  (exists error st1,
     st' = (console_error (ErrUpdatingTotalPages error) st1).2
     /\ exists cursor w,
          databases_query cursor w = (Throw error, world st1)
          \/ exists r w' page,
               databases_query cursor w = (Normal r, w')
               /\ page ∈ results r /\ page_title page = Throw error)
  \/ (exists hs st1,
        st' = (UpdateTotalPages.summary
                 (UpdateTotalPages.tally UpdateTotalPages.zero hs) st1).2
        /\ (length hs + records_received (trace st)
            = records_received (trace st1))%nat).
Proof.
  unfold UpdateTotalPages.updateBookTotalPages, UpdateTotalPages.pagination.
  destruct (while_hasMore _ _ _ _ _ _) as [[[c|e] st1]|] eqn:Hw; [| |done].
  - intros [= <-]. right.
    apply backfill_while_counted in Hw as (hs & -> & Hr).
    exists hs, st1. split; [done|].
    assert (records_received (trace (UpdateTotalPages.start force st).2)
            = records_received (trace st)) as Hs.
    { unfold UpdateTotalPages.start. destruct force; run_script;
        rewrite !records_received_app; cbn; lia. }
    rewrite Hs in Hr. lia.
  - intros [= <-]. left. exists e, st1. split; [done|].
    apply (while_hasMore_aborts (UpdateTotalPages.iteration force)) in Hw
      as (cursor & w & [[Hq _]|Hrec]).
    + exists cursor, w. by left.
    + exists cursor, w. by right.
    + intros. by eapply pages_iteration_throws.
Qed.

Lemma backfill_summary_accounts_for_every_record_witness :
  exists st',
    UpdateTotalPages.updateBookTotalPages false 1 (initial Examples.two_unfilled)
    = Some st'
    /\ ((exists error st1,
           st' = (console_error (ErrUpdatingTotalPages error) st1).2
           /\ exists cursor w,
                databases_query cursor w = (Throw error, world st1)
                \/ exists r w' page,
                     databases_query cursor w = (Normal r, w')
                     /\ page ∈ results r /\ page_title page = Throw error)
        \/ (exists hs st1,
              st' = (UpdateTotalPages.summary
                       (UpdateTotalPages.tally UpdateTotalPages.zero hs) st1).2
              /\ (length hs
                  + records_received (trace (initial Examples.two_unfilled))
                  = records_received (trace st1))%nat)).
Proof.
  eexists. split; [vm_compute; reflexivity|].
  apply (backfill_summary_accounts_for_every_record
           false 1 (initial Examples.two_unfilled)).
  vm_compute. reflexivity.
Defined.

(** ** update-icons.js: when a record is updated *)

Lemma glyph_for_table status :
  UpdateIcons.glyph_for status
  ∈ [open_book; blue_book; green_book; closed_book; books].
Proof.
  unfold UpdateIcons.glyph_for, EMOJIS. cbn.
  repeat match goal with
         | |- context [if ?b then _ else _] => destruct b
         end; cbn; repeat constructor.
Qed.

(** X10. For a record whose title can be read and whose status is not
    empty and is not the name of a member every object inherits,
    update-icons.js decides by the icon alone.  The glyph wanted is the one the table gives the status, the
    fallback for a status outside the table; when the record's icon is
    that emoji no update request is issued, and in every other case
    (another emoji, an image, no icon) exactly one is issued, naming the
    record and carrying that glyph.  Whether the request is accepted or
    refused does not change what is sent. *)
Theorem icon_update_sent_iff_glyph_differs {W} `{!Notion W}
    (page : page) (status : jstr) (c : UpdateIcons.counters) (st : state W) :
  readable page ->
  UpdateIcons.status_name page = Some status ->
  status <> [] ->
  status ∉ Object_prototype_keys ->
  let res := UpdateIcons.process_record page c st in
  let wanted := UpdateIcons.glyph_for status in
  wanted ∈ [open_book; blue_book; green_book; closed_book; books]
  /\ exists evs,
       trace res.2 = trace st ++ evs
       /\ ((page_icon_of page = Some (IconEmoji wanted)
            /\ updates_issued evs = [])
           \/ (page_icon_of page <> Some (IconEmoji wanted)
               /\ updates_issued evs
                  = [{| upd_page_id := page_id page;
                        upd_patch := PatchIcon (VString wanted) |}])).
Proof.
  intros [title Htitle] Hstatus Hne Hnot. cbv zeta.
  split; [apply glyph_for_table|].
  assert (truthy_str (UpdateIcons.status_name page) = true) as Htruthy.
  { rewrite Hstatus. by destruct status. }
  pose proof (icon_skip_iff_glyph_matches page status Hstatus Hnot) as Hiff.
  fold (UpdateIcons.glyph_for status) in Hiff.
  destruct (strict_equals (UpdateIcons.currentEmoji page)
              (UpdateIcons.expectedEmoji status)) eqn:Heq.
  - rewrite (UpdateIconsFacts.process_record_skip page title)
      by first [exact Htitle | exact Htruthy | rewrite Hstatus; exact Heq].
    eexists [_]. split; [done|]. left. split; [by apply Hiff|done].
  - rewrite (UpdateIconsFacts.process_record_update page title)
      by first [exact Htitle | exact Htruthy | rewrite Hstatus; exact Heq].
    cbv zeta. unfold UpdateIcons.icon_request. rewrite Hstatus.
    cbn [from_option id]. rewrite (expectedEmoji_own status Hnot).
    fold (UpdateIcons.glyph_for status).
    destruct (pages_update _ (world st)) as [[[]|e] w];
      eexists [_; _; _]; (split; [done|]); right;
      (split; [intros Hicon; apply Hiff in Hicon; congruence|done]).
Qed.

Lemma icon_update_sent_iff_glyph_differs_witness :
  let res := UpdateIcons.process_record Examples.reading
               {| UpdateIcons.totalUpdated := 0; UpdateIcons.totalSkipped := 0 |}
               (initial Examples.one_refused) in
  UpdateIcons.glyph_for (lit "Currently Reading") = open_book
  /\ exists evs,
       trace res.2 = trace (initial Examples.one_refused) ++ evs
       /\ ((page_icon_of Examples.reading = Some (IconEmoji open_book)
            /\ updates_issued evs = [])
           \/ (page_icon_of Examples.reading <> Some (IconEmoji open_book)
               /\ updates_issued evs
                  = [{| upd_page_id := lit "p1";
                        upd_patch := PatchIcon (VString open_book) |}])).
Proof.
  split; [reflexivity|].
  refine (proj2 (icon_update_sent_iff_glyph_differs
                   Examples.reading (lit "Currently Reading")
                   {| UpdateIcons.totalUpdated := 0;
                      UpdateIcons.totalSkipped := 0 |}
                   (initial Examples.one_refused) _ eq_refl _ _)).
  - by eexists.
  - discriminate.
  - apply (bool_decide_unpack _). vm_compute. exact I.
Defined.

(** ** import.js: a file of ISBNs *)

Lemma creates_issued_app t1 t2 :
  creates_issued (t1 ++ t2) = creates_issued t1 ++ creates_issued t2.
Proof. apply omap_app. Qed.

Section isbn_file.
Context {W : Type} `{!NotionCreate W, !OpenLibrary W, !Node W}.

(** One line of the file: one lookup, then either a book and its create
    request, or an entry in the failure list. *)
Lemma process_line_cases line books (st : state W) :
  exists res,
    ImportBooks.process_line line books st = res
    /\ lookups_issued (trace res.2)
       = lookups_issued (trace st) ++ [openlibrary_url (ImportBooks.clean line)]
    /\ ((exists info,
           res.1 = Normal (books ++ [info])
           /\ isbn info = ImportBooks.clean line
           /\ creates_issued (trace res.2)
              = creates_issued (trace st) ++ [ImportBooks.create_request_for info]
           /\ failedIsbns res.2 = failedIsbns st)
        \/ (res.1 = Normal books
            /\ creates_issued (trace res.2) = creates_issued (trace st)
            /\ failedIsbns res.2 = failedIsbns st ++ [ImportBooks.clean line])).
Proof.
  unfold ImportBooks.process_line. run_script.
  repeat import_step.
  all: eexists; (split; [reflexivity|]);
    cbn [fst snd world trace failedIsbns mk_state].
  all: rewrite !lookups_issued_app, !creates_issued_app;
    cbn [lookups_issued creates_issued omap list_omap app];
    rewrite ?app_nil_r; (split; [by rewrite <- ?app_assoc|]).
  1,2: left; eexists; split; [reflexivity|];
    split; [by apply book_info_fields in Hinfo as [? _]|];
    split; [|done]; by rewrite <- ?app_assoc.
  right. by rewrite <- ?app_assoc.
Qed.

Lemma process_lines_cases lines :
  forall books (st : state W),
    exists found failed st',
      for_of lines ImportBooks.process_line books st
      = (Normal (books ++ found), st')
      /\ lookups_issued (trace st')
         = lookups_issued (trace st)
           ++ ((fun line => openlibrary_url (ImportBooks.clean line)) <$> lines)
      /\ creates_issued (trace st')
         = creates_issued (trace st)
           ++ (ImportBooks.create_request_for <$> found)
      /\ failedIsbns st' = failedIsbns st ++ failed
      /\ (isbn <$> found) `sublist_of` (ImportBooks.clean <$> lines)
      /\ failed `sublist_of` (ImportBooks.clean <$> lines)
      /\ (length found + length failed = length lines)%nat.
Proof.
  induction lines as [|line lines IH]; intros books st.
  - exists [], [], st. cbn. rewrite !app_nil_r. by split_and!.
  - destruct (process_line_cases line books st)
      as (res & Hres & Hget & Hcase).
    destruct res as [r st1]. cbn [fst snd] in *.
    destruct Hcase as [(info & -> & Hisbn & Hcreate & Hfailed)
                      |(-> & Hcreate & Hfailed)].
    + destruct (IH (books ++ [info]) st1)
        as (found & failed & st' & Hfor & Hget' & Hcreate' & Hfailed' & Hs1 & Hs2 & Hlen).
      exists (info :: found), failed, st'. cbn [for_of]. unfold bind.
      rewrite Hres, Hfor, <- app_assoc. split; [done|].
      rewrite Hget', Hget, Hcreate', Hcreate, Hfailed', Hfailed, <- !app_assoc.
      cbn. rewrite Hisbn. split_and!; try done.
      * by apply sublist_skip.
      * by apply sublist_cons.
      * lia.
    + destruct (IH books st1)
        as (found & failed & st' & Hfor & Hget' & Hcreate' & Hfailed' & Hs1 & Hs2 & Hlen).
      exists found, (ImportBooks.clean line :: failed), st'. cbn [for_of].
      unfold bind. rewrite Hres, Hfor. split; [done|].
      rewrite Hget', Hget, Hcreate', Hcreate, Hfailed', Hfailed, <- !app_assoc.
      cbn. split_and!; try done.
      * by apply sublist_cons.
      * by apply sublist_skip.
      * lia.
Qed.

Lemma processISBNFile_cases filepath content w1 (st : state W) :
  fs_readFile filepath (world st) = (Normal content, w1) ->
  exists res,
    ImportBooks.processISBNFile filepath st = res
    /\ exists found failed,
         let lines := List.filter (fun line => truthy_str (Some (js_trim line)))
                        (split_on ch_newline content) in
         lookups_issued (trace res.2)
         = lookups_issued (trace st)
           ++ ((fun line => openlibrary_url (ImportBooks.clean line)) <$> lines)
         /\ creates_issued (trace res.2)
            = creates_issued (trace st)
              ++ (ImportBooks.create_request_for <$> found)
         /\ failedIsbns res.2 = failedIsbns st ++ failed
         /\ (isbn <$> found) `sublist_of` (ImportBooks.clean <$> lines)
         /\ failed `sublist_of` (ImportBooks.clean <$> lines)
         /\ (length found + length failed = length lines)%nat.
Proof.
  intros Hread. unfold ImportBooks.processISBNFile. run_script.
  rewrite Hread. cbn [fst snd].
  set (lines := List.filter _ (split_on ch_newline content)).
  match goal with
  | |- context [for_of lines _ [] ?s] =>
      destruct (process_lines_cases lines [] s)
        as (found & failed & st2 & Hfor & Hget & Hcreate & Hfailed
            & Hs1 & Hs2 & Hlen)
  end.
  rewrite Hfor. cbn [fst snd app trace world failedIsbns] in *.
  rewrite !lookups_issued_app in Hget. rewrite !creates_issued_app in Hcreate.
  cbn [lookups_issued creates_issued omap list_omap app] in Hget, Hcreate.
  rewrite !app_nil_r in Hget, Hcreate.
  destruct (bool_decide (0 < length found)%nat);
    cbn [fst snd trace world failedIsbns];
    rewrite saveFailedIsbns_eq; cbn [fst snd trace world failedIsbns];
    (destruct (failedIsbns st2) as [|id ids] eqn:Hlist;
     [|destruct (Date_toISOString (world st2)) as [iso w2]; cbv zeta;
       destruct (fs_writeFile _ _ w2) as [[[]|e] w3];
       [|cbn [fst snd trace world failedIsbns mk_state];
         rewrite saveFailedIsbns_eq; cbn [fst snd trace world failedIsbns];
         rewrite ?Hlist;
         destruct (Date_toISOString w3) as [iso' w4]; cbv zeta;
         destruct (fs_writeFile _ _ w4) as [[[]|e'] w5]]]).
  all: eexists; (split; [reflexivity|]); exists found, failed;
    cbn [fst snd trace world failedIsbns mk_state];
    rewrite ?lookups_issued_app, ?creates_issued_app;
    cbn [lookups_issued creates_issued omap list_omap app];
    rewrite ?app_nil_r, ?Hlist; split_and!; try done; congruence.
Qed.

End isbn_file.

(** X11. [processISBNFile] on a file that can be read, whatever OpenLibrary,
    Notion and the file system answer afterwards.  The lines looked up
    are the lines of the file that are not blank; every one of them is
    looked up exactly once, in file order, under its trimmed, hyphen-free
    form, and nothing else is looked up.  A create request is issued for
    exactly the books found, in order, whether or not Notion accepts it.
    The identifiers of the books found and the entries added to the
    failure list are both taken from the lines in file order, and
    together they are as many as the lines: no line is dropped. *)
Theorem isbn_file_lines_are_found_or_logged {W}
    `{!NotionCreate W, !OpenLibrary W, !Node W}
    (filepath content : jstr) (w1 : W) (st : state W) :
  fs_readFile filepath (world st) = (Normal content, w1) ->
  let lines := List.filter (fun line => truthy_str (Some (js_trim line)))
                 (split_on ch_newline content) in
  let res := ImportBooks.processISBNFile filepath st in
  exists found failed,
    lookups_issued (trace res.2)
    = lookups_issued (trace st)
      ++ ((fun line => openlibrary_url (ImportBooks.clean line)) <$> lines)
    /\ creates_issued (trace res.2)
       = creates_issued (trace st) ++ (ImportBooks.create_request_for <$> found)
    /\ failedIsbns res.2 = failedIsbns st ++ failed
    /\ (isbn <$> found) `sublist_of` (ImportBooks.clean <$> lines)
    /\ failed `sublist_of` (ImportBooks.clean <$> lines)
    /\ (length found + length failed = length lines)%nat.
Proof.
  intros Hread. cbv zeta.
  destruct (processISBNFile_cases filepath content w1 st Hread)
    as (res & <- & H).
  exact H.
Qed.

Lemma isbn_file_lines_are_found_or_logged_witness :
  let res := ImportBooks.processISBNFile (lit "isbns.txt") Examples.isbn_list in
  exists found failed,
    lookups_issued (trace res.2)
    = [openlibrary_url (lit "0441172717");
       openlibrary_url (lit "9780441172719")]
    /\ creates_issued (trace res.2) = ImportBooks.create_request_for <$> found
    /\ failedIsbns res.2 = failed
    /\ (isbn <$> found) `sublist_of` [lit "0441172717"; lit "9780441172719"]
    /\ failed `sublist_of` [lit "0441172717"; lit "9780441172719"]
    /\ (length found + length failed = 2)%nat.
Proof.
  exact (isbn_file_lines_are_found_or_logged
           (lit "isbns.txt") _ _ Examples.isbn_list eq_refl).
Defined.

(** ** import.js: a spreadsheet export *)

Lemma indexOf_None (a : list jstr) x : indexOf a x = None <-> x ∉ a.
Proof.
  induction a as [|y a IH]; cbn.
  - split; [intros _ H; inversion H|done].
  - unfold jstr_eqb. destruct (bool_decide (y = x)) eqn:Hyx.
    + apply bool_decide_eq_true in Hyx as ->. split; [done|].
      intros H. destruct H. constructor.
    + apply bool_decide_eq_false in Hyx. rewrite not_elem_of_cons.
      destruct (indexOf a x); cbn.
      * split; [done|]. intros [_ H]. by apply IH in H.
      * split; [|done]. intros _. split; [congruence|]. by apply IH.
Qed.

(** X13. A spreadsheet export whose header names neither an ISBN nor an ISBN13
    column (the names are compared as they stand, after the split on
    commas outside quotes): the script reports the missing columns and
    returns.  It reads no row, looks nothing up, creates nothing, and
    does not write the failure file, not even when the failure list is
    not empty. *)
Theorem goodreads_without_isbn_columns_stops_at_the_header {W}
    `{!NotionCreate W, !OpenLibrary W, !Node W}
    (filepath content : jstr) (w1 : W) (st : state W) :
  fs_readFile filepath (world st) = (Normal content, w1) ->
  let headers := parseCSVLine (default [] (head (split_on ch_newline content))) in
  lit "ISBN" ∉ headers ->
  lit "ISBN13" ∉ headers ->
  ImportBooks.processGoodreadsCSV filepath st
  = (Normal tt,
     mk_state w1 (trace st ++ [EvReadFile filepath; EvError ErrNoIsbnColumns]) st).
Proof.
  intros Hread headers H10 H13.
  apply indexOf_None in H10. apply indexOf_None in H13.
  unfold ImportBooks.processGoodreadsCSV. run_script. rewrite Hread.
  cbn [fst snd]. cbv zeta. fold headers. rewrite H10, H13.
  cbn [is_none andb world trace failedIsbns]. unfold mk_state.
  by rewrite <- app_assoc.
Qed.

Lemma goodreads_without_isbn_columns_stops_at_the_header_witness :
  ImportBooks.processGoodreadsCSV (lit "export.csv") Examples.no_columns
  = (Normal tt,
     mk_state (Script.next_read (world Examples.no_columns)).2
       ([] ++ [EvReadFile (lit "export.csv"); EvError ErrNoIsbnColumns])
       Examples.no_columns).
Proof.
  refine (goodreads_without_isbn_columns_stops_at_the_header
            (lit "export.csv") _ _ Examples.no_columns eq_refl _ _).
  - apply (bool_decide_unpack _). vm_compute. exact I.
  - apply (bool_decide_unpack _). vm_compute. exact I.
Defined.

Lemma quiet_log_issues_nothing (log : list event) :
  Forall (fun e => is_network e = false) log ->
  lookups_issued log = [] /\ creates_issued log = [].
Proof.
  induction 1 as [|e log He _ [IH1 IH2]]; [done|].
  destruct e; try done; cbn; by rewrite ?IH1, ?IH2.
Qed.

Section goodreads_file.
Context {W : Type} `{!NotionCreate W, !OpenLibrary W, !Node W}.

(** What a row adds to the books to process. *)
Lemma read_row_exact isbnIndex isbn13Index titleIndex line books (st : state W) :
  exists log,
    ImportBooks.read_row isbnIndex isbn13Index titleIndex line books st
    = (Normal (books
               ++ option_list (ImportBooks.book_of_row isbnIndex isbn13Index
                                 titleIndex line)),
       mk_state (world st) (trace st ++ log) st)
    /\ Forall (fun e => is_network e = false) log.
Proof.
  unfold ImportBooks.read_row, ImportBooks.book_of_row. cbv zeta.
  destruct (truthy_str (Some (js_trim line))); cbn [negb andb].
  - destruct (truthy_str (ImportBooks.identifier_cell isbn13Index _)
              || truthy_str (ImportBooks.identifier_cell isbnIndex _)).
    + exists []. rewrite app_nil_r. cbn. split; [by destruct st|constructor].
    + eexists [_]. cbn. rewrite app_nil_r.
      split; [reflexivity|by repeat constructor].
  - exists []. rewrite !app_nil_r. cbn. split; [by destruct st|constructor].
Qed.

Lemma read_rows_exact isbnIndex isbn13Index titleIndex lines :
  forall books (st : state W),
    exists log,
      for_of lines (ImportBooks.read_row isbnIndex isbn13Index titleIndex)
        books st
      = (Normal (books
                 ++ omap (ImportBooks.book_of_row isbnIndex isbn13Index
                            titleIndex) lines),
         mk_state (world st) (trace st ++ log) st)
      /\ Forall (fun e => is_network e = false) log.
Proof.
  induction lines as [|line lines IH]; intros books st.
  - exists []. rewrite !app_nil_r. cbn. split; [by destruct st|constructor].
  - cbn [for_of]. unfold bind at 1.
    destruct (read_row_exact isbnIndex isbn13Index titleIndex line books st)
      as (log1 & -> & Hlog1).
    destruct (IH (books
                  ++ option_list (ImportBooks.book_of_row isbnIndex isbn13Index
                                    titleIndex line))
                (mk_state (world st) (trace st ++ log1) st))
      as (log2 & -> & Hlog2).
    exists (log1 ++ log2). cbn [world trace mk_state omap list_omap].
    split; [|by apply Forall_app].
    rewrite <- !app_assoc.
    by destruct (ImportBooks.book_of_row isbnIndex isbn13Index titleIndex line).
Qed.

Lemma book_of_row_candidates isbnIndex isbn13Index titleIndex line b :
  ImportBooks.book_of_row isbnIndex isbn13Index titleIndex line = Some b ->
  ImportBooks.candidates b <> [].
Proof.
  unfold ImportBooks.book_of_row. cbv zeta.
  destruct (truthy_str (Some (js_trim line))); [|done]. cbn [andb].
  destruct (truthy_str (ImportBooks.identifier_cell isbn13Index _)) eqn:H13;
    destruct (truthy_str (ImportBooks.identifier_cell isbnIndex _)) eqn:H10;
    cbn [orb]; try done; intros [= <-]; unfold ImportBooks.candidates;
    cbn [ImportBooks.book_isbn ImportBooks.book_isbn13];
    by rewrite H13, ?H10.
Qed.

Lemma process_book_creates (b : ImportBooks.book) successful (st : state W) :
  exists res,
    ImportBooks.process_book b successful st = res
    /\ ((exists info,
           res.1 = Normal (successful ++ [info])
           /\ creates_issued (trace res.2)
              = creates_issued (trace st) ++ [ImportBooks.create_request_for info])
        \/ (res.1 = Normal successful
            /\ creates_issued (trace res.2) = creates_issued (trace st))).
Proof.
  unfold ImportBooks.process_book.
  destruct (truthy_str (ImportBooks.book_isbn13 b)) eqn:H13;
    destruct (truthy_str (ImportBooks.book_isbn b)) eqn:H10;
    run_script; cbn [negb andb app is_none].
  all: repeat import_step.
  all: cbn [is_none andb].
  all: repeat import_step.
  all: eexists; (split; [reflexivity|]);
    cbn [fst snd world trace failedIsbns mk_state].
  all: rewrite !creates_issued_app;
    cbn [creates_issued omap list_omap app]; rewrite ?app_nil_r.
  all: first [ right; split; [reflexivity|]; by rewrite <- ?app_assoc
             | left; eexists; split; [reflexivity|]; by rewrite <- ?app_assoc ].
Qed.

(** One book to process: what was looked up, found, created and logged. *)
Lemma process_book_outcome (b : ImportBooks.book) successful (st : state W) :
  exists ids found st',
    ImportBooks.process_book b successful st
    = (Normal (successful ++ option_list found), st')
    /\ ImportBooks.attempt b ids found
    /\ lookups_issued (trace st')
       = lookups_issued (trace st) ++ (openlibrary_url <$> ids)
    /\ creates_issued (trace st')
       = creates_issued (trace st)
         ++ (ImportBooks.create_request_for <$> option_list found)
    /\ failedIsbns st' = failedIsbns st ++ ImportBooks.logged b ids found.
Proof.
  destruct (process_book_lookups b successful st)
    as (res & Hres & ids & Hpre & Hget & Hcase).
  destruct (process_book_creates b successful st) as (res' & Hres' & Hcase').
  rewrite Hres in Hres'. subst res'. destruct res as [r st1].
  cbn [fst snd] in *. exists ids.
  destruct Hcase as [(info & -> & Hne & Hlast & Hlog)|(-> & -> & Hlog)].
  - exists (Some info), st1. destruct Hcase' as [(info' & Heq & Hc)|(Heq & _)].
    + injection Heq as Heq. apply app_inj_tail in Heq as [_ <-].
      by split_and!.
    + injection Heq as Heq. by apply app_singleton_neq in Heq.
  - exists None, st1. cbn [option_list option_rect fmap list_fmap].
    rewrite !app_nil_r. destruct Hcase' as [(info' & Heq & _)|(_ & Hc)].
    + injection Heq as Heq. symmetry in Heq. by apply app_singleton_neq in Heq.
    + by split_and!.
Qed.

(** The loop over the books to process. *)
Lemma process_books_outcomes books :
  forall successful (st : state W),
    exists (outcomes : list (list jstr * option BookInfo)) st',
      for_of books ImportBooks.process_book successful st
      = (Normal (successful ++ omap snd outcomes), st')
      /\ Forall2 (fun b o => ImportBooks.attempt b o.1 o.2) books outcomes
      /\ lookups_issued (trace st')
         = lookups_issued (trace st)
           ++ (openlibrary_url <$> concat (fst <$> outcomes))
      /\ creates_issued (trace st')
         = creates_issued (trace st)
           ++ (ImportBooks.create_request_for <$> omap snd outcomes)
      /\ failedIsbns st'
         = failedIsbns st
           ++ concat (zip_with (fun b o => ImportBooks.logged b o.1 o.2)
                        books outcomes).
Proof.
  induction books as [|b books IH]; intros successful st.
  - exists [], st. cbn. rewrite !app_nil_r. by split_and!.
  - destruct (process_book_outcome b successful st)
      as (ids & found & st1 & Hbook & Hatt & Hget & Hcreate & Hlog).
    destruct (IH (successful ++ option_list found) st1)
      as (outcomes & st' & Hfor & Hall & Hget' & Hcreate' & Hlog').
    exists ((ids, found) :: outcomes), st'. cbn [for_of]. unfold bind.
    rewrite Hbook, Hfor, Hget', Hget, Hcreate', Hcreate, Hlog', Hlog.
    cbn [omap list_omap snd fst fmap list_fmap concat zip_with].
    rewrite <- !app_assoc, !fmap_app. split_and!; try done.
    + by destruct found.
    + by constructor.
    + by destruct found.
Qed.

Lemma processGoodreadsCSV_cases filepath content w1 (st : state W) :
  fs_readFile filepath (world st) = (Normal content, w1) ->
  let lines := split_on ch_newline content in
  let headers := parseCSVLine (default [] (head lines)) in
  let booksToProcess :=
    omap (ImportBooks.book_of_row (indexOf headers (lit "ISBN"))
            (indexOf headers (lit "ISBN13")) (indexOf headers (lit "Title")))
      (tail lines) in
  lit "ISBN" ∈ headers \/ lit "ISBN13" ∈ headers ->
  exists res,
    ImportBooks.processGoodreadsCSV filepath st = res
    /\ exists outcomes : list (list jstr * option BookInfo),
         Forall2 (fun b o => ImportBooks.attempt b o.1 o.2)
           booksToProcess outcomes
         /\ lookups_issued (trace res.2)
            = lookups_issued (trace st)
              ++ (openlibrary_url <$> concat (fst <$> outcomes))
         /\ creates_issued (trace res.2)
            = creates_issued (trace st)
              ++ (ImportBooks.create_request_for <$> omap snd outcomes)
         /\ failedIsbns res.2
            = failedIsbns st
              ++ concat (zip_with (fun b o => ImportBooks.logged b o.1 o.2)
                           booksToProcess outcomes)
         /\ EvLog (MsgGoodreadsComplete (length (omap snd outcomes))
                     (length booksToProcess)) ∈ trace res.2.
Proof.
  intros Hread lines headers books Hcol.
  assert (is_none (indexOf headers (lit "ISBN"))
          && is_none (indexOf headers (lit "ISBN13")) = false) as Hnone.
  { destruct (indexOf headers (lit "ISBN")) eqn:H10; [done|].
    destruct (indexOf headers (lit "ISBN13")) eqn:H13; [done|].
    apply indexOf_None in H10, H13. by destruct Hcol. }
  unfold ImportBooks.processGoodreadsCSV. run_script. rewrite Hread.
  cbn [fst snd]. cbv zeta. fold lines. fold headers. rewrite Hnone.
  match goal with
  | |- context [for_of (tail lines) (ImportBooks.read_row ?i ?j ?k) [] ?s] =>
      destruct (read_rows_exact i j k (tail lines) [] s)
        as (log & Hrows & Hlog)
  end.
  rewrite Hrows. cbn [app]. fold books.
  cbn [fst snd trace world failedIsbns mk_state length] in *.
  apply quiet_log_issues_nothing in Hlog as [Hlog1 Hlog2].
  match goal with
  | |- context [for_of books ImportBooks.process_book [] ?s] =>
      destruct (process_books_outcomes books [] s)
        as (outcomes & st2 & Hfor & Hall & Hget & Hcreate & Hfailed)
  end.
  rewrite Hfor. cbn [fst snd app trace world failedIsbns] in *.
  rewrite !lookups_issued_app, Hlog1 in Hget.
  rewrite !creates_issued_app, Hlog2 in Hcreate.
  cbn [lookups_issued creates_issued omap list_omap app] in Hget, Hcreate.
  rewrite !app_nil_r in Hget, Hcreate.
  rewrite saveFailedIsbns_eq; cbn [fst snd trace world failedIsbns];
    (destruct (failedIsbns st2) as [|id ids] eqn:Hlist;
     [|destruct (Date_toISOString (world st2)) as [iso w2]; cbv zeta;
       destruct (fs_writeFile _ _ w2) as [[[]|e] w3];
       [|cbn [fst snd trace world failedIsbns mk_state];
         rewrite saveFailedIsbns_eq; cbn [fst snd trace world failedIsbns];
         rewrite ?Hlist;
         destruct (Date_toISOString w3) as [iso' w4]; cbv zeta;
         destruct (fs_writeFile _ _ w4) as [[[]|e'] w5]]]).
  all: eexists; (split; [reflexivity|]); exists outcomes;
    cbn [fst snd trace world failedIsbns mk_state];
    rewrite ?lookups_issued_app, ?creates_issued_app;
    cbn [lookups_issued creates_issued omap list_omap app];
    rewrite ?app_nil_r, ?Hlist; split_and!; try done; try congruence.
  all: rewrite ?elem_of_app, !list_elem_of_singleton; tauto.
Qed.

End goodreads_file.

(** X14. [processGoodreadsCSV] on a file that can be read and whose header
    names an ISBN or an ISBN13 column, whatever OpenLibrary, Notion and
    the file system answer afterwards.  The books to process are the
    rows after the header that are not blank and have an ISBN13 or an
    ISBN, in row order, each with the identifiers of its row; each of
    them has an identifier to look up.  The lookups issued are, book by
    book in that order, the identifiers of the book, ISBN13 before ISBN,
    up to the one that was found (the record found carries it) or all of
    them when none was found; nothing else is looked up.  A create
    request is issued for exactly the books found, in order, whether or
    not Notion accepts it.  The failure list receives, book by book, the
    identifiers looked up in vain and, for a book not found, the
    identifier reported for it.  The closing message reports the number
    of books found out of the number of books to process. *)
Theorem goodreads_books_are_looked_up_in_row_order {W}
    `{!NotionCreate W, !OpenLibrary W, !Node W}
    (filepath content : jstr) (w1 : W) (st : state W) :
  fs_readFile filepath (world st) = (Normal content, w1) ->
  let lines := split_on ch_newline content in
  let headers := parseCSVLine (default [] (head lines)) in
  let booksToProcess :=
    omap (ImportBooks.book_of_row (indexOf headers (lit "ISBN"))
            (indexOf headers (lit "ISBN13")) (indexOf headers (lit "Title")))
      (tail lines) in
  lit "ISBN" ∈ headers \/ lit "ISBN13" ∈ headers ->
  let res := ImportBooks.processGoodreadsCSV filepath st in
  Forall (fun b => ImportBooks.candidates b <> []) booksToProcess
  /\ exists outcomes : list (list jstr * option BookInfo),
       Forall2 (fun b o => ImportBooks.attempt b o.1 o.2)
         booksToProcess outcomes
       /\ lookups_issued (trace res.2)
          = lookups_issued (trace st)
            ++ (openlibrary_url <$> concat (fst <$> outcomes))
       /\ creates_issued (trace res.2)
          = creates_issued (trace st)
            ++ (ImportBooks.create_request_for <$> omap snd outcomes)
       /\ failedIsbns res.2
          = failedIsbns st
            ++ concat (zip_with (fun b o => ImportBooks.logged b o.1 o.2)
                         booksToProcess outcomes)
       /\ EvLog (MsgGoodreadsComplete (length (omap snd outcomes))
                   (length booksToProcess)) ∈ trace res.2.
Proof.
  intros Hread lines headers books Hcol. cbv zeta. split.
  - subst books. induction (tail lines) as [|line rows IH]; [constructor|].
    cbn [omap list_omap].
    destruct (ImportBooks.book_of_row _ _ _ line) as [b|] eqn:Hb; [|exact IH].
    constructor; [|exact IH]. by eapply book_of_row_candidates.
  - destruct (processGoodreadsCSV_cases filepath content w1 st Hread Hcol)
      as (res & <- & H).
    exact H.
Qed.

Lemma goodreads_books_are_looked_up_in_row_order_witness :
  let res := ImportBooks.processGoodreadsCSV (lit "export.csv") Examples.export in
  let dune := {| ImportBooks.book_title := lit "Dune";
                 ImportBooks.book_isbn := Some (lit "0441172717");
                 ImportBooks.book_isbn13 := Some (lit "9780441172719") |} in
  let ulysses := {| ImportBooks.book_title := lit "Ulysses";
                    ImportBooks.book_isbn := Some (lit "0199535675");
                    ImportBooks.book_isbn13 := None |} in
  Forall (fun b => ImportBooks.candidates b <> []) [dune; ulysses]
  /\ exists outcomes : list (list jstr * option BookInfo),
       Forall2 (fun b o => ImportBooks.attempt b o.1 o.2)
         [dune; ulysses] outcomes
       /\ lookups_issued (trace res.2)
          = openlibrary_url <$> concat (fst <$> outcomes)
       /\ creates_issued (trace res.2)
          = ImportBooks.create_request_for <$> omap snd outcomes
       /\ failedIsbns res.2
          = concat (zip_with (fun b o => ImportBooks.logged b o.1 o.2)
                      [dune; ulysses] outcomes)
       /\ EvLog (MsgGoodreadsComplete (length (omap snd outcomes)) 2)
          ∈ trace res.2.
Proof.
  refine (goodreads_books_are_looked_up_in_row_order
            (lit "export.csv") _ _ Examples.export eq_refl _).
  left. apply (bool_decide_unpack _). vm_compute. exact I.
Defined.

(** ** import.js: the only exception that escapes *)

Lemma files_saved_app t1 t2 :
  files_saved (t1 ++ t2) = files_saved t1 ++ files_saved t2.
Proof. apply omap_app. Qed.

Section escape.
Context {W : Type} `{!NotionCreate W, !OpenLibrary W, !Node W}.

#[local] Instance unsaved_preorder : PreOrder (unsaved (W:=W)).
Proof.
  split.
  - by intros st.
  - intros st1 st2 st3 H1 H2. unfold unsaved in *. congruence.
Qed.

Lemma unsaved_emit e :
  (if e is EvLog (MsgFailedSaved _ _) then False else True) ->
  respects (W:=W) unsaved (emit e).
Proof.
  intros He st. unfold unsaved. cbn. rewrite files_saved_app.
  destruct e as [| | | | |m| | |]; try (cbn; by rewrite app_nil_r).
  destruct m; try done; cbn; by rewrite app_nil_r.
Qed.

Lemma unsaved_call {A} e (op : W -> A * W) :
  (if e is EvLog (MsgFailedSaved _ _) then False else True) ->
  respects unsaved (call e op).
Proof.
  intros He st. unfold call, unsaved. destruct (op (world st)) as [a w]. cbn.
  rewrite files_saved_app.
  destruct e as [| | | | |m| | |]; try (cbn; by rewrite app_nil_r).
  destruct m; try done; cbn; by rewrite app_nil_r.
Qed.

Lemma unsaved_push isbn : respects (W:=W) unsaved (failedIsbns_push isbn).
Proof. by intros st. Qed.

Lemma respects_on_throw_bind {A B} (R : relation (state W)) `{!PreOrder R}
    (c : M W A) (k : A -> M W B) :
  respects R c -> (forall a, respects_on_throw R (k a)) ->
  respects_on_throw R (bind c k).
Proof.
  intros Hc Hk st. unfold bind. specialize (Hc st).
  destruct (c st) as [[a|e] st1]; cbn in *; [|done].
  specialize (Hk a st1). destruct (k a st1) as [[b|e] st2]; cbn in *; [done|].
  by etransitivity.
Qed.

Lemma respects_on_throw_weaken {A} (R : relation (state W)) (m : M W A) :
  respects R m -> respects_on_throw R m.
Proof. intros Hm st. specialize (Hm st). by destruct (m st).1. Qed.

Lemma saveFailedIsbns_unsaved :
  respects_on_throw (W:=W) unsaved ImportBooks.saveFailedIsbns.
Proof.
  intros st. rewrite saveFailedIsbns_eq.
  destruct (failedIsbns st); [done|].
  destruct (Date_toISOString (world st)) as [iso w1]. cbv zeta.
  destruct (fs_writeFile _ _ w1) as [[[]|e] w2]; cbn; [done|].
  unfold unsaved. cbn. rewrite files_saved_app. cbn. by rewrite app_nil_r.
Qed.

Ltac unsaved_step :=
  match goal with
  | |- respects _ (ret _) => apply (respects_ret unsaved)
  | |- respects _ (lift _) => apply (respects_lift unsaved)
  | |- respects _ (throw _) => apply (respects_throw unsaved)
  | |- respects _ (emit _) => apply unsaved_emit; exact I
  | |- respects _ (call _ _) => apply unsaved_call; exact I
  | |- respects _ (failedIsbns_push _) => apply unsaved_push
  | |- respects _ (try_catch _ _) =>
      apply (respects_try_catch unsaved); [|intros]
  | |- respects _ (bind _ _) => apply (respects_bind unsaved); [|intros]
  | |- respects _ (for_of _ _ _) => apply (respects_for_of unsaved); intros
  | |- respects _ (if ?b then _ else _) => destruct b
  | |- respects _ (match ?r with Some _ => _ | None => _ end) => destruct r
  end.

Lemma fetchBookInfo_unsaved isbn :
  respects (W:=W) unsaved (ImportBooks.fetchBookInfo isbn).
Proof.
  unfold ImportBooks.fetchBookInfo, call_throwing, console_log, console_error.
  repeat unsaved_step.
Qed.

Lemma addBookToNotion_unsaved info :
  respects (W:=W) unsaved (ImportBooks.addBookToNotion info).
Proof.
  unfold ImportBooks.addBookToNotion, call_throwing, console_log, console_error.
  repeat unsaved_step.
Qed.

Ltac unsaved_steps :=
  repeat match goal with
         | |- respects _ (ImportBooks.fetchBookInfo _) =>
             apply fetchBookInfo_unsaved
         | |- respects _ (ImportBooks.addBookToNotion _) =>
             apply addBookToNotion_unsaved
         | |- _ => unsaved_step
         end.

Lemma process_line_unsaved line books :
  respects (W:=W) unsaved (ImportBooks.process_line line books).
Proof.
  unfold ImportBooks.process_line, console_log, sleep. unsaved_steps.
Qed.

Lemma read_row_unsaved i j k line books :
  respects (W:=W) unsaved (ImportBooks.read_row i j k line books).
Proof. unfold ImportBooks.read_row, console_log. unsaved_steps. Qed.

Lemma process_book_unsaved b successful :
  respects (W:=W) unsaved (ImportBooks.process_book b successful).
Proof.
  unfold ImportBooks.process_book, console_log, sleep. unsaved_steps.
Qed.

Ltac unsaved_loops :=
  unfold call_throwing, console_log, console_error, sleep;
  repeat match goal with
         | |- respects _ (ImportBooks.process_line _ _) =>
             apply process_line_unsaved
         | |- respects _ (ImportBooks.read_row _ _ _ _ _) =>
             apply read_row_unsaved
         | |- respects _ (ImportBooks.process_book _ _) =>
             apply process_book_unsaved
         | |- respects _ (ImportBooks.fetchBookInfo _) =>
             apply fetchBookInfo_unsaved
         | |- respects _ (ImportBooks.addBookToNotion _) =>
             apply addBookToNotion_unsaved
         | |- _ => unsaved_step
         end.

Ltac on_throw_steps :=
  repeat match goal with
         | |- respects_on_throw _ ImportBooks.saveFailedIsbns =>
             apply saveFailedIsbns_unsaved
         | |- respects_on_throw _ (bind _ _) =>
             apply (respects_on_throw_bind unsaved); [unsaved_loops|intros]
         | |- respects_on_throw _ (if ?b then _ else _) => destruct b
         | |- respects_on_throw _ (match ?r with Some _ => _ | None => _ end) =>
             destruct r
         | |- respects_on_throw _ _ =>
             apply respects_on_throw_weaken; unsaved_loops
         end.

(** What the three functions do inside their [try]. *)
Lemma guarded_unsaved (body : M W unit) (wrap : error -> message)
    (st : state W) e st' :
  respects_on_throw unsaved body ->
  (forall error, if wrap error is MsgFailedSaved _ _ then False else True) ->
  try_catch body
    (fun error => console_error (wrap error) ;; ImportBooks.saveFailedIsbns) st
  = (Throw e, st') ->
  failedIsbns st' <> []
  /\ files_saved (trace st') = files_saved (trace st)
  /\ exists t e1 file w,
       trace st'
       = t ++ [EvError (wrap e1);
               EvWriteFile file (join [ch_newline] (failedIsbns st'))]
       /\ fs_writeFile file (join [ch_newline] (failedIsbns st')) w
          = (Throw e, world st').
Proof.
  intros Hbody Hwrap. unfold try_catch. specialize (Hbody st).
  destruct (body st) as [[[]|e1] st1]; [done|]. cbn [fst snd] in Hbody.
  unfold bind, console_error, emit. rewrite saveFailedIsbns_eq.
  cbn [world trace failedIsbns].
  destruct (failedIsbns st1) as [|failed faileds] eqn:Hfailed; [done|].
  destruct (Date_toISOString (world st1)) as [iso w1]. cbv zeta.
  destruct (fs_writeFile _ _ w1) as [[[]|e2] w2] eqn:Hwrite; [done|].
  intros [= <- <-]. cbn [failedIsbns trace world mk_state].
  rewrite ?Hfailed. split; [done|]. split.
  - rewrite !files_saved_app. cbn. rewrite !app_nil_r, Hbody. done.
  - eexists (trace st1), e1, _, w1. split; [by rewrite <- app_assoc|].
    exact Hwrite.
Qed.

Lemma run_entry_escape (entry : ImportBooks.entry_point) (st : state W) e st' :
  ImportBooks.run_entry entry st = (Throw e, st') ->
  failedIsbns st' <> []
  /\ files_saved (trace st') = files_saved (trace st)
  /\ exists t e1 file w,
       trace st'
       = t ++ [EvError (ImportBooks.handler_message entry e1);
               EvWriteFile file (join [ch_newline] (failedIsbns st'))]
       /\ fs_writeFile file (join [ch_newline] (failedIsbns st')) w
          = (Throw e, world st').
Proof.
  destruct entry as [filepath|isbn|filepath];
    cbn [ImportBooks.run_entry ImportBooks.handler_message];
    [unfold ImportBooks.processISBNFile
    |unfold ImportBooks.processSingleISBN
    |unfold ImportBooks.processGoodreadsCSV];
    (apply guarded_unsaved; [|done]); cbv zeta; on_throw_steps.
Qed.

End escape.

(** X12. However import.js is run (a file of ISBNs, one ISBN, a spreadsheet
    export), an exception escapes the function only from the [catch]
    handler's own attempt to save the failure list.  When that happens the
    last two things the run did are the handler's error message and the
    request to write the whole failure list; the list is not empty, the
    file system refused the request, and no failure file was saved at any
    point of the run: the identifiers that failed are lost. *)
Theorem import_throws_only_when_failures_cannot_be_saved {W}
    `{!NotionCreate W, !OpenLibrary W, !Node W}
    (entry : ImportBooks.entry_point) (st : state W) e st' :
  ImportBooks.run_entry entry st = (Throw e, st') ->
  failedIsbns st' <> []
  /\ files_saved (trace st') = files_saved (trace st)
  /\ exists t e1 file w,
       trace st'
       = t ++ [EvError (ImportBooks.handler_message entry e1);
               EvWriteFile file (join [ch_newline] (failedIsbns st'))]
       /\ fs_writeFile file (join [ch_newline] (failedIsbns st')) w
          = (Throw e, world st').
Proof. apply run_entry_escape. Qed.

Lemma import_throws_only_when_failures_cannot_be_saved_witness :
  exists e st',
    ImportBooks.run_entry (ImportBooks.SingleISBN (lit "0-441-17271-7"))
      (initial (Script.make [] [] []))
    = (Throw e, st')
    /\ failedIsbns st' = [lit "0441172717"]
    /\ files_saved (trace st') = []
    /\ exists t e1 file w,
         trace st'
         = t ++ [EvError (ErrProcessingIsbn e1);
                 EvWriteFile file (join [ch_newline] (failedIsbns st'))]
         /\ fs_writeFile file (join [ch_newline] (failedIsbns st')) w
            = (Throw e, world st').
Proof.
  eexists _, _. split; [vm_compute; reflexivity|].
  split; [reflexivity|].
  refine (proj2 (import_throws_only_when_failures_cannot_be_saved
                   (ImportBooks.SingleISBN (lit "0-441-17271-7"))
                   (initial (Script.make [] [] [])) _ _ _)).
  vm_compute. reflexivity.
Defined.

(** ** update-icons.js: an accepted update settles the record *)

(** X15. The icon update round trip.  Take a record whose title can be
    read and whose status is not empty.  When the database accepts the
    request update-icons.js sends for it (the emoji the request carries
    is a string), the record as the database then holds it is one the
    script skips: processed again, in any state of the world, it is
    counted as skipped, no update request is issued for it and the world
    is left as it is. *)
Theorem accepted_icon_update_settles_the_record {W} `{!Notion W}
    (page page' : page) (c : UpdateIcons.counters) (st : state W) :
  readable page ->
  truthy_str (UpdateIcons.status_name page) = true ->
  Store.patched (upd_patch (UpdateIcons.icon_request page)) page = Some page' ->
  let res := UpdateIcons.process_record page' c st in
  res.1 = Normal {| UpdateIcons.totalUpdated := UpdateIcons.totalUpdated c;
                    UpdateIcons.totalSkipped := S (UpdateIcons.totalSkipped c) |}
  /\ world res.2 = world st
  /\ exists evs,
       trace res.2 = trace st ++ evs
       /\ updates_issued evs = []
       /\ existsb is_network evs = false.
Proof.
  intros [title Htitle] Hstatus Hpatched. cbv zeta.
  unfold UpdateIcons.icon_request in Hpatched. cbn [upd_patch] in Hpatched.
  destruct (UpdateIcons.expectedEmoji (default [] (UpdateIcons.status_name page)))
    as [| | | |emoji| | |] eqn:Hexpected; try done.
  cbn in Hpatched. injection Hpatched as <-.
  rewrite (UpdateIconsFacts.process_record_skip _ title).
  - split; [done|]. split; [done|]. by eexists [_].
  - exact Htitle.
  - exact Hstatus.
  - unfold UpdateIcons.currentEmoji, UpdateIcons.status_name in *.
    cbn [page_icon_of page_props]. rewrite Hexpected.
    unfold strict_equals, jstr_eqb. by apply bool_decide_eq_true.
Qed.

Lemma accepted_icon_update_settles_the_record_witness :
  let page' := {| page_id := lit "p1";
                  page_props := page_props Examples.reading;
                  page_icon_of := Some (IconEmoji open_book) |} in
  let c := {| UpdateIcons.totalUpdated := 1; UpdateIcons.totalSkipped := 0 |} in
  let res := UpdateIcons.process_record page' c (initial Examples.one_refused) in
  res.1 = Normal {| UpdateIcons.totalUpdated := 1;
                    UpdateIcons.totalSkipped := 1 |}
  /\ world res.2 = Examples.one_refused
  /\ exists evs,
       trace res.2 = [] ++ evs
       /\ updates_issued evs = []
       /\ existsb is_network evs = false.
Proof.
  exact (accepted_icon_update_settles_the_record
           Examples.reading _
           {| UpdateIcons.totalUpdated := 1; UpdateIcons.totalSkipped := 0 |}
           (initial Examples.one_refused) ltac:(by eexists) eq_refl eq_refl).
Defined.

(** ** import.js and update-total-pages.js read the same answer alike *)

(** X16. The two scripts read the page count of a book out of the same
    OpenLibrary answer, each with its own code.  They agree: whenever
    import.js builds a record from an answer, update-total-pages.js
    obtains from that answer exactly the page count of the record, and
    none when the record was built with [null] for it.  So a book
    imported without page count is not filled later from the same
    answer, and one imported with a page count would be given the same
    number. *)
Theorem import_and_backfill_agree_on_the_page_count
    (isbn : jstr) (out : http_outcome) (info : BookInfo) :
  ImportBooks.book_info isbn out = Normal info ->
  UpdateTotalPages.page_count_found isbn out
  = if truthy (numberOfPages info) then Some (numberOfPages info) else None.
Proof.
  unfold ImportBooks.book_info, UpdateTotalPages.page_count_found,
    UpdateTotalPages.book_data.
  intros H. destruct out as [message| |data]; try done.
  destruct (js_get data _) as [bookData|e]; [|done].
  destruct (js_get bookData (lit "title")) as [t|e] eqn:Ht; [|done].
  destruct (js_get bookData (lit "authors")) as [a|e]; [|done].
  destruct (ImportBooks.authors_of a) as [names|e]; [|done].
  destruct (js_get bookData (lit "number_of_pages")) as [n|e] eqn:Hn; [|done].
  injection H as <-. cbn [numberOfPages].
  unfold js_or. destruct (truthy bookData) eqn:Hb; rewrite ?Hb, ?Hn.
  - destruct (truthy n) eqn:Htn; by rewrite ?Htn.
  - cbn [truthy].
    assert (n = VUndefined) as ->; [|done].
    destruct bookData as [| |[]|z|s| | |]; cbn in Hn, Ht, Hb; by simplify_eq.
Qed.

Lemma import_and_backfill_agree_on_the_page_count_witness :
  UpdateTotalPages.page_count_found (lit "333")
    (Examples.entry "333" [(lit "number_of_pages", VNumber 420)])
  = Some (VNumber 420).
Proof.
  exact (import_and_backfill_agree_on_the_page_count (lit "333")
           (Examples.entry "333" [(lit "number_of_pages", VNumber 420)])
           _ eq_refl).
Defined.
